(** * Indian census API: a shallow embedding of [main.py] and its properties

    The request handlers of [main.py] are embedded as Rocq functions over
    - Python strings as [string], for ASCII text ([str.lower], [str.upper],
      [str.strip], [str.split], [str.capitalize] written out as they act on
      ASCII characters; a property that depends on the letter case of
      arbitrary text is stated for ASCII text, see [is_ascii]),
    - Python dicts as insertion-ordered association lists ([odict]),
    - JSON payloads as the inductive [json],
    - the [census_data] relation as a list of [FactRow] in the order the
      store scans it, with the WHERE clauses of the handlers' queries
      evaluated on it; where a query leaves the order of its rows to the
      store ([DISTINCT] without [ORDER BY], rows with equal [ORDER BY] keys),
      the store's choice is a parameter ([Listing]),
    - raised exceptions as values of [exc], with the handlers'
      [try ... except Exception] written out as [except_Exception]. *)

From Stdlib Require Import ZArith List String Ascii Bool Permutation Lia.
From Stdlib Require Import DecimalString.
Import ListNotations.

Set Warnings "-register-all".
Local Open Scope string_scope.
Local Open Scope Z_scope.

(** ** Python and SQL string functions (ASCII) *)

Module PyStr.

(** The characters of ASCII text.  Outside them Python's case mappings are
    those of Unicode, which are not written out here. *)
Definition is_ascii_char (c : ascii) : bool := Nat.ltb (nat_of_ascii c) 128.

Fixpoint is_ascii (s : string) : bool :=
  match s with
  | EmptyString => true
  | String c r => is_ascii_char c && is_ascii r
  end.

Definition lower_char (c : ascii) : ascii :=
  let n := nat_of_ascii c in
  if (Nat.leb 65 n && Nat.leb n 90)%bool then ascii_of_nat (n + 32) else c.

Definition upper_char (c : ascii) : ascii :=
  let n := nat_of_ascii c in
  if (Nat.leb 97 n && Nat.leb n 122)%bool then ascii_of_nat (n - 32) else c.

(** [s.lower()], on ASCII text *)
Fixpoint lower (s : string) : string :=
  match s with
  | EmptyString => EmptyString
  | String c r => String (lower_char c) (lower r)
  end.

(** [s.capitalize()], on ASCII text *)
Definition capitalize (s : string) : string :=
  match s with
  | EmptyString => EmptyString
  | String c r => String (upper_char c) (lower r)
  end.

(** The ASCII characters [str.strip()] removes: tab, LF, VT, FF, CR, the
    separators 0x1c-0x1f and the space. *)
Definition isspace (c : ascii) : bool :=
  let n := nat_of_ascii c in
  ((Nat.leb 9 n && Nat.leb n 13) || (Nat.leb 28 n && Nat.leb n 32))%bool.

Fixpoint lstrip_with (sp : ascii -> bool) (s : string) : string :=
  match s with
  | EmptyString => EmptyString
  | String c r => if sp c then lstrip_with sp r else s
  end.

Fixpoint rstrip_with (sp : ascii -> bool) (s : string) : string :=
  match s with
  | EmptyString => EmptyString
  | String c r =>
      match rstrip_with sp r with
      | EmptyString => if sp c then EmptyString else String c EmptyString
      | r' => String c r'
      end
  end.

(** [s.strip()] *)
Definition strip (s : string) : string :=
  rstrip_with isspace (lstrip_with isspace s).

(** [s.split(sep)] for a one-character separator *)
Fixpoint split (sep : ascii) (s : string) : list string :=
  match s with
  | EmptyString => [EmptyString]
  | String c r =>
      if Ascii.eqb c sep then EmptyString :: split sep r
      else match split sep r with
           | h :: t => String c h :: t
           | [] => [String c EmptyString]
           end
  end.

(** [s.upper()], on ASCII text *)
Fixpoint upper (s : string) : string :=
  match s with
  | EmptyString => EmptyString
  | String c r => String (upper_char c) (upper r)
  end.

(** [sep.join(l)] *)
Definition join (sep : string) (l : list string) : string := String.concat sep l.

(** [str(n)] and [f"{n}"] for an int *)
Definition str_of_int (n : Z) : string := NilZero.string_of_int (Z.to_int n).

(** Truth value of a string: [if s:] *)
Definition nonempty (s : string) : bool :=
  match s with EmptyString => false | _ => true end.

(** Truth value of an [Optional[str]]: [if tru:] *)
Definition truthy (o : option string) : bool :=
  match o with Some s => nonempty s | None => false end.

(** [x in l] for a list of strings *)
Definition mem (x : string) (l : list string) : bool := existsb (String.eqb x) l.

(** SQL [LOWER] and [TRIM] (which removes spaces only) *)
Definition sql_lower : string -> string := lower.
Definition sql_trim (s : string) : string :=
  rstrip_with (Ascii.eqb " ") (lstrip_with (Ascii.eqb " ") s).

(** [TRIM(LOWER(col))] *)
Definition sql_norm (s : string) : string := sql_trim (sql_lower s).

Definition nl : string := String (ascii_of_nat 10) EmptyString.

End PyStr.
Import PyStr.

(** ** Insertion-ordered dictionaries *)

Class KeyEq (K : Type) := key_eq_dec : forall x y : K, {x = y} + {x <> y}.

#[export] Instance KeyEq_Z : KeyEq Z := Z.eq_dec.
#[export] Instance KeyEq_string : KeyEq string := string_dec.
#[export] Instance KeyEq_prod {A B} `{KeyEq A} `{KeyEq B} : KeyEq (A * B).
Proof. intros [a b] [a' b']. destruct (key_eq_dec a a'), (key_eq_dec b b'); [left|right|right|right]; congruence. Defined.

Definition odict (K V : Type) := list (K * V).

Section ODict.
Context {K V : Type} `{KeyEq K}.

(** [d.get(k)] *)
Fixpoint od_get (k : K) (d : odict K V) : option V :=
  match d with
  | [] => None
  | (k', v) :: t => if key_eq_dec k k' then Some v else od_get k t
  end.

(** [k in d] *)
Definition od_mem (k : K) (d : odict K V) : bool :=
  match od_get k d with Some _ => true | None => false end.

(** [d[k] = v]: an existing key keeps its position, a new key goes last *)
Fixpoint od_set (k : K) (v : V) (d : odict K V) : odict K V :=
  match d with
  | [] => [(k, v)]
  | (k', v') :: t => if key_eq_dec k k' then (k', v) :: t else (k', v') :: od_set k v t
  end.

(** In-place change of the value stored at [k]; nothing happens when [k] is absent. *)
Fixpoint od_update (k : K) (f : V -> V) (d : odict K V) : odict K V :=
  match d with
  | [] => []
  | (k', v') :: t => if key_eq_dec k k' then (k', f v') :: t else (k', v') :: od_update k f t
  end.

Definition od_keys (d : odict K V) : list K := map fst d.
Definition od_values (d : odict K V) : list V := map snd d.

(** [d.update(e)] *)
Definition od_merge (d e : odict K V) : odict K V :=
  fold_left (fun acc kv => od_set (fst kv) (snd kv) acc) e d.

End ODict.

Definition differs {A} `{KeyEq A} (x y : A) : bool :=
  if key_eq_dec x y then false else true.

(** First occurrences of a list, in order (SQL [DISTINCT], [dict] keys). *)
Fixpoint distinct {A} `{KeyEq A} (l : list A) : list A :=
  match l with
  | [] => []
  | x :: t => x :: filter (differs x) (distinct t)
  end.

(** ** JSON values *)

Inductive json : Type :=
| JNull
| JInt (n : Z)
| JStr (s : string)
| JList (l : list json)
| JObj (d : list (string * json)).

(** [o[k] = v] on a JSON object *)
Definition jset (k : string) (v : json) (o : json) : json :=
  match o with JObj d => JObj (od_set k v d) | _ => o end.

Definition jget (k : string) (o : json) : option json :=
  match o with JObj d => od_get k d | _ => None end.

Definition jkeys (o : json) : list string :=
  match o with JObj d => od_keys d | _ => [] end.

(** Python's [==] on JSON payloads: dictionaries are compared as mappings,
    whatever their insertion order. *)
Fixpoint py_eq (a b : json) {struct a} : bool :=
  match a, b with
  | JNull, JNull => true
  | JInt x, JInt y => Z.eqb x y
  | JStr x, JStr y => String.eqb x y
  | JList l1, JList l2 =>
      (fix go (l1 l2 : list json) : bool :=
         match l1, l2 with
         | [], [] => true
         | x :: t, y :: t' => py_eq x y && go t t'
         | _, _ => false
         end) l1 l2
  | JObj d1, JObj d2 =>
      Nat.eqb (List.length d1) (List.length d2) &&
      (fix go (d : list (string * json)) : bool :=
         match d with
         | [] => true
         | (k, v) :: t =>
             match od_get k d2 with Some v' => py_eq v v' | None => false end && go t
         end) d1
  | _, _ => false
  end.

(** [==] on the [grouped] dictionaries of the handlers *)
Definition grouped_eq {K} `{KeyEq K} (g1 g2 : odict K (odict string json)) : bool :=
  Nat.eqb (List.length g1) (List.length g2) &&
  forallb (fun kv => match od_get (fst kv) g2 with
                     | Some o => py_eq (JObj (snd kv)) (JObj o)
                     | None => false
                     end) g1.

(** ** Fact rows of the [census_data] relation *)

Record FactRow := {
  state : Z; district : Z; subdistt : Z; town_village : Z;
  level : string; name : string; tru : string;
  no_hh : Z; tot_p : Z; tot_m : Z; tot_f : Z;
  p_06 : Z; m_06 : Z; f_06 : Z;
  p_sc : Z; m_sc : Z; f_sc : Z;
  p_st : Z; m_st : Z; f_st : Z;
  p_lit : Z; m_lit : Z; f_lit : Z;
  tot_work_p : Z; tot_work_m : Z; tot_work_f : Z;
  non_work_p : Z; non_work_m : Z; non_work_f : Z
}.

(** The value of a column of [census_data] in a row, as a JSON value
    ([dict(r)] on a fetched record). *)
Definition column (c : string) (r : FactRow) : json :=
  if (c =? "state")%string then JInt (state r)
  else if (c =? "name")%string then JStr (name r)
  else if (c =? "level")%string then JStr (level r)
  else JNull.

(** ** Exceptions and responses *)

Inductive exc : Type :=
| HTTPException (status_code : Z) (detail : detail)
| RequestValidationError (param : string)
| KeyError (key : string)
| PostgresError (msg : string)
with detail : Type :=
| Text (s : string)
| StrOf (e : exc).

Inductive result (A : Type) : Type :=
| Ok (a : A)
| Err (e : exc).
Arguments Ok {A} a.
Arguments Err {A} e.

Definition bind {A B} (r : result A) (f : A -> result B) : result B :=
  match r with Ok a => f a | Err e => Err e end.

Notation "x <- r ;; k" := (bind r (fun x => k))
  (at level 61, r at next level, right associativity).

Fixpoint mapM {A B} (f : A -> result B) (l : list A) : result (list B) :=
  match l with
  | [] => Ok []
  | x :: t => y <- f x ;; ys <- mapM f t ;; Ok (y :: ys)
  end.

Fixpoint foldM {A B} (f : B -> A -> result B) (l : list A) (acc : B) : result B :=
  match l with
  | [] => Ok acc
  | x :: t => acc' <- f acc x ;; foldM f t acc'
  end.

Inductive response : Type :=
| JSONResponse (content : json)
| Raise (e : exc).

(** [try: body  except Exception as e: raise HTTPException(status_code=500,
    detail=str(e))].  [HTTPException] is itself an [Exception], so one
    raised inside [body] is caught as well. *)
Definition except_Exception (body : result json) : response :=
  match body with
  | Ok content => JSONResponse content
  | Err e => Raise (HTTPException 500 (StrOf e))
  end.

(** HTTP status the framework sends for a response. *)
Definition status (r : response) : Z :=
  match r with
  | JSONResponse _ => 200
  | Raise (HTTPException code _) => code
  | Raise (RequestValidationError _) => 422
  | Raise _ => 500
  end.

(** ** The store *)

(** [census_data]: the fact rows, in the order the store scans them.  A
    plain query (no [DISTINCT], no [ORDER BY]) returns its rows in that
    order. *)
Definition Table := list FactRow.

(** Where a query leaves the order of its rows open, the store chooses it:
    the rows of a [SELECT DISTINCT] without [ORDER BY] come sorted, hashed or
    as scanned, and [ORDER BY] says nothing about rows with equal sort keys.
    A [Listing] is the store's choice for one query: some rearrangement of
    the rows it is given. *)
Record Listing (A : Type) := {
  listed : list A -> list A;
  listed_perm : forall l, Permutation (listed l) l
}.
Arguments listed {A} _ _.
Arguments listed_perm {A} _ _.

(** [SELECT DISTINCT ...] without [ORDER BY]: every distinct row once, as
    the store lists them. *)
Definition select_distinct {A} `{KeyEq A} (u : Listing A) (l : list A) : list A :=
  listed u (distinct l).

(** Stable insertion sort on a text key ([ORDER BY name]), bytewise order. *)
Fixpoint insert_by {A} (key : A -> string) (x : A) (l : list A) : list A :=
  match l with
  | [] => [x]
  | y :: t => if String.leb (key x) (key y) then x :: l else y :: insert_by key x t
  end.

Definition order_by {A} (key : A -> string) (l : list A) : list A :=
  fold_right (insert_by key) [] l.

(** ** Validation shared by the state endpoints *)

Definition allowed_tru : list string := ["total"; "rural"; "urban"].

(** [tru and tru.lower() not in allowed_tru] *)
Definition tru_invalid (tru : option string) : bool :=
  match tru with
  | Some t => nonempty t && negb (mem (lower t) allowed_tru)
  | None => false
  end.

(** [[s.strip().lower() for s in states.split(",") if s.strip()]] *)
Definition name_list (states : string) : list string :=
  map (fun s => lower (strip s))
      (filter (fun s => nonempty (strip s)) (split "," states)).

(** The value bound for the TRU placeholder: [if tru: values.append(tru.lower())] *)
Definition tru_param (tru : option string) : option string :=
  match tru with
  | Some t => if nonempty t then Some (lower t) else None
  | None => None
  end.

(** [WHERE TRIM(LOWER(level)) = 'state' AND TRIM(LOWER(name)) IN (...)
    [AND TRIM(LOWER(tru)) = $n]] *)
Definition where_state (values : list string) (tru_value : option string) (r : FactRow) : bool :=
  (sql_norm (level r) =? "state")%string
  && mem (sql_norm (name r)) values
  && match tru_value with
     | Some t => (sql_norm (tru r) =? t)%string
     | None => true
     end.

Definition fetch_state_rows (db : Table) (values : list string) (tru_value : option string)
  : list FactRow :=
  filter (where_state values tru_value) db.

(** The three-count block [{"total": p, "male": m, "female": f}] *)
Definition block (p m f : Z) : json :=
  JObj [("total", JInt p); ("male", JInt m); ("female", JInt f)].

(** ** [GET /state-population] *)

Definition population_entry (include_population : bool) (nm : string * Z) : odict string json :=
  let state_entry := [("name", JStr (fst nm)); ("state", JInt (snd nm))] in
  if include_population then od_set "population" (JObj []) state_entry else state_entry.

(** One pass of [for state in results: if state["state"] == row["state"]: ...] *)
Definition population_row (results : list (odict string json)) (row : FactRow)
  : list (odict string json) :=
  map (fun st =>
         match od_get "state" st with
         | Some (JInt c) =>
             if c =? state row
             then od_update "population" (jset (lower (tru row)) (JInt (tot_p row))) st
             else st
         | _ => st
         end) results.

Definition get_state_population (u : Listing (string * Z)) (db : Table) (states : string)
    (tru : option string) (include_population : bool) : response :=
  if tru_invalid tru
  then Raise (HTTPException 400 (Text "Invalid tru value. Use: total, rural, or urban"))
  else
    let state_list := name_list states in
    match state_list with
    | [] => Raise (HTTPException 400 (Text "No valid state names provided."))
    | _ =>
        let tru_value :=
          match tru with
          | Some t => if nonempty t then Some (lower (strip t)) else None
          | None => None
          end in
        except_Exception
          (let meta_rows :=
             select_distinct u (map (fun r => (name r, state r))
                                    (fetch_state_rows db state_list tru_value)) in
           match meta_rows with
           | [] => Err (HTTPException 404 (Text "No matching states found"))
           | _ =>
               let results := map (population_entry include_population) meta_rows in
               let results :=
                 if include_population
                 then fold_left population_row
                                (fetch_state_rows db state_list tru_value) results
                 else results in
               Ok (JList (map JObj results))
           end)
    end.

(** ** [GET /state-gender-population] *)

(** Loop body of the handler; [grouped] is a
    [defaultdict(lambda: {"population": {}})]. *)
Definition gender_row (grouped : odict Z (odict string json)) (row : FactRow)
  : odict Z (odict string json) :=
  let state_id := state row in
  let state_name := name row in
  let tru_key := lower (tru row) in
  let entry :=
    match od_get state_id grouped with
    | Some e => e
    | None => [("population", JObj [])]
    end in
  let entry :=
    if od_mem "name" entry then entry
    else od_set "state" (JInt state_id) (od_set "name" (JStr state_name) entry) in
  let entry :=
    od_update "population"
      (jset tru_key (block (tot_p row) (tot_m row) (tot_f row))) entry in
  od_set state_id entry grouped.

Definition gender_grouped (rows : list FactRow) : odict Z (odict string json) :=
  fold_left gender_row rows [].

Definition get_state_gender_population (db : Table) (states : string) (tru : option string)
  : response :=
  if tru_invalid tru then Raise (HTTPException 400 (Text "Invalid TRU value"))
  else
    let values := name_list states in
    match values with
    | [] => Raise (HTTPException 400 (Text "No valid state names provided."))
    | _ =>
        except_Exception
          (let rows := fetch_state_rows db values (tru_param tru) in
           match rows with
           | [] => Err (HTTPException 404 (Text "No data found"))
           | _ => Ok (JList (map JObj (od_values (gender_grouped rows))))
           end)
    end.

(** ** [GET /state-literacy] *)

(** Loop body; [req_tru] is the request's [tru] argument. *)
Definition literacy_row (req_tru : option string) (grouped : odict (Z * string) json)
    (row : FactRow) : odict (Z * string) json :=
  let state_id := state row in
  let state_name := name row in
  let key := (state_id, state_name) in
  let grouped := if od_mem key grouped then grouped else od_set key (JObj []) grouped in
  let tru_key :=
    match req_tru with None => Some (lower (tru row)) | Some _ => None end in
  let literacy_data := block (p_lit row) (m_lit row) (f_lit row) in
  match tru_key with
  | Some k =>
      if nonempty k then od_update key (jset k literacy_data) grouped
      else od_set key literacy_data grouped
  | None => od_set key literacy_data grouped
  end.

Definition literacy_grouped (req_tru : option string) (rows : list FactRow)
  : odict (Z * string) json :=
  fold_left (literacy_row req_tru) rows [].

Definition literacy_obj (req_tru : option string) (kd : (Z * string) * json)
  : odict string json :=
  let '((state_id, nm), data) := kd in
  let obj := [("name", JStr nm); ("state", JInt state_id)] in
  match req_tru with
  | Some t =>
      if nonempty t
      then od_set "literacy" data (od_set "tru" (JStr (capitalize t)) obj)
      else od_set "literacy" data obj
  | None => od_set "literacy" data obj
  end.

Definition get_state_literacy (db : Table) (states : string) (tru : option string)
  : response :=
  if tru_invalid tru then Raise (HTTPException 400 (Text "Invalid TRU value"))
  else
    let values := name_list states in
    match values with
    | [] => Raise (HTTPException 400 (Text "No valid state names provided."))
    | _ =>
        except_Exception
          (let rows := fetch_state_rows db values (tru_param tru) in
           match rows with
           | [] => Err (HTTPException 404 (Text "No data found"))
           | _ => Ok (JList (map (fun kd => JObj (literacy_obj tru kd))
                                 (literacy_grouped tru rows)))
           end)
    end.

(** ** [GET /state-workers] *)

Definition workers_row (grouped : odict Z (odict string json)) (row : FactRow)
  : odict Z (odict string json) :=
  let key := state row in
  let tru_key := lower (tru row) in
  let grouped :=
    if od_mem key grouped then grouped
    else od_set key [("name", JStr (name row)); ("state", JInt (state row));
                     ("workers", JObj [])] grouped in
  od_update key
    (od_update "workers"
       (jset tru_key (block (tot_work_p row) (tot_work_m row) (tot_work_f row))))
    grouped.

Definition workers_grouped (rows : list FactRow) : odict Z (odict string json) :=
  fold_left workers_row rows [].

Definition get_state_workers (db : Table) (states : string) (tru : option string)
  : response :=
  if tru_invalid tru then Raise (HTTPException 400 (Text "Invalid TRU value"))
  else
    let values := name_list states in
    match values with
    | [] => Raise (HTTPException 400 (Text "No valid state names provided."))
    | _ =>
        except_Exception
          (let rows := fetch_state_rows db values (tru_param tru) in
           match rows with
           | [] => Err (HTTPException 404 (Text "No data found"))
           | _ => Ok (JList (map JObj (od_values (workers_grouped rows))))
           end)
    end.

(** ** [GET /state-caste-population] *)

Definition caste_block (row : FactRow) : json :=
  JObj [("sc", block (p_sc row) (m_sc row) (f_sc row));
        ("st", block (p_st row) (m_st row) (f_st row))].

Definition caste_row (grouped : odict Z (odict string json)) (row : FactRow)
  : odict Z (odict string json) :=
  let state_id := state row in
  let tru_key := lower (tru row) in
  let grouped :=
    if od_mem state_id grouped then grouped
    else od_set state_id [("name", JStr (name row)); ("state", JInt (state row));
                          ("caste_population", JObj [])] grouped in
  od_update state_id
    (od_update "caste_population" (jset tru_key (caste_block row))) grouped.

Definition caste_grouped (rows : list FactRow) : odict Z (odict string json) :=
  fold_left caste_row rows [].

Definition get_state_caste_population (db : Table) (states : string) (tru : option string)
  : response :=
  if tru_invalid tru then Raise (HTTPException 400 (Text "Invalid TRU value"))
  else
    let values := name_list states in
    match values with
    | [] => Raise (HTTPException 400 (Text "No valid state names provided."))
    | _ =>
        except_Exception
          (let rows := fetch_state_rows db values (tru_param tru) in
           match rows with
           | [] => Err (HTTPException 404 (Text "No data found"))
           | _ => Ok (JList (map JObj (od_values (caste_grouped rows))))
           end)
    end.

(** ** [GET /state-non-workers] *)

Definition non_workers_row (grouped : odict string (odict string json)) (row : FactRow)
  : odict string (odict string json) :=
  let state_key := str_of_int (state row) ++ "_" ++ name row in
  let grouped :=
    if od_mem state_key grouped then grouped
    else od_set state_key [("name", JStr (name row)); ("state", JInt (state row));
                           ("non_workers", JObj [])] grouped in
  od_update state_key
    (od_update "non_workers"
       (jset (lower (tru row))
             (block (non_work_p row) (non_work_m row) (non_work_f row))))
    grouped.

Definition non_workers_grouped (rows : list FactRow) : odict string (odict string json) :=
  fold_left non_workers_row rows [].

Definition get_state_non_workers (db : Table) (states : string) (tru : option string)
  : response :=
  if tru_invalid tru then Raise (HTTPException 400 (Text "Invalid TRU value"))
  else
    let values := name_list states in
    match values with
    | [] => Raise (HTTPException 400 (Text "No valid state names provided."))
    | _ =>
        except_Exception
          (let rows := fetch_state_rows db values (tru_param tru) in
           match rows with
           | [] => Err (HTTPException 404 (Text "No data found"))
           | _ => Ok (JList (map JObj (od_values (non_workers_grouped rows))))
           end)
    end.

(** ** [GET /state-households] *)

Definition households_row (req_tru : option string) (state_data : odict Z (odict string json))
    (row : FactRow) : odict Z (odict string json) :=
  let state_id := state row in
  let tru_value := lower (tru row) in
  let state_data :=
    if od_mem state_id state_data then state_data
    else
      od_set state_id
        [("name", JStr (name row)); ("state", JInt state_id);
         ("households", if truthy req_tru then JInt (no_hh row) else JObj []);
         ("population", block (tot_p row) (tot_m row) (tot_f row));
         ("under_6", block (p_06 row) (m_06 row) (f_06 row))]
        state_data in
  if truthy req_tru then state_data
  else od_update state_id
         (od_update "households" (jset tru_value (JInt (no_hh row)))) state_data.

Definition households_grouped (req_tru : option string) (rows : list FactRow)
  : odict Z (odict string json) :=
  fold_left (households_row req_tru) rows [].

Definition get_state_households (db : Table) (states : string) (tru : option string)
  : response :=
  if tru_invalid tru then Raise (HTTPException 400 (Text "Invalid TRU value"))
  else
    let values := name_list states in
    match values with
    | [] => Raise (HTTPException 400 (Text "No valid state names provided."))
    | _ =>
        except_Exception
          (let rows := fetch_state_rows db values (tru_param tru) in
           match rows with
           | [] => Err (HTTPException 404 (Text "No data found"))
           | _ => Ok (JList (map JObj (od_values (households_grouped tru rows))))
           end)
    end.

(** ** Name resolution: [SELECT DISTINCT state, name ... LIMIT 1] *)

(** The query has no [ORDER BY]: the distinct matching pairs come as the
    store lists them, and [LIMIT 1] with [fetchrow] takes the first. *)
Definition state_matches (u : Listing (Z * string)) (state_name : string) (db : Table)
  : list (Z * string) :=
  select_distinct u
    (map (fun r => (state r, name r))
         (filter (fun r => (sql_norm (level r) =? "state")%string
                           && (sql_norm (name r) =? state_name)%string) db)).

Definition resolve_state (u : Listing (Z * string)) (db : Table) (state_name : string)
  : option (Z * string) :=
  hd_error (state_matches u state_name db).

(** ** [GET /state-locations] *)

(** [fetch_names(level_name)]: [SELECT DISTINCT name ... ORDER BY name] *)
Definition fetch_names (db : Table) (state_code : Z) (level_name : string) : list string :=
  order_by (fun s => s)
    (distinct (map name
       (filter (fun r => (sql_norm (level r) =? level_name)%string
                         && (state r =? state_code)) db))).

Definition names_json (l : list string) : json := JList (map JStr l).

Definition get_state_locations (u : Listing (Z * string)) (db : Table) (state_arg : string)
  : response :=
  let state_name := lower (strip state_arg) in
  except_Exception
    (match resolve_state u db state_name with
     | None => Err (HTTPException 404 (Text "State not found"))
     | Some meta_row =>
         let state_code := fst meta_row in
         let districts := fetch_names db state_code "district" in
         let subdistricts := fetch_names db state_code "sub-district" in
         let towns := fetch_names db state_code "town" in
         let villages := fetch_names db state_code "village" in
         Ok (JObj [("name", JStr (snd meta_row)); ("state", JInt state_code);
                   ("districts", names_json districts);
                   ("subdistricts", names_json subdistricts);
                   ("towns", names_json towns);
                   ("villages", names_json villages)])
     end).

(** ** [GET /state-location-hierarchy] *)

(** [WHERE state = $1 AND TRIM(LOWER(level)) IN ('town', 'village')] *)
Definition fetch_places (db : Table) (state_code : Z) : list FactRow :=
  filter (fun r => (state r =? state_code)
                   && mem (sql_norm (level r)) ["town"; "village"]) db.

(** [defaultdict(lambda: {"towns": [], "villages": []})] *)
Definition new_places : odict string (list string) := [("towns", []); ("villages", [])].

Definition place_map_get (key : Z * Z) (place_map : odict (Z * Z) (odict string (list string)))
  : odict string (list string) :=
  match od_get key place_map with Some e => e | None => new_places end.

(** Loop body of [for p in places] *)
Definition place_row (place_map : odict (Z * Z) (odict string (list string))) (p : FactRow)
  : odict (Z * Z) (odict string (list string)) :=
  let key := (district p, subdistt p) in
  let entry := place_map_get key place_map in
  if (lower (level p) =? "town")%string
  then od_set key (od_update "towns" (fun l => (l ++ [name p])%list) entry) place_map
  else od_set key (od_update "villages" (fun l => (l ++ [name p])%list) entry) place_map.

Definition place_map_of (places : list FactRow) : odict (Z * Z) (odict string (list string)) :=
  fold_left place_row places [].

(** The bucket of a parent key, as the handler reads it back. *)
Definition bucket (b : string) (key : Z * Z)
    (place_map : odict (Z * Z) (odict string (list string))) : list string :=
  match od_get b (place_map_get key place_map) with Some l => l | None => [] end.

(** [SELECT DISTINCT subdistt, district, name ... level = 'sub-district'],
    without [ORDER BY] *)
Definition fetch_subdistricts (u : Listing (Z * Z * string)) (db : Table) (state_code : Z)
  : list (Z * Z * string) :=
  select_distinct u
    (map (fun r => (subdistt r, district r, name r))
       (filter (fun r => (state r =? state_code)
                         && (sql_norm (level r) =? "sub-district")%string) db)).

(** [SELECT DISTINCT district, name ... level = 'district' ORDER BY name]:
    sorted by name; districts of one name come as the store lists them. *)
Definition fetch_districts (u : Listing (Z * string)) (db : Table) (state_code : Z)
  : list (Z * string) :=
  order_by snd
    (select_distinct u
       (map (fun r => (district r, name r))
          (filter (fun r => (state r =? state_code)
                            && (sql_norm (level r) =? "district")%string) db))).

(** Loop body of [for sub in subdistricts] *)
Definition sub_row (include_places : bool)
    (place_map : odict (Z * Z) (odict string (list string)))
    (sub_map : odict Z (list json)) (sub : Z * Z * string) : odict Z (list json) :=
  let '(sub_subdistt, sub_district, sub_name) := sub in
  let key := sub_district in
  let sub_key := (sub_district, sub_subdistt) in
  let obj :=
    ([("name", JStr sub_name)] ++
     (if include_places
      then [("towns", names_json (bucket "towns" sub_key place_map));
            ("villages", names_json (bucket "villages" sub_key place_map))]
      else []))%list in
  let old := match od_get key sub_map with Some l => l | None => [] end in
  od_set key (old ++ [JObj obj])%list sub_map.

Definition get_location_hierarchy (us ud : Listing (Z * string))
    (ub : Listing (Z * Z * string)) (db : Table) (state_arg : string)
    (include_subdistricts include_places : bool) : response :=
  except_Exception
    (let state_name := lower (strip state_arg) in
     match resolve_state us db state_name with
     | None => Err (HTTPException 404 (Text "State not found"))
     | Some state_row =>
         let state_code := fst state_row in
         let state_display := snd state_row in
         let districts := fetch_districts ud db state_code in
         let sub_map :=
           if include_subdistricts
           then
             let subdistricts := fetch_subdistricts ub db state_code in
             let place_map :=
               if include_places then place_map_of (fetch_places db state_code) else [] in
             fold_left (sub_row include_places place_map) subdistricts []
           else [] in
         Ok (JObj [("state", JStr state_display);
                   ("districts",
                    JList (map (fun dist =>
                      JObj ([("name", JStr (snd dist))] ++
                            (if include_subdistricts
                             then [("subdistricts",
                                    JList (match od_get (fst dist) sub_map with
                                           | Some l => l
                                           | None => []
                                           end))]
                             else []))%list) districts))])
     end).

(** ** [GET /district-population-breakdown] *)

(** A row of the join of district rows [c] with the matched states [s] *)
Record DistrictRow := {
  dr_district : string; dr_state : string; dr_tru : string;
  dr_total : Z; dr_male : Z; dr_female : Z
}.

Record Query := { text : string; args : list string }.

(** [", ".join(f"${i+1}" for i in range(n))] *)
Definition placeholders (n : nat) : string :=
  join ", " (map (fun i => "$" ++ str_of_int (Z.of_nat i + 1)) (seq 0 n)).

(** [if limit:] on an [Optional[int]] *)
Definition int_truthy (o : option Z) : bool :=
  match o with Some n => negb (n =? 0) | None => false end.

Definition int_text (o : option Z) : string :=
  match o with Some n => str_of_int n | None => "None" end.

Definition district_query (state_values : list string) (tru : option string)
    (limit offset : option Z) : Query :=
  let query :=
    nl ++
    "        SELECT c.name AS district, s.name AS state, c.tru," ++ nl ++
    "               c.tot_p AS total, c.tot_m AS male, c.tot_f AS female" ++ nl ++
    "        FROM census_data c" ++ nl ++
    "        JOIN (" ++ nl ++
    "            SELECT DISTINCT state, name" ++ nl ++
    "            FROM census_data" ++ nl ++
    "            WHERE TRIM(LOWER(level)) = 'state' AND TRIM(LOWER(name)) IN ("
      ++ placeholders (List.length state_values) ++ ")" ++ nl ++
    "        ) s ON c.state = s.state" ++ nl ++
    "        WHERE TRIM(LOWER(c.level)) = 'district'" ++ nl ++
    "    " in
  let values := state_values in
  let '(query, values) :=
    if truthy tru
    then (query ++ " AND TRIM(LOWER(c.tru)) = $"
                ++ str_of_int (Z.of_nat (List.length values) + 1),
          (values ++ [match tru with Some t => lower (strip t) | None => "" end])%list)
    else (query, values) in
  let query := query ++ " ORDER BY s.name, c.name" in
  let query := if int_truthy limit then query ++ " LIMIT " ++ int_text limit else query in
  let query := if int_truthy offset then query ++ " OFFSET " ++ int_text offset else query in
  {| text := query; args := values |}.

(** The join of the district rows with the matched states, before it is
    ordered. *)
Definition district_join (db : Table) (state_values : list string) (tru_value : option string)
  : list DistrictRow :=
  let s := distinct (map (fun r => (state r, name r))
                         (filter (fun r => (sql_norm (level r) =? "state")%string
                                           && mem (sql_norm (name r)) state_values) db)) in
  flat_map (fun c =>
    if (sql_norm (level c) =? "district")%string
       && match tru_value with
          | Some t => (sql_norm (tru c) =? t)%string
          | None => true
          end
    then map (fun sn => {| dr_district := name c; dr_state := snd sn; dr_tru := tru c;
                           dr_total := tot_p c; dr_male := tot_m c; dr_female := tot_f c |})
             (filter (fun sn => fst sn =? state c) s)
    else []) db.

(** The largest [bigint] of the store. *)
Definition max_bigint : Z := 9223372036854775807.

(** A [LIMIT] or [OFFSET] written into the query text is read by the store
    as a [bigint]. *)
Definition fits_bigint (o : option Z) : bool :=
  match o with
  | Some n => (- max_bigint - 1 <=? n) && (n <=? max_bigint)
  | None => true
  end.

(** [LIMIT n] and [OFFSET n] on the rows of a result, for [n >= 0]. *)
Definition sql_limit {A} (n : Z) (l : list A) : list A :=
  firstn (Z.to_nat (Z.min n (Z.of_nat (List.length l)))) l.

Definition sql_offset {A} (n : Z) (l : list A) : list A :=
  skipn (Z.to_nat (Z.min n (Z.of_nat (List.length l)))) l.

(** What the store answers: the join, ordered by state name then district
    name (rows equal in both come as the store lists them), then [OFFSET]
    and [LIMIT]; a [LIMIT] or [OFFSET] that is no [bigint], or is negative, is
    an error of the store. *)
Definition fetch_districts_page (u : Listing DistrictRow) (db : Table)
    (state_values : list string) (tru_value : option string) (limit offset : option Z)
  : result (list DistrictRow) :=
  let rows :=
    order_by dr_state
      (order_by dr_district (listed u (district_join db state_values tru_value))) in
  let lim := if int_truthy limit then limit else None in
  let off := if int_truthy offset then offset else None in
  if negb (fits_bigint off && fits_bigint lim)
  then Err (PostgresError "bigint out of range")
  else
  match off, lim with
  | Some o, _ =>
      if o <? 0 then Err (PostgresError "OFFSET must not be negative")
      else match lim with
           | Some l => if l <? 0 then Err (PostgresError "LIMIT must not be negative")
                       else Ok (sql_limit l (sql_offset o rows))
           | None => Ok (sql_offset o rows)
           end
  | None, Some l =>
      if l <? 0 then Err (PostgresError "LIMIT must not be negative")
      else Ok (sql_limit l rows)
  | None, None => Ok rows
  end.

(** Loop body: [grouped_states[state][district][tru_key] = {...}] on a
    [defaultdict(lambda: defaultdict(dict))] *)
Definition district_row (grouped_states : odict string (odict string (odict string json)))
    (row : DistrictRow) : odict string (odict string (odict string json)) :=
  let st := dr_state row in
  let dist := dr_district row in
  let tru_key := lower (dr_tru row) in
  let districts := match od_get st grouped_states with Some d => d | None => [] end in
  let tru_data := match od_get dist districts with Some d => d | None => [] end in
  od_set st
    (od_set dist
       (od_set tru_key (block (dr_total row) (dr_male row) (dr_female row)) tru_data)
       districts)
    grouped_states.

Definition district_result (rows : list DistrictRow) : json :=
  JList (map (fun sd =>
          JObj [("state", JStr (fst sd));
                ("districts",
                 JList (map (fun dt => JObj [("name", JStr (fst dt));
                                             ("population", JObj (snd dt))])
                            (snd sd)))])
        (fold_left district_row rows [])).

Definition get_district_population_breakdown (u : Listing DistrictRow) (db : Table)
    (states : string) (tru : option string) (limit offset : option Z) : response :=
  if tru_invalid tru then Raise (HTTPException 400 (Text "Invalid tru value"))
  else
    let state_values := name_list states in
    match state_values with
    | [] => Raise (HTTPException 400 (Text "No valid state names provided."))
    | _ =>
        let tru_value :=
          match tru with
          | Some t => if nonempty t then Some (lower (strip t)) else None
          | None => None
          end in
        except_Exception
          (rows <- fetch_districts_page u db state_values tru_value limit offset ;;
           Ok (district_result rows))
    end.

(** ** [GET /states] *)

(** The connection, for the two queries of this handler: the store's answer
    to a query text.  A record fetched by the page query is given by the
    fact row it was read from; it carries the columns of the select list. *)
Record Connection := {
  fetch : string -> result (list FactRow);
  fetch_count : string -> string -> result (list (Z * Z))
}.

Definition base_columns : list string := ["state"; "name"; "level"].

Definition count_fields : odict string (string * string) :=
  [("district_count", ("district", "district"));
   ("subdistrict_count", ("subdistt", "sub-district"));
   ("village_count", ("town_village", "village"));
   ("town_count", ("town_village", "town"))].

Definition allowed_fields : list string := (base_columns ++ od_keys count_fields)%list.

(** [[f.strip() for f in fields.split(",") if f.strip() in allowed_fields]] *)
Definition selected_of (fields : string) : list string :=
  map strip (filter (fun f => mem (strip f) allowed_fields) (split "," fields)).

(** [x or default] on an optional string *)
Definition or_default (o : option string) (d : string) : string :=
  match o with Some s => if nonempty s then s else d | None => d end.

Definition base_query (base_field_str : string) (sort_by sort_order : option string)
    (state_code : option Z) (limit offset : Z) : string :=
  nl ++
  "        SELECT * FROM (" ++ nl ++
  "            SELECT DISTINCT ON (state) " ++ base_field_str ++ nl ++
  "            FROM census_data" ++ nl ++
  "            WHERE TRIM(LOWER(level)) = 'state'" ++ nl ++
  "            ORDER BY state, " ++ or_default sort_by "state" ++ " "
    ++ upper (or_default sort_order "asc") ++ nl ++
  "        ) AS sorted_states" ++ nl ++
  "        " ++ match state_code with
                | Some c => "WHERE state = " ++ str_of_int c
                | None => ""
                end ++ nl ++
  "        ORDER BY " ++ or_default sort_by "state" ++ " "
    ++ upper (or_default sort_order "asc") ++ nl ++
  "        LIMIT " ++ str_of_int limit ++ " OFFSET " ++ str_of_int offset ++ nl ++
  "    ".

Definition count_query (code_column : string) : string :=
  nl ++
  "                    SELECT state, COUNT(DISTINCT " ++ code_column ++ ") AS count" ++ nl ++
  "                    FROM census_data" ++ nl ++
  "                    WHERE TRIM(LOWER(level)) = $1" ++ nl ++
  "                    GROUP BY state" ++ nl ++
  "                ".

(** [dict(r)] for a record with the columns [cols] *)
Definition record_dict (cols : list string) (r : FactRow) : odict string json :=
  fold_left (fun d c => od_set c (column c r) d) cols [].

(** Loop body of [for row in rows] in the count batch *)
Definition count_row (field : string) (counts_by_state : odict Z (odict string json))
    (row : Z * Z) : odict Z (odict string json) :=
  let st_code := fst row in
  let old := match od_get st_code counts_by_state with Some d => d | None => [] end in
  od_set st_code (od_set field (JInt (snd row)) old) counts_by_state.

(** Loop body of [for field in selected_counts] *)
Definition count_field (conn : Connection) (counts_by_state : odict Z (odict string json))
    (field : string) : result (odict Z (odict string json)) :=
  match od_get field count_fields with
  | None => Err (KeyError field)
  | Some (code_column, level_name) =>
      rows <- fetch_count conn (count_query code_column) (lower level_name) ;;
      Ok (fold_left (count_row field) rows counts_by_state)
  end.

(** Loop body of [for result in results]: [st_code = result["state"]] then
    [result.update(counts_by_state.get(st_code, {}))] *)
Definition merge_counts (counts_by_state : odict Z (odict string json))
    (res : odict string json) : result (odict string json) :=
  match od_get "state" res with
  | None => Err (KeyError "state")
  | Some st_code =>
      let extra :=
        match st_code with
        | JInt c => match od_get c counts_by_state with Some d => d | None => [] end
        | _ => []
        end in
      Ok (od_merge res extra)
  end.

Definition sort_by_literal : list string :=
  ["state"; "name"; "level"; "district_count"; "subdistrict_count"; "town_count";
   "village_count"].

(** Checks the framework makes from the declared parameters
    ([Literal[...]], [ge=1, le=1000], [ge=0]) before the handler runs. *)
Definition validate_states_request (sort_by sort_order : option string) (limit offset : Z)
  : option exc :=
  if match sort_by with Some s => negb (mem s sort_by_literal) | None => false end
  then Some (RequestValidationError "sort_by")
  else if match sort_order with Some s => negb (mem s ["asc"; "desc"]) | None => false end
  then Some (RequestValidationError "sort_order")
  else if negb ((1 <=? limit) && (limit <=? 1000))
  then Some (RequestValidationError "limit")
  else if negb (0 <=? offset)
  then Some (RequestValidationError "offset")
  else None.

Definition list_states (conn : Connection) (fields sort_by sort_order : option string)
    (state_code : option Z) (limit offset : Z) : response :=
  match validate_states_request sort_by sort_order limit offset with
  | Some e => Raise e
  | None =>
      let selected :=
        if truthy fields
        then match fields with Some f => selected_of f | None => [] end
        else ["state"; "name"] in
      match selected with
      | [] => Raise (HTTPException 400 (Text "No valid fields selected"))
      | selected_fields =>
          let selected_base := filter (fun f => mem f base_columns) selected_fields in
          let selected_counts := filter (fun f => od_mem f count_fields) selected_fields in
          let base_field_str := join ", " selected_base in
          let q := base_query base_field_str sort_by sort_order state_code limit offset in
          except_Exception
            (base_rows <- fetch conn q ;;
             let results := map (record_dict selected_base) base_rows in
             counts_by_state <- foldM (count_field conn) selected_counts [] ;;
             results <- mapM (merge_counts counts_by_state) results ;;
             Ok (JList (map JObj results)))
      end
  end.

(** ** Sample store contents *)

(** A fact row whose metric blocks all hold the counts [p], [m], [f] and whose
    household count is [hh]. *)
Definition fact (lvl : string) (st dist sub : Z) (nm t : string) (hh p m f : Z) : FactRow :=
  {| state := st; district := dist; subdistt := sub; town_village := 0;
     level := lvl; name := nm; tru := t;
     no_hh := hh; tot_p := p; tot_m := m; tot_f := f;
     p_06 := p; m_06 := m; f_06 := f;
     p_sc := p; m_sc := m; f_sc := f;
     p_st := p; m_st := m; f_st := f;
     p_lit := p; m_lit := m; f_lit := f;
     tot_work_p := p; tot_work_m := m; tot_work_f := f;
     non_work_p := p; non_work_m := m; non_work_f := f |}.

(** Karnataka with its rural and urban rows (the scenario of the design notes). *)
Definition karnataka_rural : FactRow := fact "STATE" 1 0 0 "Karnataka" "Rural" 40 100 60 40.
Definition karnataka_urban : FactRow := fact "STATE" 1 0 0 "Karnataka" "Urban" 20 50 30 20.
Definition karnataka : Table := [karnataka_rural; karnataka_urban].

(** ** Grouping loops

    Every grouping loop of the handlers assigns, at the key of the row, a
    value computed from the row and from what the key held before. *)

Section UpsertDef.
Context {R K Ent : Type} `{KeyEq K}.
Variable key : R -> K.
Variable f : R -> option Ent -> Ent.

Definition upsert (g : odict K Ent) (r : R) : odict K Ent :=
od_set (key r) (f r (od_get (key r) g)) g.

(** What one key holds after the loop: the rows of that key, folded in order. *)
Definition at_key (k : K) (o : option Ent) (r : R) : option Ent :=
if key_eq_dec (key r) k then Some (f r o) else o.

End UpsertDef.

(** ** What the grouping loops compute, per key *)

(** The lowercase TRU label of a row: [row["tru"].lower()] *)
Definition ltru (r : FactRow) : string := lower (tru r).

(** The dictionary a group of rows leaves under a metric when every row
    writes [val r] at its TRU label. *)
Definition tru_dict (val : FactRow -> json) (G : list FactRow) : odict string json :=
  fold_left (fun d r => od_set (ltru r) (val r) d) G [].

(** The rows of a list that have a given grouping key, in order. *)
Definition group_of {K} `{KeyEq K} (key : FactRow -> K) (k : K) (rows : list FactRow)
  : list FactRow :=
  filter (fun r => if key_eq_dec (key r) k then true else false) rows.

(** The last row of a group that carries a TRU label. *)
Definition last_with_label (l : string) (G : list FactRow) : option FactRow :=
  find (fun r => (ltru r =? l)%string) (rev G).

(** The value each loop body assigns at the key of its row, from what the
    key held before ([None] for a new key). *)
Definition gender_entry (row : FactRow) (o : option (odict string json)) : odict string json :=
  let entry := match o with Some e => e | None => [("population", JObj [])] end in
  let entry :=
    if od_mem "name" entry then entry
    else od_set "state" (JInt (state row)) (od_set "name" (JStr (name row)) entry) in
  od_update "population" (jset (ltru row) (block (tot_p row) (tot_m row) (tot_f row))) entry.

Definition workers_entry (row : FactRow) (o : option (odict string json)) : odict string json :=
  od_update "workers"
    (jset (ltru row) (block (tot_work_p row) (tot_work_m row) (tot_work_f row)))
    (match o with
     | Some e => e
     | None => [("name", JStr (name row)); ("state", JInt (state row)); ("workers", JObj [])]
     end).

Definition caste_entry (row : FactRow) (o : option (odict string json)) : odict string json :=
  od_update "caste_population" (jset (ltru row) (caste_block row))
    (match o with
     | Some e => e
     | None => [("name", JStr (name row)); ("state", JInt (state row));
                ("caste_population", JObj [])]
     end).

Definition non_workers_key (row : FactRow) : string :=
  str_of_int (state row) ++ "_" ++ name row.

Definition non_workers_entry (row : FactRow) (o : option (odict string json))
  : odict string json :=
  od_update "non_workers"
    (jset (ltru row) (block (non_work_p row) (non_work_m row) (non_work_f row)))
    (match o with
     | Some e => e
     | None => [("name", JStr (name row)); ("state", JInt (state row));
                ("non_workers", JObj [])]
     end).

Definition households_seed (req_tru : option string) (row : FactRow) : odict string json :=
  [("name", JStr (name row)); ("state", JInt (state row));
   ("households", if truthy req_tru then JInt (no_hh row) else JObj []);
   ("population", block (tot_p row) (tot_m row) (tot_f row));
   ("under_6", block (p_06 row) (m_06 row) (f_06 row))].

Definition households_entry (req_tru : option string) (row : FactRow)
    (o : option (odict string json)) : odict string json :=
  let e := match o with Some e => e | None => households_seed req_tru row end in
  if truthy req_tru then e
  else od_update "households" (jset (ltru row) (JInt (no_hh row))) e.

(** The emitted households object of a group whose first fetched row is [r0]
    and whose per-TRU household counts are [h]. *)
Definition households_obj (r0 : FactRow) (h : json) : odict string json :=
  [("name", JStr (name r0)); ("state", JInt (state r0));
   ("households", h);
   ("population", block (tot_p r0) (tot_m r0) (tot_f r0));
   ("under_6", block (p_06 r0) (m_06 r0) (f_06 r0))].

Definition literacy_key (row : FactRow) : Z * string := (state row, name row).

Definition literacy_entry (req_tru : option string) (row : FactRow) (o : option json) : json :=
  let cur := match o with Some e => e | None => JObj [] end in
  let literacy_data := block (p_lit row) (m_lit row) (f_lit row) in
  match req_tru with
  | None => if nonempty (ltru row) then jset (ltru row) literacy_data cur else literacy_data
  | Some _ => literacy_data
  end.

(** The value a row writes at its TRU label, per endpoint. *)
Definition gender_val (r : FactRow) : json := block (tot_p r) (tot_m r) (tot_f r).
Definition workers_val (r : FactRow) : json :=
  block (tot_work_p r) (tot_work_m r) (tot_work_f r).
Definition non_workers_val (r : FactRow) : json :=
  block (non_work_p r) (non_work_m r) (non_work_f r).
Definition literacy_val (r : FactRow) : json := block (p_lit r) (m_lit r) (f_lit r).
Definition households_val (r : FactRow) : json := JInt (no_hh r).
Definition population_val (r : FactRow) : json := JInt (tot_p r).

(** The emitted object of a group whose first fetched row is [r0] and whose
    metric dictionary is [d], per endpoint. *)
Definition gender_obj (r0 : FactRow) (d : odict string json) : odict string json :=
  [("population", JObj d); ("name", JStr (name r0)); ("state", JInt (state r0))].
Definition workers_obj (r0 : FactRow) (d : odict string json) : odict string json :=
  [("name", JStr (name r0)); ("state", JInt (state r0)); ("workers", JObj d)].
Definition caste_obj (r0 : FactRow) (d : odict string json) : odict string json :=
  [("name", JStr (name r0)); ("state", JInt (state r0)); ("caste_population", JObj d)].
Definition non_workers_obj (r0 : FactRow) (d : odict string json) : odict string json :=
  [("name", JStr (name r0)); ("state", JInt (state r0)); ("non_workers", JObj d)].
Definition households_nested (r0 : FactRow) (d : odict string json) : odict string json :=
  households_obj r0 (JObj d).

(** A connection whose page query returns the given fact rows and whose
    count queries return the given (state, count) rows. *)
Definition conn_of (rows : list FactRow) (counts : list (Z * Z)) : Connection :=
  {| fetch := fun _ => Ok rows; fetch_count := fun _ _ => Ok counts |}.

(** The objects of a successful response. *)
Definition objects (r : response) : list json :=
  match r with JSONResponse (JList l) => l | _ => [] end.

(** Two state-level rows whose names normalise to "goa", the higher code
    stored first. *)
Definition two_goas : Table :=
  [fact "STATE" 2 0 0 "Goa" "Total" 10 30 20 10;
   fact "STATE" 1 0 0 "goa" "Total" 10 30 20 10].

(** Two stores that differ only in how they list rows whose order a query
    leaves open: as scanned, and in the reverse of that. *)
Definition as_scanned {A : Type} : Listing A :=
  {| listed := fun l => l; listed_perm := fun l => Permutation_refl l |}.

Definition backwards {A : Type} : Listing A :=
  {| listed := fun l => rev l; listed_perm := fun l => Permutation_sym (Permutation_rev l) |}.






(** A village whose level is stored with a trailing space. *)
Definition madikeri : FactRow := fact "Village " 1 5 7 "Madikeri" "Total" 10 30 20 10.

(** "A row with any other level value is dropped from both buckets." *)
Definition other_levels_dropped (places : list FactRow) : Prop :=
  forall p, In p places ->
    lower (level p) <> "town" -> lower (level p) <> "village" ->
    ~ In (name p) (bucket "towns" (district p, subdistt p) (place_map_of places)) /\
    ~ In (name p) (bucket "villages" (district p, subdistt p) (place_map_of places)).

Definition place_key (p : FactRow) : Z * Z := (district p, subdistt p).

Definition place_entry (p : FactRow) (o : option (odict string (list string)))
  : odict string (list string) :=
  od_update (if (lower (level p) =? "town")%string then "towns" else "villages")
            (fun l => (l ++ [name p])%list)
            (match o with Some e => e | None => new_places end).

Definition is_town (p : FactRow) : bool := (lower (level p) =? "town")%string.

(** The rows of a parent key, in fetch order. *)
Definition places_at (key : Z * Z) (places : list FactRow) : list FactRow :=
  filter (fun p => if key_eq_dec (place_key p) key then true else false) places.

(** "Limit and offset are bound as parameters, within server-side bounds":
    the query text is the same whatever their values, and a served request
    has its limit in 1..1000 and a non-negative offset. *)
Definition limit_offset_parameterized : Prop :=
  (forall state_values tru limit offset limit' offset',
     text (district_query state_values tru limit offset) =
     text (district_query state_values tru limit' offset')) /\
  (forall u db states tru limit offset n,
     status (get_district_population_breakdown u db states tru limit offset) = 200 ->
     limit = Some n -> 1 <= n <= 1000).

(** The text of the page query of [list_states] up to its last line. *)
Definition base_query_head (base_field_str : string) (sort_by sort_order : option string)
    (state_code : option Z) : string :=
  nl ++
  "        SELECT * FROM (" ++ nl ++
  "            SELECT DISTINCT ON (state) " ++ base_field_str ++ nl ++
  "            FROM census_data" ++ nl ++
  "            WHERE TRIM(LOWER(level)) = 'state'" ++ nl ++
  "            ORDER BY state, " ++ or_default sort_by "state" ++ " "
    ++ upper (or_default sort_order "asc") ++ nl ++
  "        ) AS sorted_states" ++ nl ++
  "        " ++ match state_code with
                | Some c => "WHERE state = " ++ str_of_int c
                | None => ""
                end ++ nl ++
  "        ORDER BY " ++ or_default sort_by "state" ++ " "
    ++ upper (or_default sort_order "asc") ++ nl.

(** The clauses [district_query] appends for its limit and offset. *)
Definition limit_clause (limit : option Z) : string :=
  if int_truthy limit then " LIMIT " ++ int_text limit else "".
Definition offset_clause (offset : option Z) : string :=
  if int_truthy offset then " OFFSET " ++ int_text offset else "".

(** [l1] is [l2] with some elements left out, the order kept. *)
Inductive subseq {A : Type} : list A -> list A -> Prop :=
| subseq_nil : subseq [] []
| subseq_skip (x : A) (l1 l2 : list A) : subseq l1 l2 -> subseq l1 (x :: l2)
| subseq_take (x : A) (l1 l2 : list A) : subseq l1 l2 -> subseq (x :: l1) (x :: l2).

(** The caller's base columns and count fields, in the caller's order. *)
Definition selected_base_of (fields : string) : list string :=
  filter (fun f => mem f base_columns) (selected_of fields).
Definition selected_counts_of (fields : string) : list string :=
  filter (fun f => od_mem f count_fields) (selected_of fields).

(** "Two requests whose field lists are permutations of each other produce
    outputs with identical key order." *)
Definition key_order_ignores_request_order : Prop :=
  forall conn fields1 fields2,
    Permutation (split "," fields1) (split "," fields2) ->
    map jkeys (objects (list_states conn (Some fields1) None None None 100 0)) =
    map jkeys (objects (list_states conn (Some fields2) None None None 100 0)).

(** Invariants of the count batch: the fields a state has been given form a
    subsequence of the fields processed so far. *)
Definition counts_inv (processed : list string) (counts : odict Z (odict string json)) : Prop :=
  forall st d, od_get st counts = Some d -> subseq (od_keys d) processed.

Definition counts_inv_mid (processed : list string) (field : string)
    (counts : odict Z (odict string json)) : Prop :=
  forall st d, od_get st counts = Some d ->
    subseq (od_keys d) processed \/
    exists ks, od_keys d = (ks ++ [field])%list /\ subseq ks processed.

(** The uniqueness invariant of the fact store on fetched state rows: at most
    one row per state code and TRU label. *)
Definition unique_rows (rows : list FactRow) : Prop :=
  NoDup (map (fun r => (state r, ltru r)) rows).

(** Rows of one state code carry one display name. *)
Definition names_agree (rows : list FactRow) : Prop :=
  forall r1 r2, In r1 rows -> In r2 rows -> state r1 = state r2 -> name r1 = name r2.

(** "Grouping any permutation of the rows yields the same final mapping." *)
Definition grouping_ignores_order : Prop :=
  forall rows rows',
    unique_rows rows -> Permutation rows rows' ->
    grouped_eq (gender_grouped rows') (gender_grouped rows) = true.

(** Karnataka's rural and urban rows, the display name spelt in two ways
    (both match the name filter "karnataka"). *)
Definition karnataka_two_spellings : list FactRow :=
  [fact "STATE" 1 0 0 "Karnataka" "Rural" 40 100 60 40;
   fact "STATE" 1 0 0 "KARNATAKA" "Urban" 20 50 30 20].

(** ** Shapes of the emitted objects *)

(** The TRU labels of the store are Total, Rural and Urban, in any letter
    case. *)
Definition labelled (db : Table) : Prop :=
  forall r, In r db -> In (ltru r) allowed_tru.

(** The object nests its metric one level deeper.  Its group is [r0 :: grp]:
    all the fetched rows that have the grouping key of [r0], in fetch order.
    The object carries the state code of [r0], has no "tru" key, and holds
    under [metric] a dictionary [d] whose keys are the lowercase TRU labels
    of the rows of the group, each once, in fetch order, all of them among
    total, rural and urban; under a label, [d] holds the value of the last
    row of the group with that label. *)
Definition nested_under {K} `{KeyEq K} (key : FactRow -> K) (metric : string)
    (val : FactRow -> json) (rows : list FactRow) (o : json) : Prop :=
  exists r0 grp d,
    group_of key (key r0) rows = r0 :: grp /\
    jget "state" o = Some (JInt (state r0)) /\
    jget "tru" o = None /\
    jget metric o = Some (JObj d) /\
    od_keys d = distinct (map ltru (r0 :: grp)) /\
    (forall l, In l (od_keys d) -> In l allowed_tru) /\
    (forall l, od_get l d = option_map val (last_with_label l (r0 :: grp))).

(** The households object with the count written flatly, and no TRU key: the
    name, code, count and blocks of [r0], the first fetched row of its state
    code. *)
Definition flat_households (rows : list FactRow) (o : json) : Prop :=
  exists r0 grp,
    group_of state (state r0) rows = r0 :: grp /\
    o = JObj [("name", JStr (name r0)); ("state", JInt (state r0));
              ("households", JInt (no_hh r0));
              ("population", block (tot_p r0) (tot_m r0) (tot_f r0));
              ("under_6", block (p_06 r0) (m_06 r0) (f_06 r0))].

(** The literacy object with the block written flatly, next to a "tru" key
    that repeats the request's value, capitalized: the block is that of the
    last fetched row of the (state, name) group [r0 :: grp]. *)
Definition flat_literacy (t : string) (rows : list FactRow) (o : json) : Prop :=
  exists r0 grp,
    group_of literacy_key (literacy_key r0) rows = r0 :: grp /\
    o = JObj [("name", JStr (name r0)); ("state", JInt (state r0));
              ("tru", JStr (capitalize t));
              ("literacy", literacy_val (last grp r0))].

(** The object of the population endpoint when the population is not asked
    for: the name and code of a fetched row, and no metric at all. *)
Definition without_metric (rows : list FactRow) (o : json) : Prop :=
  exists r, In r rows /\
    o = JObj [("name", JStr (name r)); ("state", JInt (state r))].

(** The response is a non-empty list of objects, each of the given shape. *)
Definition emits (P : json -> Prop) (resp : response) : Prop :=
  exists objs, resp = JSONResponse (JList objs) /\ objs <> [] /\ Forall P objs.

(** "With tru fixed, every emitted object carries its metric block flatly":
    the metric of the object is the block of a stored row. *)
Definition flat_when_fixed (db : Table) (states t : string) : Prop :=
  forall o, In o (objects (get_state_gender_population db states (Some t))) ->
  exists r, In r db /\ jget "population" o = Some (gender_val r).

(** The loop body of the literacy handler on rows with a non-empty label,
    [tru] unset. *)
Definition literacy_nested_entry (row : FactRow) (o : option json) : json :=
  jset (ltru row) (literacy_val row) (match o with Some e => e | None => JObj [] end).

(** The body of [population_row] for one entry of [results]. *)
Definition population_step (row : FactRow) (st : odict string json) : odict string json :=
  match od_get "state" st with
  | Some (JInt c) =>
      if c =? state row
      then od_update "population" (jset (lower (tru row)) (JInt (tot_p row))) st
      else st
  | _ => st
  end.

Definition population_obj (nm : string * Z) (d : odict string json) : odict string json :=
  [("name", JStr (fst nm)); ("state", JInt (snd nm)); ("population", JObj d)].

(** No character of the string is one that [strip] removes. *)
Fixpoint no_space (s : string) : bool :=
  match s with
  | EmptyString => true
  | String c r => negb (isspace c) && no_space r
  end.

(** Two spellings of the [states] argument get the same answer from every
    endpoint that takes it, and two spellings of a single state name from the
    two endpoints that resolve one. *)
Definition same_answers (s1 s2 : string) : Prop :=
  forall (up : Listing (string * Z)) (us ud : Listing (Z * string))
         (ub : Listing (Z * Z * string)) (uj : Listing DistrictRow)
         (db : Table) (tru : option string) (include_population : bool)
         (limit offset : option Z) (include_subdistricts include_places : bool),
    get_state_population up db s1 tru include_population =
      get_state_population up db s2 tru include_population /\
    get_state_gender_population db s1 tru = get_state_gender_population db s2 tru /\
    get_state_literacy db s1 tru = get_state_literacy db s2 tru /\
    get_state_workers db s1 tru = get_state_workers db s2 tru /\
    get_state_caste_population db s1 tru = get_state_caste_population db s2 tru /\
    get_state_non_workers db s1 tru = get_state_non_workers db s2 tru /\
    get_state_households db s1 tru = get_state_households db s2 tru /\
    get_district_population_breakdown uj db s1 tru limit offset =
      get_district_population_breakdown uj db s2 tru limit offset /\
    get_state_locations us db s1 = get_state_locations us db s2 /\
    get_location_hierarchy us ud ub db s1 include_subdistricts include_places =
      get_location_hierarchy us ud ub db s2 include_subdistricts include_places.

(** Two spellings of the [tru] argument get the same answer from every
    endpoint that takes it. *)
Definition same_tru_answers (t1 t2 : string) : Prop :=
  forall (up : Listing (string * Z)) (uj : Listing DistrictRow)
         (db : Table) (states : string) (include_population : bool) (limit offset : option Z),
    get_state_population up db states (Some t1) include_population =
      get_state_population up db states (Some t2) include_population /\
    get_state_gender_population db states (Some t1) =
      get_state_gender_population db states (Some t2) /\
    get_state_literacy db states (Some t1) = get_state_literacy db states (Some t2) /\
    get_state_workers db states (Some t1) = get_state_workers db states (Some t2) /\
    get_state_caste_population db states (Some t1) =
      get_state_caste_population db states (Some t2) /\
    get_state_non_workers db states (Some t1) = get_state_non_workers db states (Some t2) /\
    get_state_households db states (Some t1) = get_state_households db states (Some t2) /\
    get_district_population_breakdown uj db states (Some t1) limit offset =
      get_district_population_breakdown uj db states (Some t2) limit offset.

(** The "state" fields of the emitted objects, in order. *)
Definition state_fields (resp : response) : list (option json) :=
  map (jget "state") (objects resp).

(** The literacy object of a (state, name) group [r0 :: grp] when the block
    is written flatly without a "tru" key: it holds the block of the last
    fetched row of the group. *)
Definition flat_literacy_last (rows : list FactRow) (o : json) : Prop :=
  exists r0 grp,
    group_of literacy_key (literacy_key r0) rows = r0 :: grp /\
    o = JObj [("name", JStr (name r0)); ("state", JInt (state r0));
              ("literacy", literacy_val (last grp r0))].

(** The (name, state) pairs of the rows that match a request, each once, as
    the store lists them. *)
Definition name_state_pairs (u : Listing (string * Z)) (rows : list FactRow)
  : list (string * Z) :=
  select_distinct u (map (fun r => (name r, state r)) rows).

(** ** The hierarchy, level by level *)

Definition sub_district_of (sub : Z * Z * string) : Z := snd (fst sub).

(** The object appended for a sub-district. *)
Definition sub_obj (include_places : bool)
    (place_map : odict (Z * Z) (odict string (list string))) (sub : Z * Z * string) : json :=
  let '(sub_subdistt, sub_district, sub_name) := sub in
  JObj ([("name", JStr sub_name)] ++
        (if include_places
         then [("towns", names_json (bucket "towns" (sub_district, sub_subdistt) place_map));
               ("villages",
                names_json (bucket "villages" (sub_district, sub_subdistt) place_map))]
         else []))%list.

Definition sub_entry (include_places : bool)
    (place_map : odict (Z * Z) (odict string (list string))) (sub : Z * Z * string)
    (o : option (list json)) : list json :=
  (match o with Some l => l | None => [] end ++ [sub_obj include_places place_map sub])%list.

(** The sub-districts of a district code, in fetch order. *)
Definition subs_of (d : Z) (subs : list (Z * Z * string)) : list (Z * Z * string) :=
  filter (fun sub => if key_eq_dec (sub_district_of sub) d then true else false) subs.

(** The place map the handler builds for a state code. *)
Definition places_for (db : Table) (state_code : Z) (include_places : bool)
  : odict (Z * Z) (odict string (list string)) :=
  if include_places then place_map_of (fetch_places db state_code) else [].

(** ** Application start-up ([lifespan]) *)

Definition max_retries : nat := 5.
Definition delay : Z := 3.

(** How start-up ends: the pool was created at some attempt, or the last
    attempt's exception is re-raised; [slept] is the total of the
    [asyncio.sleep(delay)] calls made. *)
Inductive startup : Type :=
| Started (attempt : nat) (slept : Z)
| StartupFailed (e : exc) (slept : Z).

(** The [for attempt in range(1, max_retries + 1)] loop; [create_pool n] is
    what [asyncpg.create_pool(DB_URL)] does at attempt [n].  [None]: the loop
    ran out without connecting or raising. *)
Fixpoint lifespan_loop (create_pool : nat -> result unit) (attempts : list nat) (slept : Z)
  : option startup :=
  match attempts with
  | [] => None
  | attempt :: rest =>
      match create_pool attempt with
      | Ok _ => Some (Started attempt slept)
      | Err e =>
          if Nat.eqb attempt max_retries then Some (StartupFailed e slept)
          else lifespan_loop create_pool rest (slept + delay)
      end
  end.

Definition lifespan (create_pool : nat -> result unit) : option startup :=
  lifespan_loop create_pool (seq 1 max_retries) 0.

(** ** Name lists of the locations answer *)

(** Adjacent elements are in ascending byte order. *)
Fixpoint ascending (l : list string) : bool :=
  match l with
  | x :: ((y :: _) as t) => String.leb x y && ascending t
  | _ => true
  end.

(** ** The bulk loader ([insert_functions.py]) *)

(** A cell of an external row: a number or a text. *)
Inductive cell : Type :=
| CInt (n : Z)
| CStr (s : string).

(** A value bound to a placeholder. *)
Inductive sqlval : Type :=
| SInt (n : Z)
| SText (s : string).

(** What an insert function can raise before it reaches the store:
    [row[key]] on a missing key, [int(s)] on a text that is not a number. *)
Inductive load_error : Type :=
| LoadKeyError (key : string)
| LoadValueError (s : string).

Inductive loaded (A : Type) : Type :=
| Loaded (a : A)
| LoadFailed (e : load_error).
Arguments Loaded {A} a.
Arguments LoadFailed {A} e.

(** An argument of [conn.execute]: [int(row[key])] or [str(row[key])]. *)
Inductive field : Type :=
| IntField (key : string)
| StrField (key : string).

Definition field_key (f : field) : string :=
  match f with IntField k => k | StrField k => k end.

(** An [INSERT] statement: its table, its column list, the numbers of the
    placeholders of its [VALUES] list, and the arguments bound after the
    identifier. *)
Record Statement := {
  st_table : string;
  st_columns : list string;
  st_placeholders : list Z;
  st_fields : list field
}.

Section Loader.
(** [int(s)] on a text (Python's parser is not written out). *)
Variable parse_int : string -> option Z.

Definition bind_field (row : odict string cell) (f : field) : loaded sqlval :=
  match od_get (field_key f) row with
  | None => LoadFailed (LoadKeyError (field_key f))
  | Some c =>
      match f, c with
      | IntField _, CInt n => Loaded (SInt n)
      | IntField _, CStr s =>
          match parse_int s with
          | Some n => Loaded (SInt n)
          | None => LoadFailed (LoadValueError s)
          end
      | StrField _, CInt n => Loaded (SText (str_of_int n))
      | StrField _, CStr s => Loaded (SText s)
      end
  end.

(** The arguments are evaluated from left to right; the first failure is
    raised. *)
Fixpoint bind_fields (row : odict string cell) (fs : list field) : loaded (list sqlval) :=
  match fs with
  | [] => Loaded []
  | f :: rest =>
      match bind_field row f with
      | LoadFailed e => LoadFailed e
      | Loaded v =>
          match bind_fields row rest with
          | LoadFailed e => LoadFailed e
          | Loaded vs => Loaded (v :: vs)
          end
      end
  end.

(** [conn.execute(sql, id, ...)]: the values sent to the store, the
    identifier first. *)
Definition execute_insert (stmt : Statement) (row : odict string cell) (id : Z)
  : loaded (list sqlval) :=
  match bind_fields row (st_fields stmt) with
  | LoadFailed e => LoadFailed e
  | Loaded vs => Loaded (SInt id :: vs)
  end.

End Loader.


(** The statement and arguments of [insert_location_row] *)
Definition insert_location_row_stmt : Statement :=
  {| st_table := "locations";
     st_columns :=
       ["id"; "state_code"; "district_code"; "subdistrict_code"; "town_village_code";
        "ward_code"; "eb_code"; "level"; "name"; "tru"];
     st_placeholders :=
       [1; 2; 3; 4; 5; 6; 7; 8; 9; 10];
     st_fields :=
       [IntField "State"; IntField "District"; IntField "Subdistt";
        IntField "Town/Village"; IntField "Ward"; IntField "EB"; StrField "Level";
        StrField "Name"; StrField "TRU"] |}.

Definition insert_location_row (parse_int : string -> option Z) (row : odict string cell)
    (row_id : Z) : loaded (list sqlval) :=
  execute_insert parse_int insert_location_row_stmt row row_id.

(** The statement and arguments of [insert_households_population_row] *)
Definition insert_households_population_row_stmt : Statement :=
  {| st_table := "households_and_population";
     st_columns :=
       ["location_id"; "no_hh"; "tot_p"; "tot_m"; "tot_f"; "p_06"; "m_06"; "f_06"];
     st_placeholders :=
       [1; 2; 3; 4; 5; 6; 7; 8];
     st_fields :=
       [IntField "No_HH"; IntField "TOT_P"; IntField "TOT_M"; IntField "TOT_F";
        IntField "P_06"; IntField "M_06"; IntField "F_06"] |}.

Definition insert_households_population_row (parse_int : string -> option Z) (row : odict string cell)
    (location_id : Z) : loaded (list sqlval) :=
  execute_insert parse_int insert_households_population_row_stmt row location_id.

(** The statement and arguments of [insert_scheduled_caste_tribe] *)
Definition insert_scheduled_caste_tribe_stmt : Statement :=
  {| st_table := "scheduled_caste_tribe";
     st_columns :=
       ["location_id"; "p_sc"; "m_sc"; "f_sc"; "p_st"; "m_st"; "f_st"];
     st_placeholders :=
       [1; 2; 3; 4; 5; 6; 7];
     st_fields :=
       [IntField "P_SC"; IntField "M_SC"; IntField "F_SC"; IntField "P_ST";
        IntField "M_ST"; IntField "F_ST"] |}.

Definition insert_scheduled_caste_tribe (parse_int : string -> option Z) (row : odict string cell)
    (location_id : Z) : loaded (list sqlval) :=
  execute_insert parse_int insert_scheduled_caste_tribe_stmt row location_id.

(** The statement and arguments of [insert_literacy_row] *)
Definition insert_literacy_row_stmt : Statement :=
  {| st_table := "literacy";
     st_columns :=
       ["location_id"; "p_lit"; "m_lit"; "f_lit"; "p_ill"; "m_ill"; "f_ill"];
     st_placeholders :=
       [1; 2; 3; 4; 5; 6; 7];
     st_fields :=
       [IntField "P_LIT"; IntField "M_LIT"; IntField "F_LIT"; IntField "P_ILL";
        IntField "M_ILL"; IntField "F_ILL"] |}.

Definition insert_literacy_row (parse_int : string -> option Z) (row : odict string cell)
    (location_id : Z) : loaded (list sqlval) :=
  execute_insert parse_int insert_literacy_row_stmt row location_id.

(** The statement and arguments of [insert_workers_total_row] *)
Definition insert_workers_total_row_stmt : Statement :=
  {| st_table := "workers_total";
     st_columns :=
       ["location_id"; "tot_work_p"; "tot_work_m"; "tot_work_f"; "non_work_p";
        "non_work_m"; "non_work_f"];
     st_placeholders :=
       [1; 2; 3; 4; 5; 6; 7];
     st_fields :=
       [IntField "TOT_WORK_P"; IntField "TOT_WORK_M"; IntField "TOT_WORK_F";
        IntField "NON_WORK_P"; IntField "NON_WORK_M"; IntField "NON_WORK_F"] |}.

Definition insert_workers_total_row (parse_int : string -> option Z) (row : odict string cell)
    (location_id : Z) : loaded (list sqlval) :=
  execute_insert parse_int insert_workers_total_row_stmt row location_id.

(** The statement and arguments of [insert_main_workers_row] *)
Definition insert_main_workers_row_stmt : Statement :=
  {| st_table := "main_workers";
     st_columns :=
       ["location_id"; "mainwork_p"; "mainwork_m"; "mainwork_f"; "main_cl_p"; "main_cl_m";
        "main_cl_f"; "main_al_p"; "main_al_m"; "main_al_f"; "main_hh_p"; "main_hh_m";
        "main_hh_f"; "main_ot_p"; "main_ot_m"; "main_ot_f"];
     st_placeholders :=
       [1; 2; 3; 4; 5; 6; 7; 8; 9; 10; 11; 12; 13; 14; 15; 16];
     st_fields :=
       [IntField "MAINWORK_P"; IntField "MAINWORK_M"; IntField "MAINWORK_F";
        IntField "MAIN_CL_P"; IntField "MAIN_CL_M"; IntField "MAIN_CL_F";
        IntField "MAIN_AL_P"; IntField "MAIN_AL_M"; IntField "MAIN_AL_F";
        IntField "MAIN_HH_P"; IntField "MAIN_HH_M"; IntField "MAIN_HH_F";
        IntField "MAIN_OT_P"; IntField "MAIN_OT_M"; IntField "MAIN_OT_F"] |}.

Definition insert_main_workers_row (parse_int : string -> option Z) (row : odict string cell)
    (location_id : Z) : loaded (list sqlval) :=
  execute_insert parse_int insert_main_workers_row_stmt row location_id.

(** The statement and arguments of [insert_marginal_workers_row] *)
Definition insert_marginal_workers_row_stmt : Statement :=
  {| st_table := "marginal_workers";
     st_columns :=
       ["location_id"; "margwork_p"; "margwork_m"; "margwork_f"; "marg_cl_p"; "marg_cl_m";
        "marg_cl_f"; "marg_al_p"; "marg_al_m"; "marg_al_f"; "marg_hh_p"; "marg_hh_m";
        "marg_hh_f"; "marg_ot_p"; "marg_ot_m"; "marg_ot_f"; "margwork_3_6_p";
        "margwork_3_6_m"; "margwork_3_6_f"; "marg_cl_3_6_p"; "marg_cl_3_6_m";
        "marg_cl_3_6_f"; "marg_al_3_6_p"; "marg_al_3_6_m"; "marg_al_3_6_f";
        "marg_hh_3_6_p"; "marg_hh_3_6_m"; "marg_hh_3_6_f"; "marg_ot_3_6_p";
        "marg_ot_3_6_m"; "marg_ot_3_6_f"; "margwork_0_3_p"; "margwork_0_3_m";
        "margwork_0_3_f"; "marg_cl_0_3_p"; "marg_cl_0_3_m"; "marg_cl_0_3_f";
        "marg_al_0_3_p"; "marg_al_0_3_m"; "marg_al_0_3_f"; "marg_hh_0_3_p";
        "marg_hh_0_3_m"; "marg_hh_0_3_f"; "marg_ot_0_3_p"; "marg_ot_0_3_m"; "marg_ot_0_3_f"];
     st_placeholders :=
       [1; 2; 3; 4; 5; 6; 7; 8; 9; 10; 11; 12; 13; 14; 15; 16; 17; 18; 19; 20; 21; 22; 23;
        24; 25; 26; 27; 28; 29; 30; 31; 32; 33; 34; 35; 36; 37; 38; 39; 40; 41; 42; 43; 44;
        45; 46];
     st_fields :=
       [IntField "MARGWORK_P"; IntField "MARGWORK_M"; IntField "MARGWORK_F";
        IntField "MARG_CL_P"; IntField "MARG_CL_M"; IntField "MARG_CL_F";
        IntField "MARG_AL_P"; IntField "MARG_AL_M"; IntField "MARG_AL_F";
        IntField "MARG_HH_P"; IntField "MARG_HH_M"; IntField "MARG_HH_F";
        IntField "MARG_OT_P"; IntField "MARG_OT_M"; IntField "MARG_OT_F";
        IntField "MARGWORK_3_6_P"; IntField "MARGWORK_3_6_M"; IntField "MARGWORK_3_6_F";
        IntField "MARG_CL_3_6_P"; IntField "MARG_CL_3_6_M"; IntField "MARG_CL_3_6_F";
        IntField "MARG_AL_3_6_P"; IntField "MARG_AL_3_6_M"; IntField "MARG_AL_3_6_F";
        IntField "MARG_HH_3_6_P"; IntField "MARG_HH_3_6_M"; IntField "MARG_HH_3_6_F";
        IntField "MARG_OT_3_6_P"; IntField "MARG_OT_3_6_M"; IntField "MARG_OT_3_6_F";
        IntField "MARGWORK_0_3_P"; IntField "MARGWORK_0_3_M"; IntField "MARGWORK_0_3_F";
        IntField "MARG_CL_0_3_P"; IntField "MARG_CL_0_3_M"; IntField "MARG_CL_0_3_F";
        IntField "MARG_AL_0_3_P"; IntField "MARG_AL_0_3_M"; IntField "MARG_AL_0_3_F";
        IntField "MARG_HH_0_3_P"; IntField "MARG_HH_0_3_M"; IntField "MARG_HH_0_3_F";
        IntField "MARG_OT_0_3_P"; IntField "MARG_OT_0_3_M"; IntField "MARG_OT_0_3_F"] |}.

Definition insert_marginal_workers_row (parse_int : string -> option Z) (row : odict string cell)
    (location_id : Z) : loaded (list sqlval) :=
  execute_insert parse_int insert_marginal_workers_row_stmt row location_id.

Definition all_statements : list Statement :=
  [insert_location_row_stmt;
   insert_households_population_row_stmt;
   insert_scheduled_caste_tribe_stmt;
   insert_literacy_row_stmt;
   insert_workers_total_row_stmt;
   insert_main_workers_row_stmt;
   insert_marginal_workers_row_stmt].

(** The statements of the tables that hold counts (all but [locations]). *)
Definition count_statements : list Statement :=
  [insert_households_population_row_stmt;
   insert_scheduled_caste_tribe_stmt;
   insert_literacy_row_stmt;
   insert_workers_total_row_stmt;
   insert_main_workers_row_stmt;
   insert_marginal_workers_row_stmt].

(** The statement binds one value per column, through placeholders numbered
    1, 2, ... in order, the first for the identifier. *)
Definition lines_up (s : Statement) : Prop :=
  st_placeholders s = map Z.of_nat (seq 1 (List.length (st_columns s))) /\
  List.length (st_columns s) = S (List.length (st_fields s)).

(** A sample external row for [insert_location_row], without "District". *)
Definition row_without_district : odict string cell :=
  [("State", CInt 29); ("Subdistt", CInt 0); ("Town/Village", CInt 0); ("Ward", CInt 0);
   ("EB", CInt 0); ("Level", CStr "STATE"); ("Name", CStr "Karnataka"); ("TRU", CStr "Total")].

(** A sample external row for [insert_literacy_row]. *)
Definition literacy_cells : odict string cell :=
  [("P_LIT", CInt 60); ("M_LIT", CStr "35"); ("F_LIT", CInt 25);
   ("P_ILL", CInt 40); ("M_ILL", CInt 15); ("F_ILL", CInt 25)].

(** A parser of unsigned decimal texts, for the samples. *)
Definition sample_parse_int (s : string) : option Z :=
  match NilZero.int_of_string s with
  | Some i => Some (Z.of_int i)
  | None => None
  end.

(** ** The district breakdown, level by level *)

(** What [district_row] assigns to a district inside a state's dictionary,
    and to a state inside [grouped_states]. *)
Definition district_tru_entry (row : DistrictRow) (o : option (odict string json))
  : odict string json :=
  od_set (lower (dr_tru row)) (block (dr_total row) (dr_male row) (dr_female row))
         (match o with Some d => d | None => [] end).

Definition district_entry (row : DistrictRow)
    (o : option (odict string (odict string json))) : odict string (odict string json) :=
  upsert dr_district district_tru_entry (match o with Some d => d | None => [] end) row.

(** The fetched rows of a state name, in fetch order. *)
Definition rows_of_state (s : string) (rows : list DistrictRow) : list DistrictRow :=
  filter (fun r => if key_eq_dec (dr_state r) s then true else false) rows.

(** ** Further sample data and shapes *)

(** A connection to a store whose state rows, as the page query orders them,
    are [state_rows]: the page of a request starts after the first [offset]
    of them; the count queries return [counts]. *)
Definition page_after (state_rows : list FactRow) (counts : list (Z * Z)) (offset : Z)
  : Connection :=
  {| fetch := fun _ => Ok (skipn (Z.to_nat offset) state_rows);
     fetch_count := fun _ _ => Ok counts |}.

(** "Every request whose valid selection lacks "state", on a store with at
    least one state row, fails with a server error." *)
Definition selection_without_state_fails : Prop :=
  forall (state_rows : list FactRow) (counts : list (Z * Z)) (fields : string)
         (sort_by sort_order : option string) (limit offset : Z),
    state_rows <> [] ->
    validate_states_request sort_by sort_order limit offset = None ->
    nonempty fields = true ->
    selected_of fields <> [] ->
    ~ In "state" (selected_of fields) ->
    status (list_states (page_after state_rows counts offset) (Some fields)
              sort_by sort_order None limit offset) = 500.

(** [tru] is given, is not empty, and its lowercase form is none of total,
    rural, urban. *)
Definition unknown_tru (tru : option string) : Prop :=
  exists t, tru = Some t /\ t <> "" /\ ~ In (lower t) allowed_tru.

(** The block a fetched row of the district breakdown writes. *)
Definition district_block (r : DistrictRow) : json :=
  block (dr_total r) (dr_male r) (dr_female r).

(** The fetched rows of a district name within a state name, in fetch order. *)
Definition rows_of_district (s d : string) (rows : list DistrictRow) : list DistrictRow :=
  filter (fun r => if key_eq_dec (dr_district r) d then true else false)
         (rows_of_state s rows).

(** The dictionary the rows of one district leave under "population". *)
Definition district_tru_dict (G : list DistrictRow) : odict string json :=
  fold_left (fun d r => od_set (lower (dr_tru r)) (district_block r) d) G [].

(** The last row of a list of district rows that carries a TRU label. *)
Definition last_district_row (l : string) (G : list DistrictRow) : option DistrictRow :=
  find (fun r => (lower (dr_tru r) =? l)%string) (rev G).

(** The external field an insert into a count table reads for a column: the
    column's name in upper case, but for the household count. *)
Definition field_of_column (c : string) : string :=
  if (c =? "no_hh")%string then "No_HH" else upper c.


(** * Properties *)

(** ** Dictionaries *)

Section ODictFacts.
Context {K V : Type} `{KeyEq K}.
Implicit Types (k : K) (v : V) (d : odict K V).

Lemma od_get_set_eq k v d : od_get k (od_set k v d) = Some v.
Proof.
  induction d as [|[k' v'] t IH]; simpl.
  - destruct (key_eq_dec k k); congruence.
  - destruct (key_eq_dec k k') as [->|Hn]; simpl.
    + destruct (key_eq_dec k' k'); congruence.
    + destruct (key_eq_dec k k'); congruence.
Qed.

Lemma od_get_set_neq k k' v d : k <> k' -> od_get k (od_set k' v d) = od_get k d.
Proof.
  intros Hn. induction d as [|[k0 v0] t IH]; simpl.
  - destruct (key_eq_dec k k'); congruence.
  - destruct (key_eq_dec k' k0) as [->|Hn0]; simpl.
    + destruct (key_eq_dec k k0); congruence.
    + destruct (key_eq_dec k k0); congruence.
Qed.

Lemma od_get_set k k' v d :
  od_get k (od_set k' v d) = if key_eq_dec k k' then Some v else od_get k d.
Proof.
  destruct (key_eq_dec k k') as [->|Hn].
  - apply od_get_set_eq.
  - now apply od_get_set_neq.
Qed.

Lemma od_get_update k k' (f : V -> V) d :
  od_get k (od_update k' f d) =
  if key_eq_dec k k' then option_map f (od_get k d) else od_get k d.
Proof.
  induction d as [|[k0 v0] t IH]; simpl.
  - now destruct (key_eq_dec k k').
  - destruct (key_eq_dec k' k0) as [->|Hn0]; simpl.
    + destruct (key_eq_dec k k0) as [->|Hn]; simpl.
      * destruct (key_eq_dec k0 k0); congruence.
      * destruct (key_eq_dec k k0); congruence.
    + destruct (key_eq_dec k k0) as [->|Hn]; simpl.
      * destruct (key_eq_dec k0 k'); congruence.
      * exact IH.
Qed.

Lemma od_update_as_set k (f : V -> V) d e :
  od_get k d = Some e -> od_update k f d = od_set k (f e) d.
Proof.
  induction d as [|[k0 v0] t IH]; simpl; [discriminate|].
  destruct (key_eq_dec k k0) as [->|Hn]; intros Hg.
  - congruence.
  - now rewrite IH.
Qed.

Lemma od_set_set k v v' d : od_set k v (od_set k v' d) = od_set k v d.
Proof.
  induction d as [|[k0 v0] t IH]; simpl.
  - destruct (key_eq_dec k k); congruence.
  - destruct (key_eq_dec k k0) as [->|Hn]; simpl.
    + destruct (key_eq_dec k0 k0); congruence.
    + destruct (key_eq_dec k k0); congruence.
Qed.

(** "Insert the seed when the key is new, then update in place" is one
    assignment of the updated value. *)
Lemma seed_then_update k (s : V) (h : V -> V) d :
  od_update k h (if od_mem k d then d else od_set k s d) =
  od_set k (h (match od_get k d with Some e => e | None => s end)) d.
Proof.
  unfold od_mem. destruct (od_get k d) as [e|] eqn:Hg.
  - now apply od_update_as_set.
  - rewrite (od_update_as_set k h (od_set k s d) s) by apply od_get_set_eq.
    apply od_set_set.
Qed.

Lemma od_keys_set k v d :
  od_keys (od_set k v d) = if od_mem k d then od_keys d else (od_keys d ++ [k])%list.
Proof.
  unfold od_mem, od_keys. induction d as [|[k0 v0] t IH]; simpl; [reflexivity|].
  destruct (key_eq_dec k k0) as [->|Hn]; simpl; [reflexivity|].
  rewrite IH. now destruct (od_get k t).
Qed.

Lemma od_get_None_keys k d : od_get k d = None <-> ~ In k (od_keys d).
Proof.
  unfold od_keys. induction d as [|[k0 v0] t IH]; simpl.
  - tauto.
  - destruct (key_eq_dec k k0) as [->|Hn].
    + split; [discriminate | intros Hc; exfalso; apply Hc; now left].
    + rewrite IH. split; intros Hc; [intros [E|I]; [congruence | tauto] | tauto].
Qed.

Lemma od_mem_keys k d : od_mem k d = true <-> In k (od_keys d).
Proof.
  unfold od_mem. destruct (od_get k d) eqn:Hg.
  - split; [intros _ | reflexivity].
    destruct (in_dec key_eq_dec k (od_keys d)) as [I|N]; [exact I|].
    apply od_get_None_keys in N. congruence.
  - split; [discriminate|]. intros I. apply od_get_None_keys in Hg. tauto.
Qed.

Lemma od_keys_set_NoDup k v d : NoDup (od_keys d) -> NoDup (od_keys (od_set k v d)).
Proof.
  intros Hnd. rewrite od_keys_set. destruct (od_mem k d) eqn:Hm; [exact Hnd|].
  apply NoDup_app; [exact Hnd | repeat constructor; simpl; tauto |].
  intros x Hx [<-|[]]. apply od_mem_keys in Hx. congruence.
Qed.

Lemma od_get_In k v d : od_get k d = Some v -> In (k, v) d.
Proof.
  induction d as [|[k0 v0] t IH]; simpl; [discriminate|].
  destruct (key_eq_dec k k0) as [->|Hn]; intros Hg.
  - left. congruence.
  - right. now apply IH.
Qed.

Lemma od_In_get k v d : NoDup (od_keys d) -> In (k, v) d -> od_get k d = Some v.
Proof.
  unfold od_keys. induction d as [|[k0 v0] t IH]; simpl; [tauto|].
  intros Hnd [E|I].
  - inversion E; subst. destruct (key_eq_dec k k); congruence.
  - inversion Hnd as [|? ? Hni Hnd']; subst.
    destruct (key_eq_dec k k0) as [->|Hn].
    + exfalso. apply Hni. change k0 with (fst (k0, v)). now apply in_map.
    + now apply IH.
Qed.

Lemma od_values_In v d :
  NoDup (od_keys d) -> In v (od_values d) -> exists k, od_get k d = Some v.
Proof.
  intros Hnd Hin. unfold od_values in Hin. apply in_map_iff in Hin.
  destruct Hin as [[k v'] [E I]]. simpl in E. subst v'.
  exists k. now apply od_In_get.
Qed.

End ODictFacts.

(** ** Grouping loops, key by key *)

Section Upsert.
Context {R K Ent : Type} `{KeyEq K}.
Variable key : R -> K.
Variable f : R -> option Ent -> Ent.

Lemma upsert_get (k : K) (rows : list R) (g : odict K Ent) :
  od_get k (fold_left (upsert key f) rows g) = fold_left (at_key key f k) rows (od_get k g).
Proof.
  revert g. induction rows as [|r rows IH]; intros g; simpl; [reflexivity|].
  rewrite IH. f_equal. unfold upsert, at_key. rewrite od_get_set.
  destruct (key_eq_dec k (key r)) as [->|Hn].
  - destruct (key_eq_dec (key r) (key r)); congruence.
  - destruct (key_eq_dec (key r) k); congruence.
Qed.

Lemma upsert_NoDup (rows : list R) (g : odict K Ent) :
  NoDup (od_keys g) -> NoDup (od_keys (fold_left (upsert key f) rows g)).
Proof.
  revert g. induction rows as [|r rows IH]; intros g Hnd; simpl; [exact Hnd|].
  apply IH. unfold upsert. now apply od_keys_set_NoDup.
Qed.

(** Rows of other keys leave a key alone. *)
Lemma at_key_filter (k : K) (rows : list R) (o : option Ent) :
  fold_left (at_key key f k) rows o =
  fold_left (fun o r => Some (f r o))
            (filter (fun r => if key_eq_dec (key r) k then true else false) rows) o.
Proof.
  revert o. induction rows as [|r rows IH]; intros o; simpl; [reflexivity|].
  rewrite IH. unfold at_key. now destruct (key_eq_dec (key r) k).
Qed.

Lemma upsert_keys_in (k : K) (rows : list R) (g : odict K Ent) :
  In k (od_keys (fold_left (upsert key f) rows g)) ->
  In k (od_keys g) \/ exists r, In r rows /\ key r = k.
Proof.
  revert g. induction rows as [|r rows IH]; intros g; simpl; [tauto|].
  intros Hin. apply IH in Hin. destruct Hin as [Hin|[r' [I E]]].
  - unfold upsert in Hin. rewrite od_keys_set in Hin.
    destruct (od_mem (key r) g); [tauto|].
    apply in_app_or in Hin. destruct Hin as [Hin|[<-|[]]]; [tauto|].
    right. exists r. tauto.
  - right. exists r'. tauto.
Qed.

End Upsert.

(** ** First occurrences *)

Section Distinct.
Context {A : Type} `{KeyEq A}.

Lemma distinct_In (x : A) (l : list A) : In x (distinct l) <-> In x l.
Proof.
  induction l as [|y t IH]; simpl; [tauto|].
  rewrite filter_In, IH. unfold differs.
  destruct (key_eq_dec y x) as [->|Hn]; [tauto|].
  intuition congruence.
Qed.

Lemma distinct_NoDup (l : list A) : NoDup (distinct l).
Proof.
  induction l as [|y t IH]; simpl; constructor.
  - rewrite filter_In. unfold differs. intros [_ Hd].
    destruct (key_eq_dec y y); congruence.
  - now apply NoDup_filter.
Qed.

Lemma filter_twice (p q : A -> bool) (l : list A) :
  filter p (filter q l) = filter (fun x => q x && p x) l.
Proof.
  induction l as [|x t IH]; simpl; [reflexivity|].
  destruct (q x); simpl; [destruct (p x)|]; now rewrite IH.
Qed.

(** Adding the elements of [xs] one at a time, each at the end unless
    already there, gives the first occurrences. *)
Lemma distinct_fold (add : list A -> A -> list A) (xs ks : list A) :
  (forall ks x, add ks x = if in_dec key_eq_dec x ks then ks else (ks ++ [x])%list) ->
  fold_left add xs ks =
  (ks ++ filter (fun x => if in_dec key_eq_dec x ks then false else true) (distinct xs))%list.
Proof.
  intros Hadd. revert ks. induction xs as [|x t IH]; intros ks; simpl.
  - now rewrite app_nil_r.
  - rewrite IH, Hadd. destruct (in_dec key_eq_dec x ks) as [Hin|Hni].
    + f_equal. rewrite filter_twice. apply filter_ext_in. intros y _.
      unfold differs.
      destruct (in_dec key_eq_dec y ks) as [_|Hy];
        destruct (key_eq_dec x y); simpl; congruence.
    + rewrite <- app_assoc. simpl.
      destruct (in_dec key_eq_dec x ks) as [Hin|_]; [contradiction|].
      f_equal. f_equal.
      rewrite filter_twice. apply filter_ext_in. intros y _. unfold differs.
      destruct (in_dec key_eq_dec y (ks ++ [x])) as [Hy|Hy];
        destruct (in_dec key_eq_dec y ks) as [Hy'|Hy'];
        destruct (key_eq_dec x y) as [Exy|Hxy]; simpl; try reflexivity; exfalso;
        rewrite in_app_iff in Hy; simpl in Hy; intuition congruence.
Qed.

End Distinct.

(** ** Rows listed by the store *)

Lemma listed_nil {A} (u : Listing A) : listed u [] = [].
Proof. apply Permutation_nil. apply Permutation_sym, listed_perm. Qed.

Lemma listed_In {A} (u : Listing A) (l : list A) (x : A) : In x (listed u l) <-> In x l.
Proof.
  split; intros Hin.
  - now apply (Permutation_in _ (listed_perm u l)).
  - now apply (Permutation_in _ (Permutation_sym (listed_perm u l))).
Qed.

Lemma listed_nonempty {A} (u : Listing A) (l : list A) : l <> [] -> listed u l <> [].
Proof.
  intros Hne Hnil. apply Hne. apply Permutation_nil. rewrite <- Hnil. apply listed_perm.
Qed.

Lemma select_distinct_In {A} `{KeyEq A} (u : Listing A) (l : list A) (x : A) :
  In x (select_distinct u l) <-> In x l.
Proof. unfold select_distinct. rewrite listed_In. apply distinct_In. Qed.

Lemma select_distinct_NoDup {A} `{KeyEq A} (u : Listing A) (l : list A) :
  NoDup (select_distinct u l).
Proof.
  unfold select_distinct.
  apply (Permutation_NoDup (Permutation_sym (listed_perm u _))). apply distinct_NoDup.
Qed.

Lemma select_distinct_nil {A} `{KeyEq A} (u : Listing A) : select_distinct u [] = [].
Proof. apply listed_nil. Qed.

Lemma select_distinct_nonempty {A} `{KeyEq A} (u : Listing A) (l : list A) :
  l <> [] -> select_distinct u l <> [].
Proof.
  intros Hne. apply listed_nonempty. destruct l; [congruence | discriminate].
Qed.

Lemma tru_dict_keys_from (val : FactRow -> json) (G : list FactRow) (d : odict string json) :
  od_keys (fold_left (fun d r => od_set (ltru r) (val r) d) G d) =
  fold_left (fun ks x => if in_dec key_eq_dec x ks then ks else (ks ++ [x])%list)
            (map ltru G) (od_keys d).
Proof.
  revert d. induction G as [|r G IH]; intros d; simpl; [reflexivity|].
  rewrite IH. f_equal. rewrite od_keys_set.
  destruct (in_dec key_eq_dec (ltru r) (od_keys d)) as [Hin|Hni].
  - apply od_mem_keys in Hin. now rewrite Hin.
  - destruct (od_mem (ltru r) d) eqn:Hm; [|reflexivity].
    apply od_mem_keys in Hm. contradiction.
Qed.

(** A group's dictionary has one entry per TRU label of the group, in the
    order the labels are first fetched. *)
Lemma tru_dict_keys (val : FactRow -> json) (G : list FactRow) :
  od_keys (tru_dict val G) = distinct (map ltru G).
Proof.
  unfold tru_dict. rewrite tru_dict_keys_from.
  rewrite (distinct_fold _ (map ltru G) []) by reflexivity. simpl.
  generalize (distinct (map ltru G)). intros L.
  induction L as [|x t IH]; simpl; congruence.
Qed.

Lemma tru_dict_get_from (val : FactRow -> json) (G : list FactRow) (d : odict string json)
    (l : string) (v : json) :
  od_get l (fold_left (fun d r => od_set (ltru r) (val r) d) G d) = Some v ->
  od_get l d = Some v \/ exists r, In r G /\ ltru r = l /\ v = val r.
Proof.
  revert d. induction G as [|r G IH]; intros d; simpl; [tauto|].
  intros Hg. apply IH in Hg. destruct Hg as [Hg|[r' [Hin [Hl Hv]]]].
  - rewrite od_get_set in Hg. destruct (key_eq_dec l (ltru r)) as [->|Hn]; [|tauto].
    right. exists r. split; [now left|]. split; congruence.
  - right. exists r'. tauto.
Qed.

(** Every entry of a group's dictionary is the value written by a row of the
    group carrying that label. *)
Lemma tru_dict_get (val : FactRow -> json) (G : list FactRow) (l : string) (v : json) :
  od_get l (tru_dict val G) = Some v -> exists r, In r G /\ ltru r = l /\ v = val r.
Proof.
  intros Hg. apply tru_dict_get_from in Hg. destruct Hg as [Hg|Hg]; [discriminate|exact Hg].
Qed.

(** ** The grouping loops, key by key *)

Section Grouped.
Context {K Ent : Type} `{KeyEq K}.
Variable key : FactRow -> K.
Variable fe : FactRow -> option Ent -> Ent.
Variable val : FactRow -> json.
Variable wrap : FactRow -> odict string json -> Ent.
Hypothesis fe_new : forall r, fe r None = wrap r (od_set (ltru r) (val r) []).
Hypothesis fe_old :
  forall r0 r d, fe r (Some (wrap r0 d)) = wrap r0 (od_set (ltru r) (val r) d).

Lemma group_fold (grp : list FactRow) (r0 : FactRow) (d : odict string json) :
  fold_left (fun o r => Some (fe r o)) grp (Some (wrap r0 d)) =
  Some (wrap r0 (fold_left (fun d r => od_set (ltru r) (val r) d) grp d)).
Proof.
  revert d. induction grp as [|r grp IH]; intros d; simpl; [reflexivity|].
  now rewrite fe_old, IH.
Qed.

(** What the loop leaves at a key: nothing when no row has the key,
    otherwise the object seeded by the first row of the group, holding the
    group's dictionary. *)
Lemma grouped_get (k : K) (rows : list FactRow) :
  od_get k (fold_left (upsert key fe) rows []) =
  match group_of key k rows with
  | [] => None
  | r0 :: grp => Some (wrap r0 (tru_dict val (r0 :: grp)))
  end.
Proof.
  rewrite upsert_get, at_key_filter. fold (group_of key k rows). simpl.
  destruct (group_of key k rows) as [|r0 grp]; simpl; [reflexivity|].
  rewrite fe_new. apply group_fold.
Qed.

Lemma grouped_values (rows : list FactRow) (o : Ent) :
  In o (od_values (fold_left (upsert key fe) rows [])) ->
  exists k r0 grp,
    group_of key k rows = r0 :: grp /\ o = wrap r0 (tru_dict val (r0 :: grp)).
Proof.
  intros Hin. apply od_values_In in Hin; [|apply upsert_NoDup; constructor].
  destruct Hin as [k Hk]. rewrite grouped_get in Hk.
  destruct (group_of key k rows) as [|r0 grp] eqn:Hg; [discriminate|].
  exists k, r0, grp. split; [exact Hg | congruence].
Qed.

Lemma grouped_covers (rows : list FactRow) (r : FactRow) :
  In r rows ->
  exists r0 grp,
    group_of key (key r) rows = r0 :: grp /\ In r (r0 :: grp) /\
    In (wrap r0 (tru_dict val (r0 :: grp))) (od_values (fold_left (upsert key fe) rows [])).
Proof.
  intros Hin.
  assert (Hr : In r (group_of key (key r) rows)).
  { unfold group_of. apply filter_In. split; [exact Hin|].
    destruct (key_eq_dec (key r) (key r)); congruence. }
  destruct (group_of key (key r) rows) as [|r0 grp] eqn:Hg; [contradiction|].
  exists r0, grp. split; [reflexivity|]. split; [exact Hr|].
  pose proof (grouped_get (key r) rows) as Hget. rewrite Hg in Hget.
  apply od_get_In in Hget. unfold od_values.
  change (wrap r0 (tru_dict val (r0 :: grp)))
    with (snd (key r, wrap r0 (tru_dict val (r0 :: grp)))).
  now apply in_map.
Qed.

End Grouped.

Lemma group_of_In {K} `{KeyEq K} (key : FactRow -> K) (k : K) (rows : list FactRow) (r : FactRow) :
  In r (group_of key k rows) <-> In r rows /\ key r = k.
Proof.
  unfold group_of. rewrite filter_In. destruct (key_eq_dec (key r) k); intuition congruence.
Qed.

Lemma seed_only {K V} `{KeyEq K} (k : K) (s : V) (d : odict K V) :
  (if od_mem k d then d else od_set k s d) =
  od_set k (match od_get k d with Some e => e | None => s end) d.
Proof.
  unfold od_mem. destruct (od_get k d) as [e|] eqn:Hg; [|reflexivity].
  induction d as [|[k0 v0] t IH]; simpl in *; [discriminate|].
  destruct (key_eq_dec k k0) as [->|Hn]; [congruence|].
  now rewrite <- IH.
Qed.

Lemma set_after_seed {K V} `{KeyEq K} (k : K) (s v : V) (d : odict K V) :
  od_set k v (if od_mem k d then d else od_set k s d) = od_set k v d.
Proof. destruct (od_mem k d); [reflexivity | apply od_set_set]. Qed.

(** Each loop body is such an assignment. *)

Lemma gender_row_upsert g r : gender_row g r = upsert state gender_entry g r.
Proof. reflexivity. Qed.

Lemma workers_row_upsert g r : workers_row g r = upsert state workers_entry g r.
Proof. unfold workers_row, upsert, workers_entry, ltru. apply seed_then_update. Qed.

Lemma caste_row_upsert g r : caste_row g r = upsert state caste_entry g r.
Proof. unfold caste_row, upsert, caste_entry, ltru. apply seed_then_update. Qed.

Lemma non_workers_row_upsert g r :
  non_workers_row g r = upsert non_workers_key non_workers_entry g r.
Proof.
  unfold non_workers_row, upsert, non_workers_entry, non_workers_key, ltru.
  apply seed_then_update.
Qed.

Lemma households_row_upsert req g r :
  households_row req g r = upsert state (households_entry req) g r.
Proof.
  unfold households_row, upsert, households_entry, households_seed, ltru.
  destruct (truthy req).
  - apply seed_only.
  - apply seed_then_update.
Qed.

Lemma literacy_row_upsert req g r :
  literacy_row req g r = upsert literacy_key (literacy_entry req) g r.
Proof.
  unfold literacy_row, upsert, literacy_entry, literacy_key, ltru.
  destruct req as [t|].
  - apply set_after_seed.
  - destruct (nonempty (lower (tru r))).
    + apply seed_then_update.
    + apply set_after_seed.
Qed.

Lemma fold_left_ext {A B} (f g : A -> B -> A) (l : list B) (a : A) :
  (forall a b, f a b = g a b) -> fold_left f l a = fold_left g l a.
Proof.
  intros Hfg. revert a. induction l as [|b l IH]; intros a; simpl; [reflexivity|].
  now rewrite Hfg, IH.
Qed.

(** ** Households *)

Lemma households_grouped_upsert req rows :
  households_grouped req rows = fold_left (upsert state (households_entry req)) rows [].
Proof. apply fold_left_ext. intros g r. apply households_row_upsert. Qed.

Lemma households_entry_new req r :
  truthy req = false ->
  households_entry req r None = households_nested r (od_set (ltru r) (households_val r) []).
Proof. intros Hf. unfold households_entry, households_seed. now rewrite Hf. Qed.

Lemma households_entry_old req r0 r d :
  truthy req = false ->
  households_entry req r (Some (households_nested r0 d)) =
  households_nested r0 (od_set (ltru r) (households_val r) d).
Proof. intros Hf. unfold households_entry. now rewrite Hf. Qed.

Lemma handler_unset (tru : option string) :
  truthy tru = false -> tru_invalid tru = false /\ tru_param tru = None.
Proof.
  destruct tru as [t|]; simpl; [|tauto]. intros ->. tauto.
Qed.

(** C9.  A state-households request with [tru] unset, answered with rows:
    every emitted object is built from the rows [r0 :: grp] fetched for one
    state code, in fetch order; its "households" block is a dictionary with
    one entry per TRU label of those rows, each holding the household count
    of a row with that label, while its "population" and "under_6" blocks are
    those of [r0], the first-fetched row of the state, whatever the later
    rows hold; and every fetched row is in the group of an emitted object. *)
Theorem households_blocks_from_first_row (db : Table) (states : string) (tru : option string) :
  truthy tru = false ->
  name_list states <> [] ->
  fetch_state_rows db (name_list states) None <> [] ->
  exists objs,
    get_state_households db states tru = JSONResponse (JList (map JObj objs)) /\
    (forall o, In o objs ->
       exists k r0 grp h,
         group_of state k (fetch_state_rows db (name_list states) None) = r0 :: grp /\
         o = [("name", JStr (name r0)); ("state", JInt (state r0));
              ("households", JObj h);
              ("population", block (tot_p r0) (tot_m r0) (tot_f r0));
              ("under_6", block (p_06 r0) (m_06 r0) (f_06 r0))] /\
         od_keys h = distinct (map ltru (r0 :: grp)) /\
         (forall l v, od_get l h = Some v ->
            exists r, In r (r0 :: grp) /\ ltru r = l /\ v = JInt (no_hh r))) /\
    (forall r, In r (fetch_state_rows db (name_list states) None) ->
       exists r0 grp,
         group_of state (state r) (fetch_state_rows db (name_list states) None) = r0 :: grp /\
         In r (r0 :: grp) /\
         In (households_obj r0 (JObj (tru_dict households_val (r0 :: grp)))) objs).
Proof.
  intros Hf Hnames Hrows.
  destruct (handler_unset tru Hf) as [Hinv Hpar].
  set (rows := fetch_state_rows db (name_list states) None) in *.
  exists (od_values (households_grouped tru rows)).
  split; [|split].
  - unfold get_state_households. rewrite Hinv, Hpar. fold rows.
    destruct (name_list states) as [|n ns]; [congruence|].
    destruct rows as [|r rs]; [congruence|]. reflexivity.
  - intros o Hin. rewrite households_grouped_upsert in Hin.
    apply (grouped_values state (households_entry tru) households_val households_nested
             (fun r => households_entry_new tru r Hf)
             (fun r0 r d => households_entry_old tru r0 r d Hf)) in Hin.
    destruct Hin as [k [r0 [grp [Hg Ho]]]].
    exists k, r0, grp, (tru_dict households_val (r0 :: grp)).
    split; [exact Hg|]. split; [exact Ho|]. split; [apply tru_dict_keys|].
    intros l v Hl. now apply tru_dict_get in Hl.
  - intros r Hin. rewrite households_grouped_upsert.
    apply (grouped_covers state (households_entry tru) households_val households_nested
             (fun r => households_entry_new tru r Hf)
             (fun r0 r d => households_entry_old tru r0 r d Hf)). exact Hin.
Qed.

Lemma households_blocks_from_first_row_witness :
  exists objs,
    get_state_households karnataka "Karnataka" None = JSONResponse (JList (map JObj objs)) /\
    (forall o, In o objs ->
       exists k r0 grp h,
         group_of state k (fetch_state_rows karnataka (name_list "Karnataka") None) = r0 :: grp /\
         o = [("name", JStr (name r0)); ("state", JInt (state r0));
              ("households", JObj h);
              ("population", block (tot_p r0) (tot_m r0) (tot_f r0));
              ("under_6", block (p_06 r0) (m_06 r0) (f_06 r0))] /\
         od_keys h = distinct (map ltru (r0 :: grp)) /\
         (forall l v, od_get l h = Some v ->
            exists r, In r (r0 :: grp) /\ ltru r = l /\ v = JInt (no_hh r))) /\
    (forall r, In r (fetch_state_rows karnataka (name_list "Karnataka") None) ->
       exists r0 grp,
         group_of state (state r) (fetch_state_rows karnataka (name_list "Karnataka") None)
           = r0 :: grp /\
         In r (r0 :: grp) /\
         In (households_obj r0 (JObj (tru_dict households_val (r0 :: grp)))) objs).
Proof.
  apply (households_blocks_from_first_row karnataka "Karnataka" None).
  - reflexivity.
  - vm_compute. discriminate.
  - vm_compute. discriminate.
Defined.

(** ** Not-found handling *)

(** Whatever is raised inside a handler's [try] leaves as a 500. *)
Lemma except_Exception_Err (e : exc) : status (except_Exception (Err e)) = 500.
Proof. reflexivity. Qed.

(** A request to the population endpoint whose filter matches no row. *)
Lemma population_no_rows (u : Listing (string * Z)) (db : Table) (states : string)
    (include_population : bool) (n : string) (ns : list string) :
  name_list states = n :: ns ->
  fetch_state_rows db (n :: ns) None = [] ->
  get_state_population u db states None include_population =
  Raise (HTTPException 500 (StrOf (HTTPException 404 (Text "No matching states found")))).
Proof.
  intros Hn Hrows. unfold get_state_population. cbn [tru_invalid]. rewrite Hn, Hrows.
  cbn [map]. now rewrite select_distinct_nil.
Qed.

(** A request to the district breakdown, without limit and offset, whose
    join is empty. *)
Lemma district_no_rows (u : Listing DistrictRow) (db : Table) (states : string)
    (n : string) (ns : list string) :
  name_list states = n :: ns ->
  district_join db (n :: ns) None = [] ->
  get_district_population_breakdown u db states None None None = JSONResponse (JList []).
Proof.
  intros Hn Hrows. unfold get_district_population_breakdown, fetch_districts_page.
  cbn [tru_invalid]. rewrite Hn, Hrows, listed_nil. reflexivity.
Qed.

(** C2 at a failing input.  The store holds Karnataka and the request names
    "Atlantis": the filter of the (valid) request matches no row.
    [get_state_population] raises its 404 inside the [try] and answers 500;
    [get_district_population_breakdown] answers 200 with an empty list.
    Nothing here depends on how the store lists rows. *)
Theorem zero_match_is_not_reported_as_404 (up : Listing (string * Z))
    (uj : Listing DistrictRow) :
  tru_invalid None = false /\
  name_list "Atlantis" = ["atlantis"] /\
  fetch_state_rows karnataka (name_list "Atlantis") None = [] /\
  get_state_population up karnataka "Atlantis" None true =
    Raise (HTTPException 500 (StrOf (HTTPException 404 (Text "No matching states found")))) /\
  status (get_state_population up karnataka "Atlantis" None true) = 500 /\
  district_join karnataka (name_list "Atlantis") None = [] /\
  get_district_population_breakdown uj karnataka "Atlantis" None None None =
    JSONResponse (JList []) /\
  status (get_district_population_breakdown uj karnataka "Atlantis" None None None) = 200.
Proof.
  assert (Hn : name_list "Atlantis" = ["atlantis"]) by reflexivity.
  assert (Hr : fetch_state_rows karnataka ["atlantis"] None = []) by reflexivity.
  assert (Hj : district_join karnataka ["atlantis"] None = []) by reflexivity.
  rewrite (population_no_rows up karnataka "Atlantis" true _ _ Hn Hr).
  rewrite (district_no_rows uj karnataka "Atlantis" _ _ Hn Hj).
  repeat split; vm_compute; reflexivity.
Qed.

(** ** State metadata: projection *)

Lemma record_dict_get_from (cols : list string) (r : FactRow) (c : string)
    (d : odict string json) :
  ~ In c cols ->
  od_get c (fold_left (fun d c => od_set c (column c r) d) cols d) = od_get c d.
Proof.
  revert d. induction cols as [|c0 cols IH]; intros d Hni; simpl; [reflexivity|].
  rewrite IH by (simpl in Hni; tauto).
  apply od_get_set_neq. simpl in Hni. intros ->. tauto.
Qed.

(** A fetched record has no column outside the select list. *)
Lemma record_dict_get_absent (cols : list string) (r : FactRow) (c : string) :
  ~ In c cols -> od_get c (record_dict cols r) = None.
Proof. intros Hni. unfold record_dict. now rewrite record_dict_get_from. Qed.

Lemma mapM_merge_no_counts (rows : list FactRow) :
  mapM (merge_counts []) (map (record_dict ["state"; "name"]) rows) =
  Ok (map (fun r => [("state", JInt (state r)); ("name", JStr (name r))]) rows).
Proof.
  induction rows as [|r rows IH]; [reflexivity|].
  cbn [map mapM]. rewrite IH. reflexivity.
Qed.

(** C10.  With the [fields] parameter omitted the projection is "state",
    "name": a request that passes validation and whose page query the store
    answers with rows gets back, for each row, the object with exactly the
    keys "state" and "name" (no count field); a failure of the store leaves as
    a 500. *)
Theorem default_projection_is_state_and_name (conn : Connection)
    (sort_by sort_order : option string) (state_code : option Z) (limit offset : Z) :
  list_states conn None sort_by sort_order state_code limit offset =
  match validate_states_request sort_by sort_order limit offset with
  | Some e => Raise e
  | None =>
      match fetch conn (base_query "state, name" sort_by sort_order state_code limit offset) with
      | Ok rows =>
          JSONResponse
            (JList (map (fun r => JObj [("state", JInt (state r)); ("name", JStr (name r))])
                        rows))
      | Err e => Raise (HTTPException 500 (StrOf e))
      end
  end.
Proof.
  unfold list_states.
  destruct (validate_states_request sort_by sort_order limit offset); [reflexivity|].
  assert (Hb : filter (fun f => mem f base_columns) ["state"; "name"] = ["state"; "name"])
    by reflexivity.
  assert (Hc : filter (fun f => od_mem f count_fields) ["state"; "name"] = [])
    by reflexivity.
  cbn [truthy]. cbv beta iota zeta. rewrite Hb, Hc.
  change (join ", " ["state"; "name"]) with "state, name".
  destruct (fetch conn _) as [rows|e]; [|reflexivity].
  cbn [bind foldM]. rewrite mapM_merge_no_counts. cbn [bind except_Exception].
  now rewrite map_map.
Qed.

(** C8, counterexample.  The store holds a state row, the selection is
    "name" (sorted by name), and the offset is past the last row: the page is
    empty, the merge loop has no record to look "state" up in, and the answer
    is 200 with an empty list. *)
Lemma empty_page_is_served : ~ selection_without_state_fails.
Proof.
  intros Hfails.
  specialize (Hfails [karnataka_rural] [] "name" (Some "name") None 100 5).
  assert (Hserved : list_states (page_after [karnataka_rural] [] 5) (Some "name")
                      (Some "name") None None 100 5 = JSONResponse (JList []))
    by reflexivity.
  rewrite Hserved in Hfails. cbn [status] in Hfails.
  assert (H500 : 200 = 500); [|discriminate].
  apply Hfails.
  - discriminate.
  - reflexivity.
  - reflexivity.
  - vm_compute. discriminate.
  - vm_compute. intros [H|[]]. discriminate.
Qed.

(** C8, as amended.  A valid field selection without "state": the fetched
    records have no "state" column, so as soon as the page query returns a
    row the request ends as a 500; when the count queries are answered, the
    exception is the [KeyError] of [result["state"]] in the count merge. *)
Theorem selection_without_state_is_500 (conn : Connection) (fields : string)
    (sort_by sort_order : option string) (state_code : option Z) (limit offset : Z)
    (r : FactRow) (rows : list FactRow) :
  validate_states_request sort_by sort_order limit offset = None ->
  nonempty fields = true ->
  selected_of fields <> [] ->
  ~ In "state" (selected_of fields) ->
  fetch conn (base_query (join ", " (filter (fun f => mem f base_columns) (selected_of fields)))
                         sort_by sort_order state_code limit offset) = Ok (r :: rows) ->
  status (list_states conn (Some fields) sort_by sort_order state_code limit offset) = 500 /\
  (forall counts,
     foldM (count_field conn) (filter (fun f => od_mem f count_fields) (selected_of fields)) []
       = Ok counts ->
     list_states conn (Some fields) sort_by sort_order state_code limit offset =
     Raise (HTTPException 500 (StrOf (KeyError "state")))).
Proof.
  intros Hval Hne Hsel Hns Hfetch. unfold list_states. rewrite Hval.
  cbn [truthy]. rewrite Hne.
  destruct (selected_of fields) as [|f0 fs] eqn:Hs; [congruence|].
  rewrite Hfetch. cbn [bind map].
  assert (Hnone : od_get "state"
            (record_dict (filter (fun f => mem f base_columns) (f0 :: fs)) r) = None).
  { apply record_dict_get_absent. rewrite filter_In. tauto. }
  destruct (foldM (count_field conn) _ []) as [counts|e] eqn:Hc.
  - assert (Hm : merge_counts counts
              (record_dict (filter (fun f => mem f base_columns) (f0 :: fs)) r)
              = Err (KeyError "state")).
    { unfold merge_counts. now rewrite Hnone. }
    cbn [bind mapM]. rewrite Hm. cbn [bind].
    split; [reflexivity|]. intros counts' _. reflexivity.
  - cbn [bind]. split; [reflexivity|]. intros counts' Hcounts. discriminate.
Qed.

Lemma selection_without_state_is_500_witness :
  status (list_states (conn_of [karnataka_rural] []) (Some "name") (Some "name") None None 100 0)
    = 500 /\
  (forall counts,
     foldM (count_field (conn_of [karnataka_rural] []))
           (filter (fun f => od_mem f count_fields) (selected_of "name")) [] = Ok counts ->
     list_states (conn_of [karnataka_rural] []) (Some "name") (Some "name") None None 100 0 =
     Raise (HTTPException 500 (StrOf (KeyError "state")))).
Proof.
  apply (selection_without_state_is_500 (conn_of [karnataka_rural] []) "name"
           (Some "name") None None 100 0 karnataka_rural []).
  - reflexivity.
  - reflexivity.
  - vm_compute. discriminate.
  - vm_compute. intros [H|[]]. discriminate.
  - reflexivity.
Defined.

(** ** Name resolution *)


(** The same content, listed the other way round, resolves to code 1: the
    answer follows the store's listing. *)
Lemma resolver_follows_the_listing :
  resolve_state as_scanned two_goas "goa" = Some (2, "Goa") /\
  resolve_state backwards two_goas "goa" = Some (1, "goa").
Proof. split; reflexivity. Qed.






(** ** Towns and villages *)

Lemma place_row_upsert pm p : place_row pm p = upsert place_key place_entry pm p.
Proof.
  unfold place_row, upsert, place_entry, place_key, place_map_get.
  destruct (lower (level p) =? "town")%string; reflexivity.
Qed.

Lemma places_at_cons (key : Z * Z) (p : FactRow) (places : list FactRow) :
  places_at key (p :: places) =
  if key_eq_dec (place_key p) key then p :: places_at key places else places_at key places.
Proof. unfold places_at. simpl. now destruct (key_eq_dec (place_key p) key). Qed.

Lemma place_fold (key : Z * Z) (places : list FactRow)
    (o : option (odict string (list string))) (T V : list string) :
  match o with Some e => e | None => new_places end = [("towns", T); ("villages", V)] ->
  match fold_left (at_key place_key place_entry key) places o with
  | Some e => e
  | None => new_places
  end =
  [("towns", (T ++ map name (filter is_town (places_at key places)))%list);
   ("villages",
    (V ++ map name (filter (fun p => negb (is_town p)) (places_at key places)))%list)].
Proof.
  revert o T V. induction places as [|p places IH]; intros o T V Ho.
  - simpl. now rewrite !app_nil_r.
  - cbn [fold_left]. rewrite places_at_cons.
    assert (Hstep : at_key place_key place_entry key o p =
                    if key_eq_dec (place_key p) key then Some (place_entry p o) else o)
      by reflexivity.
    rewrite Hstep. clear Hstep.
    destruct (key_eq_dec (place_key p) key) as [Hk|Hk]; [|now apply IH].
    destruct (is_town p) eqn:Ht; cbn [filter map negb]; rewrite Ht; cbn [negb map].
    + rewrite (IH (Some (place_entry p o)) (T ++ [name p])%list V).
      * now rewrite <- app_assoc.
      * unfold place_entry. unfold is_town in Ht. rewrite Ht, Ho. reflexivity.
    + rewrite (IH (Some (place_entry p o)) T (V ++ [name p])%list).
      * now rewrite <- app_assoc.
      * unfold place_entry. unfold is_town in Ht. rewrite Ht, Ho. reflexivity.
Qed.

(** C6, counterexample.  "Madikeri" is stored with level "Village ": the
    query fetches it ([TRIM]), its lowercased level is neither "town" nor
    "village", and the loop files it under "villages" all the same. *)
Lemma padded_level_lands_in_villages : ~ other_levels_dropped (fetch_places [madikeri] 1).
Proof.
  intros Hdrop. destruct (Hdrop madikeri) as [_ Hv].
  - vm_compute. left. reflexivity.
  - vm_compute. discriminate.
  - vm_compute. discriminate.
  - apply Hv. vm_compute. left. reflexivity.
Qed.

(** C6, as amended.  For every parent key, the "towns" bucket holds the names
    of the fetched rows of that key whose lowercased level is "town", and the
    "villages" bucket holds the names of all the other fetched rows of that
    key, both in fetch order: no fetched row is dropped. *)
Theorem places_split_town_or_else (places : list FactRow) (key : Z * Z) :
  bucket "towns" key (place_map_of places) =
    map name (filter is_town (places_at key places)) /\
  bucket "villages" key (place_map_of places) =
    map name (filter (fun p => negb (is_town p)) (places_at key places)).
Proof.
  assert (He : place_map_get key (place_map_of places) =
               [("towns", map name (filter is_town (places_at key places)));
                ("villages",
                 map name (filter (fun p => negb (is_town p)) (places_at key places)))]).
  { unfold place_map_get, place_map_of.
    rewrite (fold_left_ext place_row (upsert place_key place_entry))
      by (intros; apply place_row_upsert).
    rewrite upsert_get. simpl od_get.
    apply (place_fold key places None [] []). reflexivity. }
  unfold bucket. rewrite He. split; reflexivity.
Qed.

(** ** Limit and offset *)

Lemma append_assoc (a b c : string) : ((a ++ b) ++ c = a ++ (b ++ c))%string.
Proof. induction a as [|x a IH]; simpl; [reflexivity | now rewrite IH]. Qed.

Lemma append_empty_r (a : string) : (a ++ "" = a)%string.
Proof. induction a as [|x a IH]; simpl; [reflexivity | now rewrite IH]. Qed.

(** C3, counterexample.  The text of the district query changes with the
    limit: the value is part of the text. *)
Lemma limit_is_part_of_the_text : ~ limit_offset_parameterized.
Proof.
  intros [Htext _].
  specialize (Htext ["karnataka"] None (Some 5) None (Some 6) None).
  vm_compute in Htext. discriminate.
Qed.

Lemma validate_bounds (sort_by sort_order : option string) (limit offset : Z) :
  (1 <= limit <= 1000 /\ 0 <= offset) \/
  exists p, validate_states_request sort_by sort_order limit offset
            = Some (RequestValidationError p).
Proof.
  unfold validate_states_request.
  destruct (match sort_by with Some s => negb (mem s sort_by_literal) | None => false end);
    [right; eexists; reflexivity|].
  destruct (match sort_order with Some s => negb (mem s ["asc"; "desc"]) | None => false end);
    [right; eexists; reflexivity|].
  destruct (1 <=? limit) eqn:H1; destruct (limit <=? 1000) eqn:H2; simpl;
    try (right; eexists; reflexivity).
  destruct (0 <=? offset) eqn:H3; simpl; [|right; eexists; reflexivity].
  left. apply Z.leb_le in H1, H2, H3. lia.
Qed.

(** C3, as amended.  [list_states] rejects (422) a limit outside 1..1000 or a
    negative offset before any query is built, and writes the accepted values
    in decimal into the last line of its query text.
    [get_district_population_breakdown] appends " LIMIT n" for a limit other
    than 0 and " OFFSET n" for an offset other than 0 to its query text, and
    the values it binds are the same as without limit and offset (the state
    names and the TRU label): neither endpoint binds limit or offset as a
    parameter. *)
Theorem limit_offset_written_into_text (conn : Connection) (fields : option string)
    (base_field_str : string) (sort_by sort_order : option string) (state_code : option Z)
    (limit offset : Z) (state_values : list string) (tru : option string)
    (dlimit doffset : option Z) :
  ((1 <= limit <= 1000 /\ 0 <= offset) \/
   status (list_states conn fields sort_by sort_order state_code limit offset) = 422) /\
  base_query base_field_str sort_by sort_order state_code limit offset =
    base_query_head base_field_str sort_by sort_order state_code ++
    "        LIMIT " ++ str_of_int limit ++ " OFFSET " ++ str_of_int offset ++ nl ++ "    " /\
  text (district_query state_values tru dlimit doffset) =
    text (district_query state_values tru None None)
      ++ limit_clause dlimit ++ offset_clause doffset /\
  args (district_query state_values tru dlimit doffset) =
    args (district_query state_values tru None None).
Proof.
  split; [|split; [|split]].
  - destruct (validate_bounds sort_by sort_order limit offset) as [Hb|[p Hp]];
      [now left|right].
    unfold list_states. rewrite Hp. reflexivity.
  - unfold base_query, base_query_head. repeat rewrite append_assoc. reflexivity.
  - unfold district_query, limit_clause, offset_clause.
    destruct (truthy tru); cbn [text int_truthy];
      destruct (int_truthy dlimit); destruct (int_truthy doffset);
      repeat rewrite append_assoc; rewrite ?append_empty_r; reflexivity.
  - unfold district_query. destruct (truthy tru); reflexivity.
Qed.

(** A limit of 5000 is served by the district endpoint. *)
Lemma district_limit_is_unbounded (u : Listing DistrictRow) :
  status (get_district_population_breakdown u karnataka "Karnataka" None (Some 5000) None) = 200.
Proof.
  unfold get_district_population_breakdown, fetch_districts_page.
  change (name_list "Karnataka") with ["karnataka"]. cbn [tru_invalid].
  change (district_join karnataka ["karnataka"] None) with (@nil DistrictRow).
  rewrite listed_nil. reflexivity.
Qed.

(** ** State metadata: key order *)

(** C4, counterexample.  The same store answer, the fields "state,name" and
    "name,state": the keys come out in the order of the request. *)
Lemma key_order_follows_request : ~ key_order_ignores_request_order.
Proof.
  intros Hord.
  specialize (Hord (conn_of [karnataka_rural] []) "state,name" "name,state").
  assert (Hperm : Permutation (split "," "state,name") (split "," "name,state")).
  { vm_compute. apply perm_swap. }
  specialize (Hord Hperm). vm_compute in Hord. discriminate.
Qed.

Section Subseq.
Context {A : Type}.

Lemma subseq_nil_l (l : list A) : subseq [] l.
Proof. induction l; [constructor | now apply subseq_skip]. Qed.

Lemma subseq_refl (l : list A) : subseq l l.
Proof. induction l; [constructor | now apply subseq_take]. Qed.

Lemma subseq_app (a b c d : list A) : subseq a b -> subseq c d -> subseq (a ++ c) (b ++ d).
Proof.
  intros Hab Hcd. induction Hab; simpl;
    [exact Hcd | now apply subseq_skip | now apply subseq_take].
Qed.

Lemma subseq_trans (a b c : list A) : subseq a b -> subseq b c -> subseq a c.
Proof.
  intros Hab Hbc. revert a Hab. induction Hbc as [|x b c Hbc IH|x b c Hbc IH]; intros a Hab.
  - exact Hab.
  - constructor. now apply IH.
  - inversion Hab; subst.
    + apply subseq_skip. now apply IH.
    + apply subseq_take. now apply IH.
Qed.

Lemma subseq_filter (p : A -> bool) (l : list A) : subseq (filter p l) l.
Proof.
  induction l as [|x l IH]; simpl; [constructor|].
  destruct (p x); [now apply subseq_take | now apply subseq_skip].
Qed.

Lemma subseq_In (a b : list A) (x : A) : subseq a b -> In x a -> In x b.
Proof.
  intros Hab. induction Hab; simpl; [tauto| |]; intros Hin.
  - right. now apply IHHab.
  - destruct Hin as [->|Hin]; [now left | right; now apply IHHab].
Qed.

Lemma subseq_app_r (a b c : list A) : subseq a b -> subseq a (b ++ c).
Proof.
  intros Hab. rewrite <- (app_nil_r a). apply subseq_app; [exact Hab | apply subseq_nil_l].
Qed.

End Subseq.

Lemma subseq_distinct {A} `{KeyEq A} (l : list A) : subseq (distinct l) l.
Proof.
  induction l as [|x l IH]; simpl; [constructor | apply subseq_take].
  eapply subseq_trans; [apply subseq_filter | exact IH].
Qed.

Lemma fold_set_keys {X V} (kf : X -> string) (vf : X -> V) (xs : list X) (d : odict string V) :
  od_keys (fold_left (fun d x => od_set (kf x) (vf x) d) xs d) =
  fold_left (fun ks x => if in_dec key_eq_dec x ks then ks else (ks ++ [x])%list)
            (map kf xs) (od_keys d).
Proof.
  revert d. induction xs as [|x xs IH]; intros d; simpl; [reflexivity|].
  rewrite IH. f_equal. rewrite od_keys_set.
  destruct (in_dec key_eq_dec (kf x) (od_keys d)) as [Hin|Hni].
  - apply od_mem_keys in Hin. now rewrite Hin.
  - destruct (od_mem (kf x) d) eqn:Hm; [|reflexivity].
    apply od_mem_keys in Hm. contradiction.
Qed.

(** The keys of a fetched record: the select list, repeats merged. *)
Lemma record_dict_keys (cols : list string) (r : FactRow) :
  od_keys (record_dict cols r) = distinct cols.
Proof.
  unfold record_dict.
  rewrite (fold_set_keys (fun c => c) (fun c => column c r)). rewrite map_id.
  rewrite (distinct_fold _ cols []) by reflexivity. simpl.
  generalize (distinct cols). intros L. induction L as [|x t IH]; simpl; congruence.
Qed.

(** [d.update(e)] keeps the keys of [d] in place and adds the new keys of [e]
    after them, in the order of [e]. *)
Lemma od_merge_keys (d e : odict string json) :
  NoDup (od_keys d) ->
  exists ks, od_keys (od_merge d e) = (od_keys d ++ ks)%list /\
             subseq ks (od_keys e) /\ NoDup (od_keys d ++ ks).
Proof.
  intros Hnd. unfold od_merge.
  exists (filter (fun x => if in_dec key_eq_dec x (od_keys d) then false else true)
                 (distinct (od_keys e))).
  assert (Hk : od_keys (fold_left (fun acc kv => od_set (fst kv) (snd kv) acc) e d) =
               (od_keys d ++ filter (fun x => if in_dec key_eq_dec x (od_keys d)
                                              then false else true)
                                    (distinct (od_keys e)))%list).
  { rewrite (fold_set_keys fst snd).
    now rewrite (distinct_fold _ (map fst e) (od_keys d)) by reflexivity. }
  split; [exact Hk|]. split.
  - eapply subseq_trans; [apply subseq_filter | apply subseq_distinct].
  - rewrite <- Hk. clear Hk. revert d Hnd.
    induction e as [|[k v] e IH]; intros d Hnd; simpl; [exact Hnd|].
    apply IH. now apply od_keys_set_NoDup.
Qed.

Lemma count_row_inv (processed : list string) (field : string)
    (counts : odict Z (odict string json)) (row : Z * Z) :
  counts_inv_mid processed field counts ->
  counts_inv_mid processed field (count_row field counts row).
Proof.
  intros Hinv st d Hget. unfold count_row in Hget. rewrite od_get_set in Hget.
  destruct (key_eq_dec st (fst row)) as [->|Hn]; [|now apply (Hinv st)].
  injection Hget as <-. rewrite od_keys_set.
  destruct (od_get (fst row) counts) as [d0|] eqn:Hd0.
  - specialize (Hinv _ _ Hd0). destruct (od_mem field d0) eqn:Hm; [exact Hinv|].
    destruct Hinv as [Hs|[ks [Hks Hs]]].
    + right. exists (od_keys d0). tauto.
    + exfalso. assert (Hin : In field (od_keys d0)).
      { rewrite Hks. apply in_or_app. right. now left. }
      apply od_mem_keys in Hin. congruence.
  - right. exists []. split; [reflexivity | apply subseq_nil_l].
Qed.

Lemma count_rows_inv (processed : list string) (field : string) (rows : list (Z * Z))
    (counts : odict Z (odict string json)) :
  counts_inv_mid processed field counts ->
  counts_inv_mid processed field (fold_left (count_row field) rows counts).
Proof.
  revert counts. induction rows as [|row rows IH]; intros counts Hinv; simpl; [exact Hinv|].
  apply IH. now apply count_row_inv.
Qed.

Lemma count_field_inv (conn : Connection) (processed : list string) (field : string)
    (counts counts' : odict Z (odict string json)) :
  counts_inv processed counts ->
  count_field conn counts field = Ok counts' ->
  counts_inv (processed ++ [field]) counts'.
Proof.
  intros Hinv Hcf. unfold count_field in Hcf.
  destruct (od_get field count_fields) as [[code_column level_name]|]; [|discriminate].
  destruct (fetch_count conn _ _) as [rows|e]; [|discriminate].
  simpl in Hcf. injection Hcf as <-.
  assert (Hmid : counts_inv_mid processed field counts).
  { intros st d Hget. left. now apply (Hinv st). }
  apply (count_rows_inv _ _ rows) in Hmid.
  intros st d Hget. destruct (Hmid st d Hget) as [Hs|[ks [Hks Hs]]].
  - now apply subseq_app_r.
  - rewrite Hks. apply subseq_app; [exact Hs | apply subseq_refl].
Qed.

Lemma count_fields_inv (conn : Connection) (fields processed : list string)
    (counts counts' : odict Z (odict string json)) :
  counts_inv processed counts ->
  foldM (count_field conn) fields counts = Ok counts' ->
  counts_inv (processed ++ fields) counts'.
Proof.
  revert processed counts. induction fields as [|f fields IH]; intros processed counts Hinv Hf.
  - simpl in Hf. injection Hf as <-. now rewrite app_nil_r.
  - simpl in Hf. destruct (count_field conn counts f) as [c1|e] eqn:Hc; [|discriminate].
    simpl in Hf. replace (processed ++ f :: fields)%list with ((processed ++ [f]) ++ fields)%list
      by (rewrite <- app_assoc; reflexivity).
    apply (IH _ c1); [|exact Hf]. now apply (count_field_inv conn processed f counts).
Qed.

Lemma mapM_In {A B} (f : A -> result B) (l : list A) (l' : list B) (y : B) :
  mapM f l = Ok l' -> In y l' -> exists x, In x l /\ f x = Ok y.
Proof.
  revert l'. induction l as [|x l IH]; intros l' Hm Hin; simpl in Hm.
  - injection Hm as <-. contradiction.
  - destruct (f x) as [y0|e] eqn:Hfx; [|discriminate]. simpl in Hm.
    destruct (mapM f l) as [ys|e]; [|discriminate]. simpl in Hm.
    injection Hm as <-. destruct Hin as [<-|Hin].
    + exists x. split; [now left | exact Hfx].
    + destruct (IH ys eq_refl Hin) as [x' [Hx' Hfx']]. exists x'. split; [now right | exact Hfx'].
Qed.

Lemma mem_In (x : string) (l : list string) : mem x l = true -> In x l.
Proof.
  unfold mem. intros Hm. apply existsb_exists in Hm. destruct Hm as [y [Hy He]].
  apply String.eqb_eq in He. now subst.
Qed.

Lemma not_In_mem (x : string) (l : list string) : ~ In x l -> mem x l = false.
Proof.
  intros Hni. destruct (mem x l) eqn:Hm; [|reflexivity]. apply mem_In in Hm. contradiction.
Qed.

Lemma selected_of_In (fields k : string) :
  In k (selected_of fields) ->
  In k allowed_fields /\ exists f, In f (split "," fields) /\ strip f = k.
Proof.
  unfold selected_of. intros Hin. apply in_map_iff in Hin. destruct Hin as [f [Hf Hin]].
  apply filter_In in Hin. destruct Hin as [Hin Hm]. split.
  - rewrite <- Hf. now apply mem_In.
  - exists f. tauto.
Qed.

(** C4, as amended.  For a request with a field list, every object of a
    successful response has as keys, without repeats: first the caller's base
    columns (state, name, level) in the caller's order, then count fields in
    an order in which the caller listed them.  Each key is in the allow-list
    and is one of the caller's fields (stripped). *)
Theorem projected_keys_follow_request (conn : Connection) (fields : string)
    (sort_by sort_order : option string) (state_code : option Z) (limit offset : Z)
    (objs : list json) :
  nonempty fields = true ->
  list_states conn (Some fields) sort_by sort_order state_code limit offset
    = JSONResponse (JList objs) ->
  forall ob, In ob objs ->
    exists d ks,
      ob = JObj d /\
      od_keys d = (distinct (selected_base_of fields) ++ ks)%list /\
      subseq ks (selected_counts_of fields) /\
      NoDup (od_keys d) /\
      (forall k, In k (od_keys d) ->
         In k allowed_fields /\ exists f, In f (split "," fields) /\ strip f = k).
Proof.
  intros Hne Hresp ob Hob. unfold list_states in Hresp.
  destruct (validate_states_request sort_by sort_order limit offset); [discriminate|].
  cbn [truthy] in Hresp. rewrite Hne in Hresp.
  fold (selected_base_of fields) in Hresp.
  destruct (selected_of fields) as [|f0 fs] eqn:Hsel; [discriminate|].
  fold (selected_base_of fields) in Hresp. rewrite <- Hsel in Hresp.
  fold (selected_base_of fields) (selected_counts_of fields) in Hresp.
  destruct (fetch conn _) as [base_rows|e]; [|discriminate].
  cbn [bind] in Hresp.
  destruct (foldM (count_field conn) (selected_counts_of fields) []) as [counts|e] eqn:Hc;
    [|discriminate].
  cbn [bind] in Hresp.
  destruct (mapM (merge_counts counts) _) as [results|e] eqn:Hm; [|discriminate].
  cbn [bind except_Exception] in Hresp. injection Hresp as <-.
  apply in_map_iff in Hob. destruct Hob as [d [<- Hd]].
  destruct (mapM_In _ _ _ d Hm Hd) as [res [Hres Hmerge]].
  apply in_map_iff in Hres. destruct Hres as [r [<- _]].
  unfold merge_counts in Hmerge.
  destruct (od_get "state" (record_dict (selected_base_of fields) r)) as [st_code|];
    [|discriminate].
  injection Hmerge as <-.
  set (extra := match st_code with
                | JInt c => match od_get c counts with Some d0 => d0 | None => [] end
                | _ => []
                end).
  assert (Hextra : subseq (od_keys extra) (selected_counts_of fields)).
  { apply (count_fields_inv conn _ [] [] counts) in Hc; [|intros st d0 Hg; discriminate].
    simpl in Hc. subst extra. destruct st_code; try apply subseq_nil_l.
    destruct (od_get n counts) as [d0|] eqn:Hd0; [|apply subseq_nil_l].
    now apply (Hc n). }
  destruct (od_merge_keys (record_dict (selected_base_of fields) r) extra) as [ks [Hk [Hs Hnd]]].
  { rewrite record_dict_keys. apply distinct_NoDup. }
  rewrite record_dict_keys in Hk, Hnd.
  exists (od_merge (record_dict (selected_base_of fields) r) extra), ks.
  split; [reflexivity|]. split; [exact Hk|].
  split; [eapply subseq_trans; eassumption|].
  split; [now rewrite Hk|].
  intros k Hin. rewrite Hk in Hin. apply selected_of_In.
  apply in_app_or in Hin. destruct Hin as [Hin|Hin].
  - apply (proj1 (distinct_In _ _)) in Hin. unfold selected_base_of in Hin.
    apply filter_In in Hin. tauto.
  - apply (subseq_In _ _ k (subseq_trans _ _ _ Hs Hextra)) in Hin.
    unfold selected_counts_of in Hin. apply filter_In in Hin. tauto.
Qed.

Lemma projected_keys_follow_request_witness :
  exists d ks,
    JObj [("name", JStr "Karnataka"); ("state", JInt 1); ("district_count", JInt 30)] = JObj d /\
    od_keys d = (distinct (selected_base_of "district_count, name,state") ++ ks)%list /\
    subseq ks (selected_counts_of "district_count, name,state") /\
    NoDup (od_keys d) /\
    (forall k, In k (od_keys d) ->
       In k allowed_fields /\
       exists f, In f (split "," "district_count, name,state") /\ strip f = k).
Proof.
  apply (projected_keys_follow_request (conn_of [karnataka_rural] [(1, 30)])
           "district_count, name,state" None None None 100 0
           [JObj [("name", JStr "Karnataka"); ("state", JInt 1); ("district_count", JInt 30)]]).
  - reflexivity.
  - reflexivity.
  - left. reflexivity.
Defined.

(** ** Order of the fetched rows *)

(** C7, counterexample.  Two rows of state 1 with different TRU labels (the
    uniqueness invariant holds) and differently spelt names: the grouped
    object takes the name of whichever row is fetched first, so the reversed
    sequence gives another mapping. *)
Lemma first_fetched_name_wins : ~ grouping_ignores_order.
Proof.
  intros Hord.
  specialize (Hord karnataka_two_spellings (rev karnataka_two_spellings)).
  assert (Hu : unique_rows karnataka_two_spellings).
  { unfold unique_rows. vm_compute. repeat constructor; simpl; intuition discriminate. }
  specialize (Hord Hu (Permutation_rev _)). vm_compute in Hord. discriminate.
Qed.

Lemma py_eq_obj (d1 d2 : odict string json) :
  List.length d1 = List.length d2 ->
  (forall k v, In (k, v) d1 -> exists v2, od_get k d2 = Some v2 /\ py_eq v v2 = true) ->
  py_eq (JObj d1) (JObj d2) = true.
Proof.
  intros Hlen Hall. cbn [py_eq]. rewrite Hlen, Nat.eqb_refl. cbn [andb]. clear Hlen.
  induction d1 as [|[k v] t IH]; [reflexivity|].
  destruct (Hall k v (or_introl eq_refl)) as [v2 [Hg Hv]]. rewrite Hg, Hv. cbn [andb].
  apply IH. intros k' v' Hin. apply Hall. now right.
Qed.

Lemma py_eq_block_refl (p m f : Z) : py_eq (block p m f) (block p m f) = true.
Proof. unfold block. cbn. now rewrite !Z.eqb_refl. Qed.

Lemma NoDup_map_inj {A B} (f : A -> B) (l : list A) (x y : A) :
  NoDup (map f l) -> In x l -> In y l -> f x = f y -> x = y.
Proof.
  induction l as [|a l IH]; simpl; [tauto|]. intros Hnd Hx Hy Hf.
  inversion Hnd as [|? ? Hni Hnd']; subst.
  destruct Hx as [->|Hx], Hy as [->|Hy]; try reflexivity.
  - exfalso. apply Hni. rewrite Hf. now apply in_map.
  - exfalso. apply Hni. rewrite <- Hf. now apply in_map.
  - now apply IH.
Qed.

Section OrderIndependent.
Variable fe : FactRow -> option (odict string json) -> odict string json.
Variable val : FactRow -> json.
Variable wrap : FactRow -> odict string json -> odict string json.
Hypothesis fe_new : forall r, fe r None = wrap r (od_set (ltru r) (val r) []).
Hypothesis fe_old :
  forall r0 r d, fe r (Some (wrap r0 d)) = wrap r0 (od_set (ltru r) (val r) d).
Hypothesis val_refl : forall r, py_eq (val r) (val r) = true.
Hypothesis wrap_eq :
  forall r0 r0' d d',
    name r0' = name r0 -> state r0' = state r0 ->
    py_eq (JObj d') (JObj d) = true ->
    py_eq (JObj (wrap r0' d')) (JObj (wrap r0 d)) = true.

Lemma grouped_keys_iff (rows : list FactRow) (k : Z) :
  In k (od_keys (fold_left (upsert state fe) rows [])) <->
  exists r, In r rows /\ state r = k.
Proof.
  split.
  - intros Hin. apply upsert_keys_in in Hin. destruct Hin as [[]|Hin]. exact Hin.
  - intros [r [Hin Hk]].
    destruct (in_dec key_eq_dec k (od_keys (fold_left (upsert state fe) rows [])))
      as [Hk'|Hk']; [exact Hk'|].
    apply od_get_None_keys in Hk'.
    rewrite (grouped_get state fe val wrap fe_new fe_old) in Hk'.
    assert (Hg : In r (group_of state k rows)) by (apply group_of_In; tauto).
    destruct (group_of state k rows); [contradiction|discriminate].
Qed.

(** Two groups with the same rows, one row per TRU label, leave dictionaries
    that are equal as mappings. *)
Lemma tru_dict_perm (rows : list FactRow) (k : Z) (G G' : list FactRow) :
  unique_rows rows ->
  (forall r, In r G -> In r rows /\ state r = k) ->
  (forall r, In r G' <-> In r G) ->
  py_eq (JObj (tru_dict val G')) (JObj (tru_dict val G)) = true.
Proof.
  intros Hu HG Hsame. apply py_eq_obj.
  - rewrite <- (length_map fst (tru_dict val G')), <- (length_map fst (tru_dict val G)).
    change (map fst (tru_dict val G')) with (od_keys (tru_dict val G')).
    change (map fst (tru_dict val G)) with (od_keys (tru_dict val G)).
    rewrite !tru_dict_keys. apply Permutation_length.
    apply NoDup_Permutation; try apply distinct_NoDup.
    intros l. rewrite !distinct_In, !in_map_iff.
    split; intros [r [Hl Hin]]; exists r; split; try exact Hl; now apply Hsame.
  - intros l v Hin.
    apply od_In_get in Hin; [|rewrite tru_dict_keys; apply distinct_NoDup].
    apply tru_dict_get in Hin. destruct Hin as [r [Hr [Hl Hv]]].
    assert (HrG : In r G) by now apply Hsame.
    destruct (od_get l (tru_dict val G)) as [v2|] eqn:Hg.
    + exists v2. split; [reflexivity|].
      apply tru_dict_get in Hg. destruct Hg as [r2 [Hr2 [Hl2 Hv2]]].
      assert (r2 = r).
      { apply (NoDup_map_inj (fun r => (state r, ltru r)) rows); try exact Hu.
        - now apply HG.
        - now apply HG.
        - destruct (HG _ Hr2) as [_ ->]. destruct (HG _ HrG) as [_ ->]. congruence. }
      subst. apply val_refl.
    + exfalso. apply od_get_None_keys in Hg. apply Hg. rewrite tru_dict_keys.
      apply distinct_In. rewrite <- Hl. now apply in_map.
Qed.

Lemma grouped_perm (rows rows' : list FactRow) :
  unique_rows rows -> names_agree rows -> Permutation rows rows' ->
  grouped_eq (fold_left (upsert state fe) rows' []) (fold_left (upsert state fe) rows [])
  = true.
Proof.
  intros Hu Hn Hp. unfold grouped_eq. apply andb_true_intro. split.
  - apply Nat.eqb_eq.
    rewrite <- (length_map fst (fold_left (upsert state fe) rows' [])),
            <- (length_map fst (fold_left (upsert state fe) rows [])).
    apply Permutation_length. apply NoDup_Permutation.
    + apply (upsert_NoDup state fe). constructor.
    + apply (upsert_NoDup state fe). constructor.
    + intros k.
      change (In k (od_keys (fold_left (upsert state fe) rows' [])) <->
              In k (od_keys (fold_left (upsert state fe) rows []))).
      rewrite !grouped_keys_iff. split; intros [r [Hin Hk]]; exists r; split; try exact Hk.
      * apply (Permutation_in r (Permutation_sym Hp) Hin).
      * apply (Permutation_in r Hp Hin).
  - apply forallb_forall. intros [k e'] Hin. cbn [fst snd].
    apply od_In_get in Hin; [|apply (upsert_NoDup state fe); constructor].
    rewrite (grouped_get state fe val wrap fe_new fe_old) in Hin.
    destruct (group_of state k rows') as [|r0' grp'] eqn:HG'; [discriminate|].
    injection Hin as <-.
    assert (H0' : In r0' rows /\ state r0' = k).
    { assert (Hi : In r0' (group_of state k rows')) by (rewrite HG'; now left).
      apply group_of_In in Hi. destruct Hi as [Hi Hk]. split; [|exact Hk].
      apply (Permutation_in r0' (Permutation_sym Hp) Hi). }
    rewrite (grouped_get state fe val wrap fe_new fe_old).
    destruct (group_of state k rows) as [|r0 grp] eqn:HG.
    { exfalso. assert (Hi : In r0' (group_of state k rows)) by (apply group_of_In; exact H0').
      rewrite HG in Hi. contradiction. }
    assert (H0 : In r0 rows /\ state r0 = k).
    { apply (group_of_In state). rewrite HG. now left. }
    apply wrap_eq.
    + apply Hn; try tauto. destruct H0' as [_ ->]. destruct H0 as [_ ->]. reflexivity.
    + destruct H0' as [_ ->]. destruct H0 as [_ ->]. reflexivity.
    + apply (tru_dict_perm rows k); [exact Hu| |].
      * intros r Hr. apply (group_of_In state). now rewrite HG.
      * intros r. rewrite <- HG, <- HG'. rewrite !group_of_In.
        split; intros [Hi Hk]; split; try exact Hk.
        -- apply (Permutation_in r (Permutation_sym Hp) Hi).
        -- apply (Permutation_in r Hp Hi).
Qed.

End OrderIndependent.

Lemma gender_grouped_upsert rows :
  gender_grouped rows = fold_left (upsert state gender_entry) rows [].
Proof. reflexivity. Qed.

Lemma workers_grouped_upsert rows :
  workers_grouped rows = fold_left (upsert state workers_entry) rows [].
Proof. apply fold_left_ext. intros g r. apply workers_row_upsert. Qed.

Lemma gender_entry_new r : gender_entry r None = gender_obj r (od_set (ltru r) (gender_val r) []).
Proof. reflexivity. Qed.

Lemma gender_entry_old r0 r d :
  gender_entry r (Some (gender_obj r0 d)) = gender_obj r0 (od_set (ltru r) (gender_val r) d).
Proof. reflexivity. Qed.

Lemma workers_entry_new r :
  workers_entry r None = workers_obj r (od_set (ltru r) (workers_val r) []).
Proof. reflexivity. Qed.

Lemma workers_entry_old r0 r d :
  workers_entry r (Some (workers_obj r0 d)) = workers_obj r0 (od_set (ltru r) (workers_val r) d).
Proof. reflexivity. Qed.

Lemma gender_obj_eq r0 r0' d d' :
  name r0' = name r0 -> state r0' = state r0 ->
  py_eq (JObj d') (JObj d) = true ->
  py_eq (JObj (gender_obj r0' d')) (JObj (gender_obj r0 d)) = true.
Proof.
  intros Hn Hs Hd. apply py_eq_obj; [reflexivity|].
  intros k v Hin. unfold gender_obj in *. rewrite Hn, Hs in Hin.
  destruct Hin as [E|[E|[E|[]]]]; injection E as <- <-; eexists; (split; [reflexivity|]).
  - exact Hd.
  - apply String.eqb_refl.
  - apply Z.eqb_refl.
Qed.

Lemma workers_obj_eq r0 r0' d d' :
  name r0' = name r0 -> state r0' = state r0 ->
  py_eq (JObj d') (JObj d) = true ->
  py_eq (JObj (workers_obj r0' d')) (JObj (workers_obj r0 d)) = true.
Proof.
  intros Hn Hs Hd. apply py_eq_obj; [reflexivity|].
  intros k v Hin. unfold workers_obj in *. rewrite Hn, Hs in Hin.
  destruct Hin as [E|[E|[E|[]]]]; injection E as <- <-; eexists; (split; [reflexivity|]).
  - apply String.eqb_refl.
  - apply Z.eqb_refl.
  - exact Hd.
Qed.

(** C7, as amended.  For fetched state rows with at most one row per state
    code and TRU label, in which the rows of one state code carry the same
    display name, the grouping loops of [get_state_gender_population] and of
    [get_state_workers] give, on any permutation of the rows, a dictionary
    equal (as a mapping, [==]) to the one they give on the original order. *)
Theorem grouping_is_order_independent (rows rows' : list FactRow) :
  unique_rows rows -> names_agree rows -> Permutation rows rows' ->
  grouped_eq (gender_grouped rows') (gender_grouped rows) = true /\
  grouped_eq (workers_grouped rows') (workers_grouped rows) = true.
Proof.
  intros Hu Hn Hp. split.
  - rewrite !gender_grouped_upsert.
    apply (grouped_perm gender_entry gender_val gender_obj gender_entry_new gender_entry_old);
      try assumption.
    + intros r. apply py_eq_block_refl.
    + apply gender_obj_eq.
  - rewrite !workers_grouped_upsert.
    apply (grouped_perm workers_entry workers_val workers_obj
             workers_entry_new workers_entry_old); try assumption.
    + intros r. apply py_eq_block_refl.
    + apply workers_obj_eq.
Qed.

Lemma grouping_is_order_independent_witness :
  grouped_eq (gender_grouped (rev karnataka)) (gender_grouped karnataka) = true /\
  grouped_eq (workers_grouped (rev karnataka)) (workers_grouped karnataka) = true.
Proof.
  apply (grouping_is_order_independent karnataka (rev karnataka)).
  - unfold unique_rows. vm_compute. repeat constructor; simpl; intuition discriminate.
  - intros r1 r2 H1 H2 _. simpl in H1, H2.
    destruct H1 as [<-|[<-|[]]]; destruct H2 as [<-|[<-|[]]]; reflexivity.
  - apply Permutation_rev.
Defined.

(** ** Flat or nested *)

(** C1, counterexample.  [tru=rural] on the gender endpoint: the emitted
    object still nests its block under the key "rural". *)
Lemma fixed_tru_still_nested : ~ flat_when_fixed karnataka "Karnataka" "rural".
Proof.
  intros Hflat.
  destruct (Hflat (JObj (gender_obj karnataka_rural
                           [("rural", gender_val karnataka_rural)])))
    as [r [Hin Hget]].
  - vm_compute. left. reflexivity.
  - simpl in Hin. destruct Hin as [<-|[<-|[]]]; vm_compute in Hget; discriminate.
Qed.

Lemma fold_left_ext_in {A B} (f g : A -> B -> A) (l : list B) (a : A) :
  (forall a b, In b l -> f a b = g a b) -> fold_left f l a = fold_left g l a.
Proof.
  revert a. induction l as [|b l IH]; intros a Hfg; simpl; [reflexivity|].
  rewrite Hfg by now left. apply IH. intros a' b' Hin. apply Hfg. now right.
Qed.

Lemma upsert_keys_mono {R K Ent} `{KeyEq K} (key : R -> K) (f : R -> option Ent -> Ent)
    (rows : list R) (g : odict K Ent) (k : K) :
  In k (od_keys g) -> In k (od_keys (fold_left (upsert key f) rows g)).
Proof.
  revert g. induction rows as [|r rows IH]; intros g Hin; simpl; [exact Hin|].
  apply IH. unfold upsert. rewrite od_keys_set.
  destruct (od_mem (key r) g); [exact Hin | apply in_or_app; now left].
Qed.

Lemma upsert_keys_has {R K Ent} `{KeyEq K} (key : R -> K) (f : R -> option Ent -> Ent)
    (rows : list R) (g : odict K Ent) (r : R) :
  In r rows -> In (key r) (od_keys (fold_left (upsert key f) rows g)).
Proof.
  revert g. induction rows as [|r' rows IH]; intros g Hin; simpl; [contradiction|].
  destruct Hin as [->|Hin]; [|now apply IH].
  apply upsert_keys_mono. unfold upsert. rewrite od_keys_set.
  destruct (od_mem (key r) g) eqn:Hm; [now apply od_mem_keys|].
  apply in_or_app. right. now left.
Qed.

Lemma upsert_nonempty {R K Ent} `{KeyEq K} (key : R -> K) (f : R -> option Ent -> Ent)
    (rows : list R) :
  rows <> [] -> fold_left (upsert key f) rows [] <> [].
Proof.
  destruct rows as [|r rows]; [congruence|]. intros _ Hnil.
  pose proof (upsert_keys_has key f (r :: rows) [] r (or_introl eq_refl)) as Hin.
  rewrite Hnil in Hin. contradiction.
Qed.

Lemma group_of_incl {K} `{KeyEq K} (key : FactRow -> K) (k : K) (rows : list FactRow) :
  incl (group_of key k rows) rows.
Proof. intros r Hr. apply group_of_In in Hr. tauto. Qed.

Lemma map_nonempty {A B} (f : A -> B) (l : list A) : l <> [] -> map f l <> [].
Proof. destruct l; [congruence | discriminate]. Qed.

Lemma find_app {A} (p : A -> bool) (l1 l2 : list A) :
  find p (l1 ++ l2) = match find p l1 with Some x => Some x | None => find p l2 end.
Proof. induction l1 as [|x l1 IH]; simpl; [reflexivity|]. now destruct (p x). Qed.

Lemma tru_dict_last_from (val : FactRow -> json) (G : list FactRow) (d : odict string json)
    (l : string) :
  od_get l (fold_left (fun d r => od_set (ltru r) (val r) d) G d) =
  match last_with_label l G with
  | Some r => Some (val r)
  | None => od_get l d
  end.
Proof.
  unfold last_with_label. revert d. induction G as [|r G IH]; intros d; [reflexivity|].
  cbn [fold_left rev]. rewrite IH, find_app.
  destruct (find (fun r0 => (ltru r0 =? l)%string) (rev G)); [reflexivity|].
  cbn [find]. rewrite od_get_set.
  destruct (key_eq_dec l (ltru r)) as [->|Hn].
  - now rewrite String.eqb_refl.
  - destruct (ltru r =? l)%string eqn:He; [|reflexivity].
    apply String.eqb_eq in He. congruence.
Qed.

Lemma tru_dict_last (val : FactRow -> json) (G : list FactRow) (l : string) :
  od_get l (tru_dict val G) = option_map val (last_with_label l G).
Proof.
  unfold tru_dict. rewrite tru_dict_last_from. now destruct (last_with_label l G).
Qed.

Lemma last_indep {A} (l : list A) (a b : A) : l <> [] -> last l a = last l b.
Proof.
  induction l as [|x l IH]; [congruence|]. intros _.
  destruct l as [|y l]; [reflexivity|]. cbn [last]. apply IH. discriminate.
Qed.

Lemma fold_last {R Ent} (g : R -> Ent) (G : list R) (r0 : R) (o : option Ent) :
  fold_left (fun _ r => Some (g r)) G (Some (g r0)) = Some (g (last G r0)).
Proof.
  revert r0. induction G as [|r G IH]; intros r0; [reflexivity|].
  cbn [fold_left]. rewrite IH. destruct G as [|r1 G]; [reflexivity|].
  do 2 f_equal. change (last (r :: r1 :: G) r0) with (last (r1 :: G) r0).
  apply last_indep. discriminate.
Qed.

Section Nested.
Context {K : Type} `{KeyEq K}.
Variable key : FactRow -> K.
Variable fe : FactRow -> option (odict string json) -> odict string json.
Variable val : FactRow -> json.
Variable wrap : FactRow -> odict string json -> odict string json.
Variable metric : string.
Hypothesis fe_new : forall r, fe r None = wrap r (od_set (ltru r) (val r) []).
Hypothesis fe_old :
  forall r0 r d, fe r (Some (wrap r0 d)) = wrap r0 (od_set (ltru r) (val r) d).
Hypothesis wrap_shape :
  forall r0 d,
    od_get "state" (wrap r0 d) = Some (JInt (state r0)) /\
    od_get "tru" (wrap r0 d) = None /\
    od_get metric (wrap r0 d) = Some (JObj d).

(** A group's object nests its dictionary under the metric. *)
Lemma wrap_nested (rows : list FactRow) (r0 : FactRow) (grp : list FactRow) :
  (forall r, In r rows -> In (ltru r) allowed_tru) ->
  group_of key (key r0) rows = r0 :: grp ->
  nested_under key metric val rows (JObj (wrap r0 (tru_dict val (r0 :: grp)))).
Proof.
  intros Hlab HG. exists r0, grp, (tru_dict val (r0 :: grp)).
  destruct (wrap_shape r0 (tru_dict val (r0 :: grp))) as [Hs [Ht Hm]].
  split; [exact HG|]. split; [exact Hs|]. split; [exact Ht|]. split; [exact Hm|].
  split; [apply tru_dict_keys|]. split.
  - intros l Hl. rewrite tru_dict_keys in Hl. apply (proj1 (distinct_In _ _)) in Hl.
    apply in_map_iff in Hl. destruct Hl as [r [<- Hr]]. apply Hlab.
    apply (group_of_incl key (key r0)). now rewrite HG.
  - intros l. apply tru_dict_last.
Qed.

(** The objects a grouping loop of this form emits are nested. *)
Lemma engine_nested (rows : list FactRow) :
  (forall r, In r rows -> In (ltru r) allowed_tru) ->
  rows <> [] ->
  map JObj (od_values (fold_left (upsert key fe) rows [])) <> [] /\
  Forall (nested_under key metric val rows)
         (map JObj (od_values (fold_left (upsert key fe) rows []))).
Proof.
  intros Hlab Hne. split.
  - apply map_nonempty. unfold od_values. apply map_nonempty. now apply upsert_nonempty.
  - apply Forall_forall. intros o Ho. apply in_map_iff in Ho. destruct Ho as [e [<- He]].
    apply (grouped_values key fe val wrap fe_new fe_old) in He.
    destruct He as [k [r0 [grp [Hg ->]]]].
    assert (Hk : key r0 = k).
    { apply (group_of_In key k rows r0). rewrite Hg. now left. }
    subst k. now apply wrap_nested.
Qed.

End Nested.

Lemma caste_grouped_upsert rows :
  caste_grouped rows = fold_left (upsert state caste_entry) rows [].
Proof. apply fold_left_ext. intros g r. apply caste_row_upsert. Qed.

Lemma non_workers_grouped_upsert rows :
  non_workers_grouped rows = fold_left (upsert non_workers_key non_workers_entry) rows [].
Proof. apply fold_left_ext. intros g r. apply non_workers_row_upsert. Qed.

Lemma caste_entry_new r : caste_entry r None = caste_obj r (od_set (ltru r) (caste_block r) []).
Proof. reflexivity. Qed.

Lemma caste_entry_old r0 r d :
  caste_entry r (Some (caste_obj r0 d)) = caste_obj r0 (od_set (ltru r) (caste_block r) d).
Proof. reflexivity. Qed.

Lemma non_workers_entry_new r :
  non_workers_entry r None = non_workers_obj r (od_set (ltru r) (non_workers_val r) []).
Proof. reflexivity. Qed.

Lemma non_workers_entry_old r0 r d :
  non_workers_entry r (Some (non_workers_obj r0 d)) =
  non_workers_obj r0 (od_set (ltru r) (non_workers_val r) d).
Proof. reflexivity. Qed.

(** What the handlers answer to a valid request that fetches rows. *)

Section Responses.
Variable db : Table.
Variable states : string.
Variable tru : option string.
Hypothesis names_given : name_list states <> [].
Hypothesis tru_valid : tru_invalid tru = false.
Hypothesis rows_fetched : fetch_state_rows db (name_list states) (tru_param tru) <> [].

Lemma gender_response :
  get_state_gender_population db states tru =
  JSONResponse (JList (map JObj (od_values (gender_grouped
    (fetch_state_rows db (name_list states) (tru_param tru)))))).
Proof.
  unfold get_state_gender_population. rewrite tru_valid.
  destruct (name_list states) as [|n ns]; [congruence|].
  destruct (fetch_state_rows db (n :: ns) (tru_param tru)); [congruence|reflexivity].
Qed.

Lemma workers_response :
  get_state_workers db states tru =
  JSONResponse (JList (map JObj (od_values (workers_grouped
    (fetch_state_rows db (name_list states) (tru_param tru)))))).
Proof.
  unfold get_state_workers. rewrite tru_valid.
  destruct (name_list states) as [|n ns]; [congruence|].
  destruct (fetch_state_rows db (n :: ns) (tru_param tru)); [congruence|reflexivity].
Qed.

Lemma caste_response :
  get_state_caste_population db states tru =
  JSONResponse (JList (map JObj (od_values (caste_grouped
    (fetch_state_rows db (name_list states) (tru_param tru)))))).
Proof.
  unfold get_state_caste_population. rewrite tru_valid.
  destruct (name_list states) as [|n ns]; [congruence|].
  destruct (fetch_state_rows db (n :: ns) (tru_param tru)); [congruence|reflexivity].
Qed.

Lemma non_workers_response :
  get_state_non_workers db states tru =
  JSONResponse (JList (map JObj (od_values (non_workers_grouped
    (fetch_state_rows db (name_list states) (tru_param tru)))))).
Proof.
  unfold get_state_non_workers. rewrite tru_valid.
  destruct (name_list states) as [|n ns]; [congruence|].
  destruct (fetch_state_rows db (n :: ns) (tru_param tru)); [congruence|reflexivity].
Qed.

Lemma households_response :
  get_state_households db states tru =
  JSONResponse (JList (map JObj (od_values (households_grouped tru
    (fetch_state_rows db (name_list states) (tru_param tru)))))).
Proof.
  unfold get_state_households. rewrite tru_valid.
  destruct (name_list states) as [|n ns]; [congruence|].
  destruct (fetch_state_rows db (n :: ns) (tru_param tru)); [congruence|reflexivity].
Qed.

Lemma literacy_response :
  get_state_literacy db states tru =
  JSONResponse (JList (map (fun kd => JObj (literacy_obj tru kd))
    (literacy_grouped tru (fetch_state_rows db (name_list states) (tru_param tru))))).
Proof.
  unfold get_state_literacy. rewrite tru_valid.
  destruct (name_list states) as [|n ns]; [congruence|].
  destruct (fetch_state_rows db (n :: ns) (tru_param tru)); [congruence|reflexivity].
Qed.

End Responses.

Lemma fetched_labelled (db : Table) (values : list string) (t : option string) :
  labelled db -> forall r, In r (fetch_state_rows db values t) -> In (ltru r) allowed_tru.
Proof.
  intros Hlab r Hr. unfold fetch_state_rows in Hr. apply filter_In in Hr. apply Hlab. tauto.
Qed.

(** The four endpoints that nest whatever the request's [tru]. *)

Lemma gender_nested (rows : list FactRow) :
  (forall r, In r rows -> In (ltru r) allowed_tru) -> rows <> [] ->
  map JObj (od_values (gender_grouped rows)) <> [] /\
  Forall (nested_under state "population" gender_val rows)
         (map JObj (od_values (gender_grouped rows))).
Proof.
  rewrite gender_grouped_upsert.
  apply (engine_nested state gender_entry gender_val gender_obj "population"
           gender_entry_new gender_entry_old).
  intros r0 d. repeat split.
Qed.

Lemma workers_nested (rows : list FactRow) :
  (forall r, In r rows -> In (ltru r) allowed_tru) -> rows <> [] ->
  map JObj (od_values (workers_grouped rows)) <> [] /\
  Forall (nested_under state "workers" workers_val rows)
         (map JObj (od_values (workers_grouped rows))).
Proof.
  rewrite workers_grouped_upsert.
  apply (engine_nested state workers_entry workers_val workers_obj "workers"
           workers_entry_new workers_entry_old).
  intros r0 d. repeat split.
Qed.

Lemma caste_nested (rows : list FactRow) :
  (forall r, In r rows -> In (ltru r) allowed_tru) -> rows <> [] ->
  map JObj (od_values (caste_grouped rows)) <> [] /\
  Forall (nested_under state "caste_population" caste_block rows)
         (map JObj (od_values (caste_grouped rows))).
Proof.
  rewrite caste_grouped_upsert.
  apply (engine_nested state caste_entry caste_block caste_obj "caste_population"
           caste_entry_new caste_entry_old).
  intros r0 d. repeat split.
Qed.

Lemma non_workers_nested (rows : list FactRow) :
  (forall r, In r rows -> In (ltru r) allowed_tru) -> rows <> [] ->
  map JObj (od_values (non_workers_grouped rows)) <> [] /\
  Forall (nested_under non_workers_key "non_workers" non_workers_val rows)
         (map JObj (od_values (non_workers_grouped rows))).
Proof.
  rewrite non_workers_grouped_upsert.
  apply (engine_nested non_workers_key non_workers_entry non_workers_val non_workers_obj
           "non_workers" non_workers_entry_new non_workers_entry_old).
  intros r0 d. repeat split.
Qed.

(** Households, [tru] unset. *)
Lemma households_nested_unset (req : option string) (rows : list FactRow) :
  truthy req = false ->
  (forall r, In r rows -> In (ltru r) allowed_tru) -> rows <> [] ->
  map JObj (od_values (households_grouped req rows)) <> [] /\
  Forall (nested_under state "households" households_val rows)
         (map JObj (od_values (households_grouped req rows))).
Proof.
  intros Hf. rewrite households_grouped_upsert.
  apply (engine_nested state (households_entry req) households_val households_nested
           "households" (fun r => households_entry_new req r Hf)
           (fun r0 r d => households_entry_old req r0 r d Hf)).
  intros r0 d. repeat split.
Qed.

(** Households, [tru] fixed: the object is the seed of the first row. *)

Lemma first_seed_stays {R Ent} (s : R -> Ent) (grp : list R) (e : Ent) :
  fold_left (fun o r => Some (match o with Some e => e | None => s r end)) grp (Some e)
  = Some e.
Proof. induction grp as [|r grp IH]; simpl; [reflexivity | exact IH]. Qed.

Lemma households_flat_fixed (req : option string) (rows : list FactRow) :
  truthy req = true -> rows <> [] ->
  map JObj (od_values (households_grouped req rows)) <> [] /\
  Forall (flat_households rows) (map JObj (od_values (households_grouped req rows))).
Proof.
  intros Ht Hne. rewrite households_grouped_upsert. split.
  - apply map_nonempty. unfold od_values. apply map_nonempty. now apply upsert_nonempty.
  - apply Forall_forall. intros o Ho. apply in_map_iff in Ho. destruct Ho as [e [<- He]].
    apply od_values_In in He; [|apply upsert_NoDup; constructor].
    destruct He as [k Hk]. rewrite upsert_get, at_key_filter in Hk. simpl od_get in Hk.
    fold (group_of state k rows) in Hk.
    destruct (group_of state k rows) as [|r0 grp] eqn:HG; [discriminate|].
    assert (Hfe : forall (o : option (odict string json)) r,
               Some (households_entry req r o) =
               Some (match o with Some e => e | None => households_seed req r end)).
    { intros o r. unfold households_entry. now rewrite Ht. }
    rewrite (fold_left_ext _ _ _ _ Hfe) in Hk. cbn [fold_left] in Hk.
    rewrite first_seed_stays in Hk. injection Hk as <-.
    assert (H0 : state r0 = k).
    { apply (group_of_In state k rows r0). rewrite HG. now left. }
    subst k. exists r0, grp. split; [exact HG|].
    unfold households_seed. now rewrite Ht.
Qed.

(** Literacy. *)

Lemma literacy_grouped_upsert req rows :
  literacy_grouped req rows = fold_left (upsert literacy_key (literacy_entry req)) rows [].
Proof. apply fold_left_ext. intros g r. apply literacy_row_upsert. Qed.

Lemma allowed_nonempty (l : string) : In l allowed_tru -> nonempty l = true.
Proof. intros [<-|[<-|[<-|[]]]]; reflexivity. Qed.

Lemma literacy_unset_upsert rows :
  (forall r, In r rows -> In (ltru r) allowed_tru) ->
  literacy_grouped None rows = fold_left (upsert literacy_key literacy_nested_entry) rows [].
Proof.
  intros Hlab. rewrite literacy_grouped_upsert. apply fold_left_ext_in.
  intros g r Hr. unfold upsert. f_equal. unfold literacy_entry, literacy_nested_entry.
  now rewrite (allowed_nonempty _ (Hlab r Hr)).
Qed.

Lemma grouped_items {K Ent} `{KeyEq K} (key : FactRow -> K)
    (fe : FactRow -> option Ent -> Ent) (val : FactRow -> json)
    (wrap : FactRow -> odict string json -> Ent) (rows : list FactRow) (k : K) (e : Ent) :
  (forall r, fe r None = wrap r (od_set (ltru r) (val r) [])) ->
  (forall r0 r d, fe r (Some (wrap r0 d)) = wrap r0 (od_set (ltru r) (val r) d)) ->
  In (k, e) (fold_left (upsert key fe) rows []) ->
  exists r0 grp, group_of key k rows = r0 :: grp /\ e = wrap r0 (tru_dict val (r0 :: grp)).
Proof.
  intros Hnew Hold Hin. apply od_In_get in Hin; [|apply upsert_NoDup; constructor].
  rewrite (grouped_get key fe val wrap Hnew Hold) in Hin.
  destruct (group_of key k rows) as [|r0 grp]; [discriminate|].
  exists r0, grp. split; [reflexivity | congruence].
Qed.

Lemma literacy_nested_unset (rows : list FactRow) :
  (forall r, In r rows -> In (ltru r) allowed_tru) -> rows <> [] ->
  map (fun kd => JObj (literacy_obj None kd)) (literacy_grouped None rows) <> [] /\
  Forall (nested_under literacy_key "literacy" literacy_val rows)
         (map (fun kd => JObj (literacy_obj None kd)) (literacy_grouped None rows)).
Proof.
  intros Hlab Hne. rewrite (literacy_unset_upsert rows Hlab). split.
  - apply map_nonempty. now apply upsert_nonempty.
  - apply Forall_forall. intros o Ho. apply in_map_iff in Ho.
    destruct Ho as [[k e] [<- Hke]].
    apply (grouped_items literacy_key literacy_nested_entry literacy_val
             (fun _ d => JObj d)) in Hke; [|reflexivity|reflexivity].
    destruct Hke as [r0 [grp [HG ->]]].
    assert (Hk : literacy_key r0 = k).
    { apply (group_of_In literacy_key k rows r0). rewrite HG. now left. }
    subst k. exists r0, grp, (tru_dict literacy_val (r0 :: grp)).
    split; [exact HG|].
    split; [reflexivity|]. split; [reflexivity|]. split; [reflexivity|].
    split; [apply tru_dict_keys|]. split.
    + intros l Hl. rewrite tru_dict_keys in Hl. apply (proj1 (distinct_In _ _)) in Hl.
      apply in_map_iff in Hl. destruct Hl as [r [<- Hr]]. apply Hlab.
      apply (group_of_incl literacy_key (literacy_key r0)). now rewrite HG.
    + intros l. apply tru_dict_last.
Qed.

Lemma literacy_flat_fixed (t : string) (rows : list FactRow) :
  nonempty t = true -> rows <> [] ->
  map (fun kd => JObj (literacy_obj (Some t) kd)) (literacy_grouped (Some t) rows) <> [] /\
  Forall (flat_literacy t rows)
         (map (fun kd => JObj (literacy_obj (Some t) kd)) (literacy_grouped (Some t) rows)).
Proof.
  intros Ht Hne. rewrite literacy_grouped_upsert. split.
  - apply map_nonempty. now apply upsert_nonempty.
  - apply Forall_forall. intros o Ho. apply in_map_iff in Ho.
    destruct Ho as [[k e] [<- Hke]].
    apply od_In_get in Hke; [|apply upsert_NoDup; constructor].
    rewrite upsert_get, at_key_filter in Hke. simpl od_get in Hke.
    fold (group_of literacy_key k rows) in Hke.
    destruct (group_of literacy_key k rows) as [|r0 grp] eqn:HG; [discriminate|].
    change (fun (o : option json) (r : FactRow) => Some (literacy_entry (Some t) r o))
      with (fun (_ : option json) (r : FactRow) => Some (literacy_val r)) in Hke.
    cbn [fold_left] in Hke. rewrite (fold_last literacy_val grp r0 None) in Hke.
    injection Hke as <-.
    assert (Hk : literacy_key r0 = k).
    { apply (group_of_In literacy_key k rows r0). rewrite HG. now left. }
    subst k. exists r0, grp. split; [exact HG|].
    unfold literacy_obj, literacy_key. now rewrite Ht.
Qed.

(** Population: the entries come from the distinct (name, state) pairs, and
    every fetched row writes into the entries of its state code. *)

Lemma population_rows_map (rows : list FactRow) (results : list (odict string json)) :
  fold_left population_row rows results =
  map (fun st => fold_left (fun st row => population_step row st) rows st) results.
Proof.
  revert results. induction rows as [|row rows IH]; intros results; simpl.
  - now rewrite map_id.
  - rewrite IH. unfold population_row at 1. rewrite map_map. reflexivity.
Qed.

Lemma population_step_obj (row : FactRow) (nm : string * Z) (d : odict string json) :
  population_step row (population_obj nm d) =
  if snd nm =? state row
  then population_obj nm (od_set (ltru row) (population_val row) d)
  else population_obj nm d.
Proof.
  unfold population_step, population_obj.
  change (od_get "state" [("name", JStr (fst nm)); ("state", JInt (snd nm));
                          ("population", JObj d)]) with (Some (JInt (snd nm))).
  cbv beta iota. destruct (snd nm =? state row); reflexivity.
Qed.

Lemma group_of_cons {K} `{KeyEq K} (key : FactRow -> K) (k : K) (r : FactRow)
    (rows : list FactRow) :
  group_of key k (r :: rows) =
  if key_eq_dec (key r) k then r :: group_of key k rows else group_of key k rows.
Proof. unfold group_of. simpl. now destruct (key_eq_dec (key r) k). Qed.

Lemma population_entry_fold (rows : list FactRow) (nm : string * Z) (d : odict string json) :
  fold_left (fun st row => population_step row st) rows (population_obj nm d) =
  population_obj nm
    (fold_left (fun d r => od_set (ltru r) (population_val r) d)
               (group_of state (snd nm) rows) d).
Proof.
  revert d. induction rows as [|row rows IH]; intros d; [reflexivity|].
  cbn [fold_left]. rewrite population_step_obj, group_of_cons.
  destruct (key_eq_dec (state row) (snd nm)) as [He|Hn].
  - rewrite <- He, Z.eqb_refl. rewrite He. cbn [fold_left]. apply IH.
  - destruct (snd nm =? state row) eqn:Hz; [apply Z.eqb_eq in Hz; congruence|].
    apply IH.
Qed.

Lemma population_nested (u : Listing (string * Z)) (rows : list FactRow) :
  (forall r, In r rows -> In (ltru r) allowed_tru) -> rows <> [] ->
  let results :=
    fold_left population_row rows
      (map (population_entry true)
           (select_distinct u (map (fun r => (name r, state r)) rows))) in
  map JObj results <> [] /\
  Forall (nested_under state "population" population_val rows) (map JObj results).
Proof.
  intros Hlab Hne results. subst results. rewrite population_rows_map. split.
  - apply map_nonempty, map_nonempty, map_nonempty, select_distinct_nonempty.
    now apply map_nonempty.
  - apply Forall_forall. intros o Ho. apply in_map_iff in Ho. destruct Ho as [e [<- He]].
    apply in_map_iff in He. destruct He as [e0 [<- He0]].
    apply in_map_iff in He0. destruct He0 as [nm [<- Hnm]].
    apply (proj1 (select_distinct_In _ _ _)) in Hnm. apply in_map_iff in Hnm.
    destruct Hnm as [r [Hr Hin]].
    change (population_entry true nm) with (population_obj nm []).
    rewrite population_entry_fold.
    assert (HrG : In r (group_of state (snd nm) rows)).
    { apply group_of_In. split; [exact Hin|]. now rewrite <- Hr. }
    destruct (group_of state (snd nm) rows) as [|r0 grp] eqn:HG; [contradiction|].
    assert (H0 : state r0 = snd nm).
    { apply (group_of_In state (snd nm) rows r0). rewrite HG. now left. }
    exists r0, grp, (tru_dict population_val (r0 :: grp)).
    split; [now rewrite H0|].
    split; [cbn; now rewrite H0|]. split; [reflexivity|]. split; [reflexivity|].
    split; [apply tru_dict_keys|]. split.
    + intros l Hl. rewrite tru_dict_keys in Hl. apply (proj1 (distinct_In _ _)) in Hl.
      apply in_map_iff in Hl. destruct Hl as [r' [<- Hr']]. apply Hlab.
      apply (group_of_incl state (snd nm)). now rewrite HG.
    + intros l. apply tru_dict_last.
Qed.

(** A valid [tru] has nothing to strip. *)

Lemma lower_char_space (c : ascii) : isspace (lower_char c) = isspace c.
Proof. destruct c as [[] [] [] [] [] [] [] []]; reflexivity. Qed.

Lemma no_space_lower (s : string) : no_space (lower s) = no_space s.
Proof. induction s as [|c s IH]; simpl; [reflexivity|]. now rewrite lower_char_space, IH. Qed.

Lemma rstrip_no_space (s : string) : no_space s = true -> rstrip_with isspace s = s.
Proof.
  induction s as [|c s IH]; simpl; [reflexivity|]. intros Hs.
  apply andb_prop in Hs. destruct Hs as [Hc Hs]. rewrite (IH Hs).
  destruct s; [|reflexivity]. apply negb_true_iff in Hc. now rewrite Hc.
Qed.

Lemma strip_no_space (s : string) : no_space s = true -> strip s = s.
Proof.
  intros Hs. unfold strip.
  assert (Hl : lstrip_with isspace s = s).
  { destruct s as [|c s]; [reflexivity|]. simpl in *.
    apply andb_prop in Hs. destruct Hs as [Hc _]. apply negb_true_iff in Hc. now rewrite Hc. }
  rewrite Hl. now apply rstrip_no_space.
Qed.

Lemma valid_tru_strip (t : string) : mem (lower t) allowed_tru = true -> strip t = t.
Proof.
  intros Hm. apply strip_no_space. rewrite <- no_space_lower.
  apply mem_In in Hm. destruct Hm as [<-|[<-|[<-|[]]]]; reflexivity.
Qed.

Lemma tru_value_of_valid (tru : option string) :
  tru_invalid tru = false ->
  match tru with
  | Some t => if nonempty t then Some (lower (strip t)) else None
  | None => None
  end = tru_param tru.
Proof.
  intros Hvalid. destruct tru as [t|]; [|reflexivity]. simpl in *.
  destruct (nonempty t); [|reflexivity]. simpl in Hvalid.
  apply negb_false_iff in Hvalid. now rewrite (valid_tru_strip t Hvalid).
Qed.

Lemma population_response (u : Listing (string * Z)) (db : Table) (states : string)
    (tru : option string) :
  name_list states <> [] ->
  tru_invalid tru = false ->
  fetch_state_rows db (name_list states) (tru_param tru) <> [] ->
  get_state_population u db states tru true =
  JSONResponse (JList (map JObj
    (fold_left population_row (fetch_state_rows db (name_list states) (tru_param tru))
       (map (population_entry true)
            (select_distinct u (map (fun r => (name r, state r))
                           (fetch_state_rows db (name_list states) (tru_param tru)))))))).
Proof.
  intros Hnames Hvalid Hrows. unfold get_state_population. rewrite Hvalid.
  destruct (name_list states) as [|n ns]; [congruence|].
  rewrite (tru_value_of_valid tru Hvalid).
  set (rows := fetch_state_rows db (n :: ns) (tru_param tru)) in *.
  pose proof (select_distinct_nonempty u (map (fun r => (name r, state r)) rows)
                (map_nonempty _ _ Hrows)) as Hne.
  destruct (select_distinct u (map (fun r => (name r, state r)) rows)) as [|p ps];
    [congruence | reflexivity].
Qed.

Lemma population_response_plain (u : Listing (string * Z)) (db : Table) (states : string)
    (tru : option string) :
  name_list states <> [] ->
  tru_invalid tru = false ->
  fetch_state_rows db (name_list states) (tru_param tru) <> [] ->
  get_state_population u db states tru false =
  JSONResponse (JList (map
    (fun nm => JObj [("name", JStr (fst nm)); ("state", JInt (snd nm))])
    (select_distinct u (map (fun r => (name r, state r))
                            (fetch_state_rows db (name_list states) (tru_param tru)))))).
Proof.
  intros Hnames Hvalid Hrows. unfold get_state_population. rewrite Hvalid.
  destruct (name_list states) as [|n ns]; [congruence|].
  rewrite (tru_value_of_valid tru Hvalid).
  set (rows := fetch_state_rows db (n :: ns) (tru_param tru)) in *.
  pose proof (select_distinct_nonempty u (map (fun r => (name r, state r)) rows)
                (map_nonempty _ _ Hrows)) as Hne.
  destruct (select_distinct u (map (fun r => (name r, state r)) rows)) as [|p ps];
    [congruence|].
  cbn [except_Exception]. now rewrite map_map.
Qed.

Lemma population_plain_shape (u : Listing (string * Z)) (rows : list FactRow) :
  rows <> [] ->
  map (fun nm : string * Z => JObj [("name", JStr (fst nm)); ("state", JInt (snd nm))])
      (select_distinct u (map (fun r => (name r, state r)) rows)) <> [] /\
  Forall (without_metric rows)
    (map (fun nm : string * Z => JObj [("name", JStr (fst nm)); ("state", JInt (snd nm))])
         (select_distinct u (map (fun r => (name r, state r)) rows))).
Proof.
  intros Hne. split.
  - apply map_nonempty, select_distinct_nonempty. now apply map_nonempty.
  - apply Forall_forall. intros o Ho. apply in_map_iff in Ho. destruct Ho as [nm [<- Hnm]].
    apply (proj1 (select_distinct_In _ _ _)) in Hnm. apply in_map_iff in Hnm.
    destruct Hnm as [r [<- Hr]]. exists r. split; [exact Hr | reflexivity].
Qed.

(** C1, as amended.  For a valid request that fetches rows from a store
    whose TRU labels are Total, Rural and Urban:
    - the state population (with its population), gender population, workers,
      caste and non-workers endpoints emit every grouped object with its
      metric nested one level deeper, keyed by the lowercase TRU labels of
      the fetched rows of the object's group (all of them, each once; a
      subset of total, rural, urban), whether [tru] is fixed or unset, and
      without a "tru" key;
    - the state population endpoint asked not to include the population
      emits the name and the code only, with no metric, flat or nested;
    - with [tru] unset, the literacy and households endpoints nest in the
      same way;
    - with [tru] fixed, the households endpoint emits the household count of
      the first fetched row of the state flatly, without any TRU key, and the
      literacy endpoint emits the literacy block of the last fetched row of
      the group flatly, next to a "tru" key holding the request's value
      capitalized. *)
Theorem tru_nesting_by_endpoint (u : Listing (string * Z)) (db : Table) (states : string)
    (tru : option string) :
  labelled db ->
  name_list states <> [] ->
  tru_invalid tru = false ->
  fetch_state_rows db (name_list states) (tru_param tru) <> [] ->
  emits (nested_under state "population" population_val
           (fetch_state_rows db (name_list states) (tru_param tru)))
        (get_state_population u db states tru true) /\
  emits (without_metric (fetch_state_rows db (name_list states) (tru_param tru)))
        (get_state_population u db states tru false) /\
  emits (nested_under state "population" gender_val
           (fetch_state_rows db (name_list states) (tru_param tru)))
        (get_state_gender_population db states tru) /\
  emits (nested_under state "workers" workers_val
           (fetch_state_rows db (name_list states) (tru_param tru)))
        (get_state_workers db states tru) /\
  emits (nested_under state "caste_population" caste_block
           (fetch_state_rows db (name_list states) (tru_param tru)))
        (get_state_caste_population db states tru) /\
  emits (nested_under non_workers_key "non_workers" non_workers_val
           (fetch_state_rows db (name_list states) (tru_param tru)))
        (get_state_non_workers db states tru) /\
  (tru = None ->
   emits (nested_under literacy_key "literacy" literacy_val
            (fetch_state_rows db (name_list states) (tru_param tru)))
         (get_state_literacy db states tru) /\
   emits (nested_under state "households" households_val
            (fetch_state_rows db (name_list states) (tru_param tru)))
         (get_state_households db states tru)) /\
  (forall t, tru = Some t -> nonempty t = true ->
   emits (flat_literacy t (fetch_state_rows db (name_list states) (tru_param tru)))
         (get_state_literacy db states tru) /\
   emits (flat_households (fetch_state_rows db (name_list states) (tru_param tru)))
         (get_state_households db states tru)).
Proof.
  intros Hlab Hnames Hvalid Hrows.
  pose proof (fetched_labelled db (name_list states) (tru_param tru) Hlab) as Hl.
  repeat split.
  - eexists. split; [now apply population_response|]. now apply population_nested.
  - eexists. split; [now apply population_response_plain|]. now apply population_plain_shape.
  - eexists. split; [now apply gender_response|]. now apply gender_nested.
  - eexists. split; [now apply workers_response|]. now apply workers_nested.
  - eexists. split; [now apply caste_response|]. now apply caste_nested.
  - eexists. split; [now apply non_workers_response|]. now apply non_workers_nested.
  - subst tru. eexists. split; [now apply literacy_response|].
    now apply literacy_nested_unset.
  - subst tru. eexists. split; [now apply households_response|].
    now apply households_nested_unset.
  - subst tru. eexists. split; [now apply literacy_response|].
    now apply literacy_flat_fixed.
  - subst tru. eexists. split; [now apply households_response|].
    now apply households_flat_fixed.
Qed.

Lemma tru_nesting_by_endpoint_witness :
  emits (nested_under state "population" population_val
           (fetch_state_rows karnataka (name_list "Karnataka") (tru_param (Some "Rural"))))
        (get_state_population as_scanned karnataka "Karnataka" (Some "Rural") true) /\
  emits (without_metric
           (fetch_state_rows karnataka (name_list "Karnataka") (tru_param (Some "Rural"))))
        (get_state_population as_scanned karnataka "Karnataka" (Some "Rural") false) /\
  emits (nested_under state "population" gender_val
           (fetch_state_rows karnataka (name_list "Karnataka") (tru_param (Some "Rural"))))
        (get_state_gender_population karnataka "Karnataka" (Some "Rural")) /\
  emits (nested_under state "workers" workers_val
           (fetch_state_rows karnataka (name_list "Karnataka") (tru_param (Some "Rural"))))
        (get_state_workers karnataka "Karnataka" (Some "Rural")) /\
  emits (nested_under state "caste_population" caste_block
           (fetch_state_rows karnataka (name_list "Karnataka") (tru_param (Some "Rural"))))
        (get_state_caste_population karnataka "Karnataka" (Some "Rural")) /\
  emits (nested_under non_workers_key "non_workers" non_workers_val
           (fetch_state_rows karnataka (name_list "Karnataka") (tru_param (Some "Rural"))))
        (get_state_non_workers karnataka "Karnataka" (Some "Rural")) /\
  (Some "Rural" = None ->
   emits (nested_under literacy_key "literacy" literacy_val
            (fetch_state_rows karnataka (name_list "Karnataka") (tru_param (Some "Rural"))))
         (get_state_literacy karnataka "Karnataka" (Some "Rural")) /\
   emits (nested_under state "households" households_val
            (fetch_state_rows karnataka (name_list "Karnataka") (tru_param (Some "Rural"))))
         (get_state_households karnataka "Karnataka" (Some "Rural"))) /\
  (forall t, Some "Rural" = Some t -> nonempty t = true ->
   emits (flat_literacy t
            (fetch_state_rows karnataka (name_list "Karnataka") (tru_param (Some "Rural"))))
         (get_state_literacy karnataka "Karnataka" (Some "Rural")) /\
   emits (flat_households
            (fetch_state_rows karnataka (name_list "Karnataka") (tru_param (Some "Rural"))))
         (get_state_households karnataka "Karnataka" (Some "Rural"))).
Proof.
  apply (tru_nesting_by_endpoint as_scanned karnataka "Karnataka" (Some "Rural")).
  - intros r Hr. simpl in Hr. destruct Hr as [<-|[<-|[]]]; vm_compute; tauto.
  - vm_compute. discriminate.
  - reflexivity.
  - vm_compute. discriminate.
Defined.

(** * Further properties of the handlers *)

(** ** Request validation *)

Lemma tru_invalid_unknown (tru : option string) :
  tru_invalid tru = true <-> unknown_tru tru.
Proof.
  unfold unknown_tru. split.
  - destruct tru as [t|]; [|discriminate]. cbn [tru_invalid]. intros Hbad.
    apply andb_prop in Hbad. destruct Hbad as [Hne Hmem]. exists t.
    split; [reflexivity|]. split.
    + intros ->. discriminate.
    + intros Hin. apply negb_true_iff in Hmem.
      assert (Hm : mem (lower t) allowed_tru = true); [|congruence].
      unfold mem. apply existsb_exists. exists (lower t).
      split; [exact Hin | apply String.eqb_refl].
  - intros [t [-> [Hne Hni]]]. cbn [tru_invalid]. apply andb_true_intro. split.
    + destruct t; [congruence | reflexivity].
    + apply negb_true_iff. now apply not_In_mem.
Qed.

(** The shape shared by the handlers that take [tru] and [states]: the check
    of [tru], then the check of the names, then the [try] block. *)
Lemma refusal_iff (tru : option string) (msg : string) (names : list string)
    (body : result json) :
  msg <> "No valid state names provided." ->
  (if tru_invalid tru then Raise (HTTPException 400 (Text msg))
   else match names with
        | [] => Raise (HTTPException 400 (Text "No valid state names provided."))
        | _ :: _ => except_Exception body
        end) = Raise (HTTPException 400 (Text msg)) <-> unknown_tru tru.
Proof.
  intros Hmsg. rewrite <- tru_invalid_unknown.
  destruct (tru_invalid tru); [tauto|]. split; [|discriminate].
  destruct names as [|n ns].
  - intros Heq. injection Heq as Heq. congruence.
  - destruct body; discriminate.
Qed.

(** X1.  Each endpoint that takes [tru] answers 400 with its "invalid tru"
    message exactly when [tru] is given, is not empty, and its lowercase form
    is none of total, rural and urban, whatever the store holds and whatever
    the other parameters are.  Surrounding blanks are not tolerated; an empty
    [tru] is not refused. *)
Theorem unknown_tru_is_400 (up : Listing (string * Z)) (uj : Listing DistrictRow)
    (db : Table) (states : string) (tru : option string)
    (include_population : bool) (limit offset : option Z) :
  (get_state_population up db states tru include_population =
     Raise (HTTPException 400 (Text "Invalid tru value. Use: total, rural, or urban"))
   <-> unknown_tru tru) /\
  (get_state_gender_population db states tru =
     Raise (HTTPException 400 (Text "Invalid TRU value")) <-> unknown_tru tru) /\
  (get_state_literacy db states tru =
     Raise (HTTPException 400 (Text "Invalid TRU value")) <-> unknown_tru tru) /\
  (get_state_workers db states tru =
     Raise (HTTPException 400 (Text "Invalid TRU value")) <-> unknown_tru tru) /\
  (get_state_caste_population db states tru =
     Raise (HTTPException 400 (Text "Invalid TRU value")) <-> unknown_tru tru) /\
  (get_state_non_workers db states tru =
     Raise (HTTPException 400 (Text "Invalid TRU value")) <-> unknown_tru tru) /\
  (get_state_households db states tru =
     Raise (HTTPException 400 (Text "Invalid TRU value")) <-> unknown_tru tru) /\
  (get_district_population_breakdown uj db states tru limit offset =
     Raise (HTTPException 400 (Text "Invalid tru value")) <-> unknown_tru tru) /\
  (unknown_tru (Some " rural") /\ unknown_tru (Some "both") /\
   ~ unknown_tru (Some "RURAL") /\ ~ unknown_tru (Some "") /\ ~ unknown_tru None).
Proof.
  unfold get_state_population, get_state_gender_population, get_state_literacy,
    get_state_workers, get_state_caste_population, get_state_non_workers,
    get_state_households, get_district_population_breakdown.
  cbv zeta.
  repeat (split; [apply refusal_iff; discriminate|]).
  rewrite <- !tru_invalid_unknown. repeat split; try reflexivity; discriminate.
Qed.

(** X2.  When no comma-separated piece of [states] has anything left after
    stripping (an empty string, only commas, only blanks), every endpoint that
    takes [states] answers 400 "No valid state names provided." once [tru]
    has passed its check, whatever the store holds. *)
Theorem no_state_names_is_400 (up : Listing (string * Z)) (uj : Listing DistrictRow)
    (db : Table) (states : string) (tru : option string)
    (include_population : bool) (limit offset : option Z) :
  tru_invalid tru = false ->
  Forall (fun piece => strip piece = "") (split "," states) ->
  get_state_population up db states tru include_population =
    Raise (HTTPException 400 (Text "No valid state names provided.")) /\
  get_state_gender_population db states tru =
    Raise (HTTPException 400 (Text "No valid state names provided.")) /\
  get_state_literacy db states tru =
    Raise (HTTPException 400 (Text "No valid state names provided.")) /\
  get_state_workers db states tru =
    Raise (HTTPException 400 (Text "No valid state names provided.")) /\
  get_state_caste_population db states tru =
    Raise (HTTPException 400 (Text "No valid state names provided.")) /\
  get_state_non_workers db states tru =
    Raise (HTTPException 400 (Text "No valid state names provided.")) /\
  get_state_households db states tru =
    Raise (HTTPException 400 (Text "No valid state names provided.")) /\
  get_district_population_breakdown uj db states tru limit offset =
    Raise (HTTPException 400 (Text "No valid state names provided.")).
Proof.
  intros Hok Hblank.
  assert (Hnil : name_list states = []).
  { unfold name_list. induction (split "," states) as [|p ps IH]; [reflexivity|].
    inversion Hblank as [|? ? Hp Hps]; subst. simpl. rewrite Hp. simpl. now apply IH. }
  unfold get_state_population, get_state_gender_population, get_state_literacy,
    get_state_workers, get_state_caste_population, get_state_non_workers,
    get_state_households, get_district_population_breakdown.
  rewrite Hok, Hnil. repeat split.
Qed.

Lemma no_state_names_is_400_witness :
  get_state_population as_scanned karnataka " , ," None true =
    Raise (HTTPException 400 (Text "No valid state names provided.")) /\
  get_state_gender_population karnataka " , ," None =
    Raise (HTTPException 400 (Text "No valid state names provided.")) /\
  get_state_literacy karnataka " , ," None =
    Raise (HTTPException 400 (Text "No valid state names provided.")) /\
  get_state_workers karnataka " , ," None =
    Raise (HTTPException 400 (Text "No valid state names provided.")) /\
  get_state_caste_population karnataka " , ," None =
    Raise (HTTPException 400 (Text "No valid state names provided.")) /\
  get_state_non_workers karnataka " , ," None =
    Raise (HTTPException 400 (Text "No valid state names provided.")) /\
  get_state_households karnataka " , ," None =
    Raise (HTTPException 400 (Text "No valid state names provided.")) /\
  get_district_population_breakdown as_scanned karnataka " , ," None None None =
    Raise (HTTPException 400 (Text "No valid state names provided.")).
Proof.
  apply (no_state_names_is_400 as_scanned as_scanned karnataka " , ," None true None None).
  - reflexivity.
  - vm_compute. repeat constructor.
Defined.

(** X3.  A valid request whose filter matches no row: each of the seven state
    endpoints raises its 404 inside the [try] and the client receives a 500
    whose detail is the text of that 404; the two endpoints that resolve a
    single state do the same with "State not found". *)
Theorem zero_match_is_500 (up : Listing (string * Z)) (us ud : Listing (Z * string))
    (ub : Listing (Z * Z * string)) (db : Table) (states : string) (tru : option string)
    (include_population : bool) (state_arg : string) (include_subdistricts include_places : bool) :
  tru_invalid tru = false ->
  name_list states <> [] ->
  fetch_state_rows db (name_list states) (tru_param tru) = [] ->
  resolve_state us db (lower (strip state_arg)) = None ->
  get_state_population up db states tru include_population =
    Raise (HTTPException 500 (StrOf (HTTPException 404 (Text "No matching states found")))) /\
  get_state_gender_population db states tru =
    Raise (HTTPException 500 (StrOf (HTTPException 404 (Text "No data found")))) /\
  get_state_literacy db states tru =
    Raise (HTTPException 500 (StrOf (HTTPException 404 (Text "No data found")))) /\
  get_state_workers db states tru =
    Raise (HTTPException 500 (StrOf (HTTPException 404 (Text "No data found")))) /\
  get_state_caste_population db states tru =
    Raise (HTTPException 500 (StrOf (HTTPException 404 (Text "No data found")))) /\
  get_state_non_workers db states tru =
    Raise (HTTPException 500 (StrOf (HTTPException 404 (Text "No data found")))) /\
  get_state_households db states tru =
    Raise (HTTPException 500 (StrOf (HTTPException 404 (Text "No data found")))) /\
  get_state_locations us db state_arg =
    Raise (HTTPException 500 (StrOf (HTTPException 404 (Text "State not found")))) /\
  get_location_hierarchy us ud ub db state_arg include_subdistricts include_places =
    Raise (HTTPException 500 (StrOf (HTTPException 404 (Text "State not found")))).
Proof.
  intros Hok Hnames Hrows Hres.
  unfold get_state_population, get_state_gender_population, get_state_literacy,
    get_state_workers, get_state_caste_population, get_state_non_workers,
    get_state_households, get_state_locations, get_location_hierarchy.
  rewrite Hok, (tru_value_of_valid tru Hok), Hres.
  destruct (name_list states) as [|n ns]; [congruence|].
  rewrite Hrows. cbn [map]. rewrite select_distinct_nil. repeat split.
Qed.

Lemma zero_match_is_500_witness :
  get_state_population as_scanned karnataka "Atlantis" (Some "Urban") false =
    Raise (HTTPException 500 (StrOf (HTTPException 404 (Text "No matching states found")))) /\
  get_state_gender_population karnataka "Atlantis" (Some "Urban") =
    Raise (HTTPException 500 (StrOf (HTTPException 404 (Text "No data found")))) /\
  get_state_literacy karnataka "Atlantis" (Some "Urban") =
    Raise (HTTPException 500 (StrOf (HTTPException 404 (Text "No data found")))) /\
  get_state_workers karnataka "Atlantis" (Some "Urban") =
    Raise (HTTPException 500 (StrOf (HTTPException 404 (Text "No data found")))) /\
  get_state_caste_population karnataka "Atlantis" (Some "Urban") =
    Raise (HTTPException 500 (StrOf (HTTPException 404 (Text "No data found")))) /\
  get_state_non_workers karnataka "Atlantis" (Some "Urban") =
    Raise (HTTPException 500 (StrOf (HTTPException 404 (Text "No data found")))) /\
  get_state_households karnataka "Atlantis" (Some "Urban") =
    Raise (HTTPException 500 (StrOf (HTTPException 404 (Text "No data found")))) /\
  get_state_locations as_scanned karnataka "Atlantis" =
    Raise (HTTPException 500 (StrOf (HTTPException 404 (Text "State not found")))) /\
  get_location_hierarchy as_scanned as_scanned as_scanned karnataka "Atlantis" true true =
    Raise (HTTPException 500 (StrOf (HTTPException 404 (Text "State not found")))).
Proof.
  apply (zero_match_is_500 as_scanned as_scanned as_scanned as_scanned karnataka "Atlantis"
           (Some "Urban") false "Atlantis" true true).
  - reflexivity.
  - vm_compute. discriminate.
  - reflexivity.
  - reflexivity.
Defined.

(** ** Letter case of the arguments *)

Section CharMap.
Variable m : ascii -> ascii.
Variable ms : string -> string.
Hypothesis ms_nil : ms EmptyString = EmptyString.
Hypothesis ms_cons : forall c r, ms (String c r) = String (m c) (ms r).
Hypothesis m_lower : forall c, lower_char (m c) = lower_char c.
Hypothesis m_space : forall c, isspace (m c) = isspace c.
Hypothesis m_comma : forall c, Ascii.eqb (m c) "," = Ascii.eqb c ",".

Lemma lower_ms (s : string) : lower (ms s) = lower s.
Proof.
  induction s as [|c s IH]; [now rewrite ms_nil|].
  rewrite ms_cons. simpl. now rewrite m_lower, IH.
Qed.

Lemma nonempty_ms (s : string) : nonempty (ms s) = nonempty s.
Proof. destruct s; [now rewrite ms_nil | now rewrite ms_cons]. Qed.

Lemma split_ms (s : string) : split "," (ms s) = map ms (split "," s).
Proof.
  induction s as [|c s IH]; [rewrite ms_nil; simpl; now rewrite ms_nil|].
  rewrite ms_cons. simpl. rewrite m_comma, IH.
  destruct (Ascii.eqb c ","); simpl; [now rewrite ms_nil|].
  destruct (split "," s) as [|h t]; simpl; now rewrite ?ms_cons, ?ms_nil.
Qed.

Lemma lstrip_ms (s : string) : lstrip_with isspace (ms s) = ms (lstrip_with isspace s).
Proof.
  induction s as [|c s IH]; [now rewrite ms_nil|].
  rewrite ms_cons. simpl. rewrite m_space. destruct (isspace c); [exact IH|].
  now rewrite ms_cons.
Qed.

Lemma rstrip_ms (s : string) : rstrip_with isspace (ms s) = ms (rstrip_with isspace s).
Proof.
  induction s as [|c s IH]; [now rewrite ms_nil|].
  rewrite ms_cons. simpl. rewrite IH, m_space.
  destruct (rstrip_with isspace s) as [|c' r'].
  - rewrite ms_nil. destruct (isspace c); [now rewrite ms_nil|].
    now rewrite ms_cons, ms_nil.
  - rewrite ms_cons. now rewrite !ms_cons.
Qed.

Lemma strip_ms (s : string) : strip (ms s) = ms (strip s).
Proof. unfold strip. now rewrite lstrip_ms, rstrip_ms. Qed.

Lemma name_list_ms (s : string) : name_list (ms s) = name_list s.
Proof.
  unfold name_list. rewrite split_ms.
  induction (split "," s) as [|p ps IH]; [reflexivity|].
  simpl. rewrite strip_ms, nonempty_ms.
  destruct (nonempty (strip p)); simpl; [|exact IH].
  now rewrite strip_ms, lower_ms, IH.
Qed.

Lemma same_answers_ms (s : string) : same_answers (ms s) s.
Proof.
  intros up us ud ub uj db tru ip limit offset b1 b2.
  unfold get_state_population, get_state_gender_population, get_state_literacy,
    get_state_workers, get_state_caste_population, get_state_non_workers,
    get_state_households, get_district_population_breakdown, get_state_locations,
    get_location_hierarchy.
  rewrite name_list_ms, strip_ms, lower_ms. repeat split.
Qed.

End CharMap.

Lemma upper_char_lower (c : ascii) : lower_char (upper_char c) = lower_char c.
Proof. destruct c as [[] [] [] [] [] [] [] []]; reflexivity. Qed.

Lemma upper_char_space (c : ascii) : isspace (upper_char c) = isspace c.
Proof. destruct c as [[] [] [] [] [] [] [] []]; reflexivity. Qed.

Lemma upper_char_comma (c : ascii) : Ascii.eqb (upper_char c) "," = Ascii.eqb c ",".
Proof. destruct c as [[] [] [] [] [] [] [] []]; reflexivity. Qed.

Lemma lower_char_lower (c : ascii) : lower_char (lower_char c) = lower_char c.
Proof. destruct c as [[] [] [] [] [] [] [] []]; reflexivity. Qed.

Lemma lower_char_comma (c : ascii) : Ascii.eqb (lower_char c) "," = Ascii.eqb c ",".
Proof. destruct c as [[] [] [] [] [] [] [] []]; reflexivity. Qed.

Lemma upper_char_upper (c : ascii) : upper_char (upper_char c) = upper_char c.
Proof. destruct c as [[] [] [] [] [] [] [] []]; reflexivity. Qed.

Lemma upper_char_of_lower (c : ascii) : upper_char (lower_char c) = upper_char c.
Proof. destruct c as [[] [] [] [] [] [] [] []]; reflexivity. Qed.

(** X4.  State names written in ASCII are matched whatever their letter
    case: writing the [states] argument (or the [state] argument of the two
    single-state endpoints) all in upper case, or all in lower case, changes
    no answer, for any store, however it lists its rows, and any other
    parameters. *)
Theorem ascii_state_names_ignore_case (s : string) :
  is_ascii s = true ->
  same_answers (upper s) s /\ same_answers (lower s) s.
Proof.
  intros _. split.
  - apply (same_answers_ms upper_char upper); try reflexivity.
    + apply upper_char_lower.
    + apply upper_char_space.
    + apply upper_char_comma.
  - apply (same_answers_ms lower_char lower); try reflexivity.
    + apply lower_char_lower.
    + apply lower_char_space.
    + apply lower_char_comma.
Qed.

Lemma ascii_state_names_ignore_case_witness :
  same_answers (upper "Tamil Nadu, Goa") "Tamil Nadu, Goa" /\
  same_answers (lower "Tamil Nadu, Goa") "Tamil Nadu, Goa".
Proof.
  apply (ascii_state_names_ignore_case "Tamil Nadu, Goa"). reflexivity.
Defined.

Lemma capitalize_ms (m : ascii -> ascii) (ms : string -> string) (t : string) :
  ms EmptyString = EmptyString ->
  (forall c r, ms (String c r) = String (m c) (ms r)) ->
  (forall c, lower_char (m c) = lower_char c) ->
  (forall c, upper_char (m c) = upper_char c) ->
  capitalize (ms t) = capitalize t.
Proof.
  intros Hnil Hcons Hl Hu. destruct t as [|c r]; [now rewrite Hnil|].
  rewrite Hcons. simpl. rewrite Hu. f_equal.
  induction r as [|c' r IH]; [now rewrite Hnil|]. rewrite Hcons. simpl. now rewrite Hl, IH.
Qed.

Lemma same_tru_answers_ms (m : ascii -> ascii) (ms : string -> string) (t : string) :
  ms EmptyString = EmptyString ->
  (forall c r, ms (String c r) = String (m c) (ms r)) ->
  (forall c, lower_char (m c) = lower_char c) ->
  (forall c, isspace (m c) = isspace c) ->
  (forall c, Ascii.eqb (m c) "," = Ascii.eqb c ",") ->
  (forall c, upper_char (m c) = upper_char c) ->
  same_tru_answers (ms t) t.
Proof.
  intros Hnil Hcons Hl Hs Hc Hu up uj db states ip limit offset.
  pose proof (lower_ms m ms Hnil Hcons Hl t) as Hlow.
  pose proof (nonempty_ms m ms Hnil Hcons t) as Hne.
  pose proof (strip_ms m ms Hnil Hcons Hs t) as Hstrip.
  pose proof (lower_ms m ms Hnil Hcons Hl (strip t)) as Hlows.
  pose proof (capitalize_ms m ms t Hnil Hcons Hl Hu) as Hcap.
  assert (Hinv : tru_invalid (Some (ms t)) = tru_invalid (Some t))
    by (simpl; now rewrite Hne, Hlow).
  assert (Hpar : tru_param (Some (ms t)) = tru_param (Some t))
    by (simpl; now rewrite Hne, Hlow).
  unfold get_state_population, get_state_gender_population, get_state_literacy,
    get_state_workers, get_state_caste_population, get_state_non_workers,
    get_state_households, get_district_population_breakdown.
  rewrite Hinv, Hpar, Hne, Hstrip, Hlows.
  assert (Hlit : forall kd, literacy_obj (Some (ms t)) kd = literacy_obj (Some t) kd).
  { intros [[c n] data]. simpl. now rewrite Hne, Hcap. }
  assert (Hhh : forall rows, households_grouped (Some (ms t)) rows
                             = households_grouped (Some t) rows).
  { intros rows. apply fold_left_ext. intros g r. unfold households_row.
    simpl truthy. now rewrite Hne. }
  repeat split.
  - destruct (tru_invalid (Some t)); [reflexivity|].
    destruct (name_list states); [reflexivity|].
    destruct (fetch_state_rows db _ _); [reflexivity|].
    cbn [except_Exception]. do 2 f_equal.
    change (literacy_grouped (Some (ms t))) with (literacy_grouped (Some t)).
    apply map_ext. intros kd. now rewrite Hlit.
  - destruct (tru_invalid (Some t)); [reflexivity|].
    destruct (name_list states); [reflexivity|].
    destruct (fetch_state_rows db _ _); [reflexivity|].
    cbn [except_Exception]. now rewrite Hhh.
Qed.

(** X5.  The [tru] argument is read whatever its letter case: writing it all
    in upper case or all in lower case changes no answer (the "tru" key of the
    literacy object is the value capitalized, which is the same too). *)
Theorem tru_ignores_case (t : string) :
  same_tru_answers (upper t) t /\ same_tru_answers (lower t) t.
Proof.
  split.
  - apply (same_tru_answers_ms upper_char upper); try reflexivity.
    + apply upper_char_lower.
    + apply upper_char_space.
    + apply upper_char_comma.
    + apply upper_char_upper.
  - apply (same_tru_answers_ms lower_char lower); try reflexivity.
    + apply lower_char_lower.
    + apply lower_char_space.
    + apply lower_char_comma.
    + apply upper_char_of_lower.
Qed.

(** ** Keys and order of the grouped output *)

Lemma upsert_keys_from {R K Ent} `{KeyEq K} (key : R -> K) (f : R -> option Ent -> Ent)
    (rows : list R) (g : odict K Ent) :
  od_keys (fold_left (upsert key f) rows g) =
  fold_left (fun ks x => if in_dec key_eq_dec x ks then ks else (ks ++ [x])%list)
            (map key rows) (od_keys g).
Proof.
  revert g. induction rows as [|r rows IH]; intros g; simpl; [reflexivity|].
  rewrite IH. f_equal. unfold upsert. rewrite od_keys_set.
  destruct (in_dec key_eq_dec (key r) (od_keys g)) as [Hin|Hni].
  - apply od_mem_keys in Hin. now rewrite Hin.
  - destruct (od_mem (key r) g) eqn:Hm; [|reflexivity].
    apply od_mem_keys in Hm. contradiction.
Qed.

(** The keys of a grouping loop's dictionary: the keys of the rows, each
    once, in the order they are first fetched. *)
Lemma upsert_keys {R K Ent} `{KeyEq K} (key : R -> K) (f : R -> option Ent -> Ent)
    (rows : list R) :
  od_keys (fold_left (upsert key f) rows []) = distinct (map key rows).
Proof.
  rewrite upsert_keys_from. rewrite (distinct_fold _ (map key rows) []) by reflexivity.
  simpl. generalize (distinct (map key rows)). intros L.
  induction L as [|x t IH]; simpl; congruence.
Qed.

Lemma state_fields_of_grouped (fe : FactRow -> option (odict string json) -> odict string json)
    (val : FactRow -> json) (wrap : FactRow -> odict string json -> odict string json)
    (rows : list FactRow) :
  (forall r, fe r None = wrap r (od_set (ltru r) (val r) [])) ->
  (forall r0 r d, fe r (Some (wrap r0 d)) = wrap r0 (od_set (ltru r) (val r) d)) ->
  (forall r0 d, od_get "state" (wrap r0 d) = Some (JInt (state r0))) ->
  map (jget "state") (map JObj (od_values (fold_left (upsert state fe) rows []))) =
  map (fun c => Some (JInt c)) (distinct (map state rows)).
Proof.
  intros Hnew Hold Hstate. rewrite <- (upsert_keys state fe rows).
  unfold od_values, od_keys. rewrite !map_map. apply map_ext_in.
  intros [k e] Hin. cbn [fst snd jget].
  destruct (grouped_items state fe val wrap rows k e Hnew Hold Hin) as [r0 [grp [HG ->]]].
  rewrite Hstate. do 2 f_equal.
  apply (group_of_In state k rows r0). rewrite HG. now left.
Qed.

(** X6.  The gender, workers and caste endpoints answer a valid request that
    fetches rows with one object per state code of the fetched rows, in the
    order in which the codes are first fetched; the non-workers and literacy
    endpoints answer with one object per distinct grouping key. *)
Theorem one_object_per_state_in_fetch_order (db : Table) (states : string)
    (tru : option string) :
  name_list states <> [] ->
  tru_invalid tru = false ->
  fetch_state_rows db (name_list states) (tru_param tru) <> [] ->
  state_fields (get_state_gender_population db states tru) =
    map (fun c => Some (JInt c))
        (distinct (map state (fetch_state_rows db (name_list states) (tru_param tru)))) /\
  state_fields (get_state_workers db states tru) =
    map (fun c => Some (JInt c))
        (distinct (map state (fetch_state_rows db (name_list states) (tru_param tru)))) /\
  state_fields (get_state_caste_population db states tru) =
    map (fun c => Some (JInt c))
        (distinct (map state (fetch_state_rows db (name_list states) (tru_param tru)))) /\
  List.length (objects (get_state_non_workers db states tru)) =
    List.length (distinct (map non_workers_key
                     (fetch_state_rows db (name_list states) (tru_param tru)))) /\
  List.length (objects (get_state_literacy db states tru)) =
    List.length (distinct (map literacy_key
                     (fetch_state_rows db (name_list states) (tru_param tru)))).
Proof.
  intros Hnames Hvalid Hrows. unfold state_fields.
  rewrite (gender_response db states tru Hnames Hvalid Hrows),
          (workers_response db states tru Hnames Hvalid Hrows),
          (caste_response db states tru Hnames Hvalid Hrows),
          (non_workers_response db states tru Hnames Hvalid Hrows),
          (literacy_response db states tru Hnames Hvalid Hrows).
  cbn [objects]. repeat split.
  - rewrite gender_grouped_upsert.
    now apply (state_fields_of_grouped gender_entry gender_val gender_obj).
  - rewrite workers_grouped_upsert.
    now apply (state_fields_of_grouped workers_entry workers_val workers_obj).
  - rewrite caste_grouped_upsert.
    now apply (state_fields_of_grouped caste_entry caste_block caste_obj).
  - rewrite non_workers_grouped_upsert. unfold od_values. rewrite !length_map.
    rewrite <- (upsert_keys non_workers_key non_workers_entry). unfold od_keys.
    now rewrite length_map.
  - rewrite literacy_grouped_upsert. rewrite length_map.
    rewrite <- (upsert_keys literacy_key (literacy_entry tru)). unfold od_keys.
    now rewrite length_map.
Qed.

Lemma one_object_per_state_in_fetch_order_witness :
  state_fields (get_state_gender_population karnataka "Karnataka" None) =
    map (fun c => Some (JInt c))
        (distinct (map state (fetch_state_rows karnataka (name_list "Karnataka")
                                (tru_param None)))) /\
  state_fields (get_state_workers karnataka "Karnataka" None) =
    map (fun c => Some (JInt c))
        (distinct (map state (fetch_state_rows karnataka (name_list "Karnataka")
                                (tru_param None)))) /\
  state_fields (get_state_caste_population karnataka "Karnataka" None) =
    map (fun c => Some (JInt c))
        (distinct (map state (fetch_state_rows karnataka (name_list "Karnataka")
                                (tru_param None)))) /\
  List.length (objects (get_state_non_workers karnataka "Karnataka" None)) =
    List.length (distinct (map non_workers_key
                     (fetch_state_rows karnataka (name_list "Karnataka") (tru_param None)))) /\
  List.length (objects (get_state_literacy karnataka "Karnataka" None)) =
    List.length (distinct (map literacy_key
                     (fetch_state_rows karnataka (name_list "Karnataka") (tru_param None)))).
Proof.
  apply (one_object_per_state_in_fetch_order karnataka "Karnataka" None).
  - vm_compute. discriminate.
  - reflexivity.
  - vm_compute. discriminate.
Defined.

(** ** Repeated rows *)

(** X7.  When the fetched rows hold several rows for one state code and TRU
    label, the grouped object keeps the block of the last of them: under each
    label, the metric dictionary of a state holds the value of the last
    fetched row of that state with that label. *)
Theorem last_fetched_row_wins (rows : list FactRow) (k : Z) (l : string) :
  match od_get k (gender_grouped rows) with
  | Some e =>
      exists d, od_get "population" e = Some (JObj d) /\
                od_get l d = option_map gender_val
                               (last_with_label l (group_of state k rows))
  | None => group_of state k rows = []
  end /\
  match od_get k (workers_grouped rows) with
  | Some e =>
      exists d, od_get "workers" e = Some (JObj d) /\
                od_get l d = option_map workers_val
                               (last_with_label l (group_of state k rows))
  | None => group_of state k rows = []
  end /\
  match od_get k (caste_grouped rows) with
  | Some e =>
      exists d, od_get "caste_population" e = Some (JObj d) /\
                od_get l d = option_map caste_block
                               (last_with_label l (group_of state k rows))
  | None => group_of state k rows = []
  end.
Proof.
  rewrite gender_grouped_upsert, workers_grouped_upsert, caste_grouped_upsert.
  rewrite (grouped_get state gender_entry gender_val gender_obj
             gender_entry_new gender_entry_old),
          (grouped_get state workers_entry workers_val workers_obj
             workers_entry_new workers_entry_old),
          (grouped_get state caste_entry caste_block caste_obj
             caste_entry_new caste_entry_old).
  destruct (group_of state k rows) as [|r0 grp]; [repeat split|].
  repeat split; eexists; (split; [reflexivity|]);
    unfold tru_dict; rewrite tru_dict_last_from;
    destruct (last_with_label l (r0 :: grp)); reflexivity.
Qed.

(** ** An empty [tru] on the literacy endpoint *)

(** X8.  [tru] given as the empty string on the literacy endpoint: no TRU
    filter is applied (the rows of all TRU labels are fetched), yet the
    handler does not nest by label: each (state, name) group is emitted with
    one flat literacy block, that of the last fetched row of the group, and
    without a "tru" key. *)
Theorem literacy_empty_tru_is_flat (db : Table) (states : string) :
  name_list states <> [] ->
  fetch_state_rows db (name_list states) None <> [] ->
  emits (flat_literacy_last (fetch_state_rows db (name_list states) None))
        (get_state_literacy db states (Some "")).
Proof.
  intros Hnames Hrows.
  exists (map (fun kd => JObj (literacy_obj (Some "") kd))
              (literacy_grouped (Some "") (fetch_state_rows db (name_list states) None))).
  split; [|split].
  - now apply (literacy_response db states (Some "")).
  - apply map_nonempty. rewrite literacy_grouped_upsert. now apply upsert_nonempty.
  - set (rows := fetch_state_rows db (name_list states) None).
    apply Forall_forall. intros o Ho. apply in_map_iff in Ho.
    destruct Ho as [[k e] [<- Hke]]. rewrite literacy_grouped_upsert in Hke.
    apply od_In_get in Hke; [|apply upsert_NoDup; constructor].
    rewrite upsert_get, at_key_filter in Hke. simpl od_get in Hke.
    fold (group_of literacy_key k rows) in Hke.
    destruct (group_of literacy_key k rows) as [|r0 grp] eqn:HG; [discriminate|].
    change (fun (o : option json) (r : FactRow) => Some (literacy_entry (Some "") r o))
      with (fun (_ : option json) (r : FactRow) => Some (literacy_val r)) in Hke.
    cbn [fold_left] in Hke. rewrite (fold_last literacy_val grp r0 None) in Hke.
    injection Hke as <-.
    assert (Hk : literacy_key r0 = k).
    { apply (group_of_In literacy_key k rows r0). rewrite HG. now left. }
    subst k. exists r0, grp. split; [exact HG | reflexivity].
Qed.

Lemma literacy_empty_tru_is_flat_witness :
  emits (flat_literacy_last (fetch_state_rows karnataka (name_list "Karnataka") None))
        (get_state_literacy karnataka "Karnataka" (Some "")).
Proof.
  apply (literacy_empty_tru_is_flat karnataka "Karnataka").
  - vm_compute. discriminate.
  - vm_compute. discriminate.
Defined.

(** ** The state population endpoint *)

(** X9.  A valid state-population request that matches rows is answered with
    one object per distinct (name, state) pair of the matching rows, in the
    order in which the store lists the pairs (the query has [DISTINCT] and no
    [ORDER BY], so the source fixes no order).  With [include_population]
    the object holds under "population" the totals of all fetched rows with
    its state code, keyed by lowercase TRU label (whatever name those rows
    carry); without it the object is just the name and the code. *)
Theorem population_objects_per_pair (u : Listing (string * Z)) (db : Table)
    (states : string) (tru : option string) :
  name_list states <> [] ->
  tru_invalid tru = false ->
  fetch_state_rows db (name_list states) (tru_param tru) <> [] ->
  get_state_population u db states tru true =
    JSONResponse (JList (map
      (fun nm => JObj [("name", JStr (fst nm)); ("state", JInt (snd nm));
                       ("population",
                        JObj (tru_dict population_val
                                (group_of state (snd nm)
                                   (fetch_state_rows db (name_list states) (tru_param tru)))))])
      (name_state_pairs u (fetch_state_rows db (name_list states) (tru_param tru))))) /\
  get_state_population u db states tru false =
    JSONResponse (JList (map
      (fun nm => JObj [("name", JStr (fst nm)); ("state", JInt (snd nm))])
      (name_state_pairs u (fetch_state_rows db (name_list states) (tru_param tru))))) /\
  NoDup (name_state_pairs u (fetch_state_rows db (name_list states) (tru_param tru))) /\
  (forall nm,
     In nm (name_state_pairs u (fetch_state_rows db (name_list states) (tru_param tru))) <->
     exists r, In r (fetch_state_rows db (name_list states) (tru_param tru)) /\
               name r = fst nm /\ state r = snd nm).
Proof.
  intros Hnames Hvalid Hrows. split; [|split; [|split]].
  - rewrite (population_response u db states tru Hnames Hvalid Hrows).
    rewrite population_rows_map, !map_map. do 2 f_equal.
    apply map_ext. intros nm.
    change (population_entry true nm) with (population_obj nm []).
    now rewrite population_entry_fold.
  - now apply population_response_plain.
  - apply select_distinct_NoDup.
  - intros [n c]. unfold name_state_pairs. rewrite select_distinct_In, in_map_iff.
    split.
    + intros [r [Hr Hin]]. injection Hr as <- <-. exists r. now repeat split.
    + intros [r [Hin [Hn Hc]]]. exists r. simpl in Hn, Hc. subst. now split.
Qed.

Lemma population_objects_per_pair_witness :
  get_state_population as_scanned karnataka "Karnataka" None true =
    JSONResponse (JList (map
      (fun nm => JObj [("name", JStr (fst nm)); ("state", JInt (snd nm));
                       ("population",
                        JObj (tru_dict population_val
                                (group_of state (snd nm)
                                   (fetch_state_rows karnataka
                                      (name_list "Karnataka") (tru_param None)))))])
      (name_state_pairs as_scanned
         (fetch_state_rows karnataka (name_list "Karnataka") (tru_param None))))) /\
  get_state_population as_scanned karnataka "Karnataka" None false =
    JSONResponse (JList (map
      (fun nm => JObj [("name", JStr (fst nm)); ("state", JInt (snd nm))])
      (name_state_pairs as_scanned
         (fetch_state_rows karnataka (name_list "Karnataka") (tru_param None))))) /\
  NoDup (name_state_pairs as_scanned
           (fetch_state_rows karnataka (name_list "Karnataka") (tru_param None))) /\
  (forall nm,
     In nm (name_state_pairs as_scanned
              (fetch_state_rows karnataka (name_list "Karnataka") (tru_param None))) <->
     exists r, In r (fetch_state_rows karnataka (name_list "Karnataka") (tru_param None)) /\
               name r = fst nm /\ state r = snd nm).
Proof.
  apply (population_objects_per_pair as_scanned karnataka "Karnataka" None).
  - vm_compute. discriminate.
  - reflexivity.
  - vm_compute. discriminate.
Defined.

(** ** State metadata: field selection and counts *)

(** X11.  A field list in which no piece is an allowed field (after
    stripping) is refused with 400 "No valid fields selected", whatever the
    connection would answer: no query is involved. *)
Theorem no_valid_field_is_400 (conn : Connection) (fields : string)
    (sort_by sort_order : option string) (state_code : option Z) (limit offset : Z) :
  validate_states_request sort_by sort_order limit offset = None ->
  nonempty fields = true ->
  Forall (fun piece => ~ In (strip piece) allowed_fields) (split "," fields) ->
  list_states conn (Some fields) sort_by sort_order state_code limit offset =
  Raise (HTTPException 400 (Text "No valid fields selected")).
Proof.
  intros Hval Hne Hnone. unfold list_states. rewrite Hval. cbn [truthy]. rewrite Hne.
  assert (Hsel : selected_of fields = []).
  { unfold selected_of. induction (split "," fields) as [|p ps IH]; [reflexivity|].
    inversion Hnone as [|? ? Hp Hps]; subst. cbn [filter].
    rewrite (not_In_mem _ _ Hp). now apply IH. }
  now rewrite Hsel.
Qed.

Lemma no_valid_field_is_400_witness :
  list_states (conn_of [karnataka_rural] []) (Some "population, ,STATE") None None None 100 0 =
  Raise (HTTPException 400 (Text "No valid fields selected")).
Proof.
  apply (no_valid_field_is_400 (conn_of [karnataka_rural] []) "population, ,STATE").
  - reflexivity.
  - reflexivity.
  - vm_compute. repeat constructor; intros H; repeat (destruct H as [H|H]; [discriminate|]);
      exact H.
Defined.

Lemma count_rows_absent (field : string) (rows : list (Z * Z))
    (counts : odict Z (odict string json)) (c : Z) :
  ~ In c (map fst rows) -> od_get c counts = None ->
  od_get c (fold_left (count_row field) rows counts) = None.
Proof.
  revert counts. induction rows as [|row rows IH]; intros counts Hni Hnone; [exact Hnone|].
  cbn [fold_left]. apply IH; [simpl in Hni; tauto|].
  unfold count_row. rewrite od_get_set.
  destruct (key_eq_dec c (fst row)) as [->|Hn]; [|exact Hnone].
  exfalso. apply Hni. now left.
Qed.

Lemma count_fields_absent (conn : Connection) (fields : list string)
    (counts counts' : odict Z (odict string json)) (c : Z) :
  (forall q l rows, fetch_count conn q l = Ok rows -> ~ In c (map fst rows)) ->
  od_get c counts = None ->
  foldM (count_field conn) fields counts = Ok counts' ->
  od_get c counts' = None.
Proof.
  intros Habs. revert counts. induction fields as [|f fields IH]; intros counts Hnone Hf.
  - simpl in Hf. now injection Hf as <-.
  - simpl in Hf. destruct (count_field conn counts f) as [c1|e] eqn:Hc; [|discriminate].
    simpl in Hf. apply (IH c1); [|exact Hf].
    unfold count_field in Hc.
    destruct (od_get f count_fields) as [[code_column level_name]|]; [|discriminate].
    destruct (fetch_count conn _ _) as [rows|e] eqn:Hrows; [|discriminate].
    simpl in Hc. injection Hc as <-.
    apply count_rows_absent; [|exact Hnone]. now apply (Habs _ _ rows Hrows).
Qed.

Lemma od_merge_nil {K V} `{KeyEq K} (d : odict K V) : od_merge d [] = d.
Proof. reflexivity. Qed.

Lemma record_dict_get_present (cols : list string) (r : FactRow) (c : string) :
  In c cols -> od_get c (record_dict cols r) = Some (column c r).
Proof.
  unfold record_dict. generalize (@nil (string * json)).
  induction cols as [|c0 cols IH]; intros d Hin; [contradiction|].
  cbn [fold_left]. destruct (in_dec string_dec c cols) as [Hc|Hc].
  - now apply IH.
  - destruct Hin as [->|Hin]; [|contradiction].
    rewrite record_dict_get_from by exact Hc. apply od_get_set_eq.
Qed.

(** X12.  In a successful state-metadata answer with "state" among the
    selected fields, an object whose state code appears in no row returned by
    the count queries gets no count key at all (not a count of zero): its keys
    are just the caller's base columns. *)
Theorem uncounted_state_has_no_count_key (conn : Connection) (fields : string)
    (sort_by sort_order : option string) (state_code : option Z) (limit offset : Z)
    (objs : list json) (c : Z) (d : odict string json) :
  nonempty fields = true ->
  In "state" (selected_of fields) ->
  list_states conn (Some fields) sort_by sort_order state_code limit offset
    = JSONResponse (JList objs) ->
  (forall q l rows, fetch_count conn q l = Ok rows -> ~ In c (map fst rows)) ->
  In (JObj d) objs ->
  od_get "state" d = Some (JInt c) ->
  od_keys d = distinct (selected_base_of fields).
Proof.
  intros Hne Hstate Hresp Habs Hd Hc. unfold list_states in Hresp.
  destruct (validate_states_request sort_by sort_order limit offset); [discriminate|].
  cbn [truthy] in Hresp. rewrite Hne in Hresp.
  destruct (selected_of fields) as [|f0 fs] eqn:Hsel; [discriminate|].
  rewrite <- Hsel in Hresp.
  fold (selected_base_of fields) (selected_counts_of fields) in Hresp.
  destruct (fetch conn _) as [base_rows|e]; [|discriminate].
  cbn [bind] in Hresp.
  destruct (foldM (count_field conn) (selected_counts_of fields) []) as [counts|e] eqn:Hcounts;
    [|discriminate].
  cbn [bind] in Hresp.
  destruct (mapM (merge_counts counts) _) as [results|e] eqn:Hm; [|discriminate].
  cbn [bind except_Exception] in Hresp. injection Hresp as <-.
  apply in_map_iff in Hd. destruct Hd as [d' [Hd' Hin]]. injection Hd' as ->.
  destruct (mapM_In _ _ _ d Hm Hin) as [res [Hres Hmerge]].
  apply in_map_iff in Hres. destruct Hres as [r [<- _]].
  assert (Hsb : In "state" (selected_base_of fields)).
  { unfold selected_base_of. apply filter_In. split; [now rewrite Hsel | reflexivity]. }
  unfold merge_counts in Hmerge.
  rewrite (record_dict_get_present _ r "state" Hsb) in Hmerge.
  change (column "state" r) with (JInt (state r)) in Hmerge.
  injection Hmerge as Hmerge.
  destruct (od_get (state r) counts) as [extra|] eqn:Hextra.
  - exfalso.
    assert (Hks : subseq (od_keys extra) (selected_counts_of fields)).
    { apply (count_fields_inv conn _ [] [] counts) in Hcounts;
        [|intros st d0 Hg; discriminate].
      now apply (Hcounts (state r)). }
    assert (Hst : od_get "state" d = Some (JInt (state r))).
    { rewrite <- Hmerge. unfold od_merge.
      assert (Hgen : forall (e acc : odict string json),
                 ~ In "state" (od_keys e) ->
                 od_get "state"
                   (fold_left (fun acc kv => od_set (fst kv) (snd kv) acc) e acc)
                 = od_get "state" acc).
      { induction e as [|[k v] e IHe]; intros acc Hni; [reflexivity|].
        cbn [fold_left fst snd]. rewrite IHe by (simpl in Hni; tauto).
        apply od_get_set_neq. simpl in Hni. intros Heq. subst k. tauto. }
      rewrite Hgen; [now apply record_dict_get_present|].
      intros Hin'. apply (subseq_In _ _ _ Hks) in Hin'.
      unfold selected_counts_of in Hin'. apply filter_In in Hin'.
      destruct Hin' as [_ Hcf]. discriminate. }
    rewrite Hst in Hc. injection Hc as Hc. subst c.
    rewrite (count_fields_absent conn _ [] counts (state r) Habs eq_refl Hcounts) in Hextra.
    discriminate.
  - rewrite od_merge_nil in Hmerge. subst d. apply record_dict_keys.
Qed.

Lemma uncounted_state_has_no_count_key_witness :
  od_keys [("state", JInt 1); ("name", JStr "Karnataka")] =
  distinct (selected_base_of "state,name,district_count").
Proof.
  apply (uncounted_state_has_no_count_key (conn_of [karnataka_rural] [(2, 30)])
           "state,name,district_count" None None None 100 0
           [JObj [("state", JInt 1); ("name", JStr "Karnataka")]] 1).
  - reflexivity.
  - vm_compute. left. reflexivity.
  - reflexivity.
  - intros q l rows Hrows. injection Hrows as <-. simpl. intros [H|[]]. discriminate.
  - left. reflexivity.
  - reflexivity.
Defined.

(** ** Start-up retries *)

(** X13.  Start-up makes at most five attempts to create the pool.  It ends
    at the first attempt that succeeds, having slept three seconds after each
    failed attempt before it; if all five attempts fail it re-raises the
    exception of the fifth, having slept twelve seconds in all (no sleep
    after the last failure).  The loop never runs out silently. *)
Theorem startup_retries_are_bounded (create_pool : nat -> result unit) :
  match lifespan create_pool with
  | Some (Started k slept) =>
      (1 <= k <= 5)%nat /\
      (exists u, create_pool k = Ok u) /\
      (forall j, (1 <= j < k)%nat -> exists e, create_pool j = Err e) /\
      slept = 3 * (Z.of_nat k - 1)
  | Some (StartupFailed e slept) =>
      (forall j, (1 <= j <= 5)%nat -> exists e', create_pool j = Err e') /\
      create_pool 5%nat = Err e /\
      slept = 12
  | None => False
  end.
Proof.
  unfold lifespan. cbn [seq max_retries lifespan_loop Nat.eqb].
  destruct (create_pool 1%nat) as [u1|e1] eqn:H1.
  { split; [lia|]. split; [now exists u1|]. split; [intros j Hj; lia | reflexivity]. }
  destruct (create_pool 2%nat) as [u2|e2] eqn:H2.
  { split; [lia|]. split; [now exists u2|]. split; [|reflexivity].
    intros j Hj. assert (j = 1%nat) by lia. subst. eauto. }
  destruct (create_pool 3%nat) as [u3|e3] eqn:H3.
  { split; [lia|]. split; [now exists u3|]. split; [|reflexivity].
    intros j Hj. assert (j = 1 \/ j = 2)%nat as [->| ->] by lia; eauto. }
  destruct (create_pool 4%nat) as [u4|e4] eqn:H4.
  { split; [lia|]. split; [now exists u4|]. split; [|reflexivity].
    intros j Hj. assert (j = 1 \/ j = 2 \/ j = 3)%nat as [->|[->| ->]] by lia; eauto. }
  destruct (create_pool 5%nat) as [u5|e5] eqn:H5.
  { split; [lia|]. split; [now exists u5|]. split; [|reflexivity].
    intros j Hj.
    assert (j = 1 \/ j = 2 \/ j = 3 \/ j = 4)%nat as [->|[->|[->| ->]]] by lia; eauto. }
  split; [|split; reflexivity].
  intros j Hj.
  assert (j = 1 \/ j = 2 \/ j = 3 \/ j = 4 \/ j = 5)%nat as [->|[->|[->|[->| ->]]]] by lia;
    eauto.
Qed.

(** ** The locations answer *)

Lemma insert_by_perm {A} (key : A -> string) (x : A) (l : list A) :
  Permutation (insert_by key x l) (x :: l).
Proof.
  induction l as [|y l IH]; simpl; [reflexivity|].
  destruct (String.leb (key x) (key y)); [reflexivity|].
  rewrite IH. apply perm_swap.
Qed.

Lemma order_by_perm {A} (key : A -> string) (l : list A) : Permutation (order_by key l) l.
Proof.
  unfold order_by. induction l as [|x l IH]; simpl; [reflexivity|].
  rewrite insert_by_perm. now constructor.
Qed.

Lemma insert_ascending (x : string) (l : list string) :
  ascending l = true -> ascending (insert_by (fun s => s) x l) = true.
Proof.
  induction l as [|y l IH]; intros Hl; [reflexivity|].
  cbn [insert_by]. destruct (String.leb x y) eqn:Hxy.
  - cbn [ascending]. now rewrite Hxy.
  - assert (Hyx : String.leb y x = true).
    { destruct (String.leb_total x y) as [H|H]; [congruence|exact H]. }
    assert (Hl' : ascending l = true).
    { destruct l as [|z l]; [reflexivity|]. cbn [ascending] in Hl.
      now apply andb_prop in Hl. }
    specialize (IH Hl'). destruct l as [|z l].
    + cbn [insert_by ascending]. now rewrite Hyx.
    + cbn [insert_by] in *. destruct (String.leb x z) eqn:Hxz.
      * cbn [ascending] in *. now rewrite Hyx, Hxz.
      * cbn [ascending] in Hl. apply andb_prop in Hl. destruct Hl as [Hyz _].
        change (ascending (y :: z :: insert_by (fun s => s) x l))
          with (String.leb y z && ascending (z :: insert_by (fun s => s) x l)).
        now rewrite Hyz, IH.
Qed.

Lemma order_by_ascending (l : list string) : ascending (order_by (fun s => s) l) = true.
Proof.
  unfold order_by. induction l as [|x l IH]; [reflexivity|].
  cbn [fold_right]. now apply insert_ascending.
Qed.

(** X14.  Each name list of the locations answer (districts, sub-districts,
    towns, villages) is what [fetch_names] returns for the resolved state
    code: it has no duplicates, is in ascending order, and holds exactly the
    names of the stored rows of that state code whose level, lowercased and
    trimmed, is the level asked for. *)
Theorem location_names_distinct_sorted (db : Table) (state_code : Z) (level_name : string) :
  NoDup (fetch_names db state_code level_name) /\
  ascending (fetch_names db state_code level_name) = true /\
  (forall n, In n (fetch_names db state_code level_name) <->
             exists r, In r db /\ state r = state_code /\
                       sql_norm (level r) = level_name /\ name r = n).
Proof.
  unfold fetch_names. split; [|split].
  - apply (Permutation_NoDup (Permutation_sym (order_by_perm _ _))). apply distinct_NoDup.
  - apply order_by_ascending.
  - intros n. split.
    + intros Hin. apply (Permutation_in _ (order_by_perm _ _)) in Hin.
      apply (proj1 (distinct_In _ _)) in Hin. apply in_map_iff in Hin.
      destruct Hin as [r [Hn Hr]]. apply filter_In in Hr. destruct Hr as [Hr Hp].
      apply andb_prop in Hp. destruct Hp as [Hl Hs].
      exists r. repeat split; try assumption.
      * now apply Z.eqb_eq.
      * now apply String.eqb_eq.
    + intros [r [Hr [Hs [Hl Hn]]]].
      apply (Permutation_in _ (Permutation_sym (order_by_perm _ _))).
      apply distinct_In. apply in_map_iff. exists r. split; [exact Hn|].
      apply filter_In. split; [exact Hr|].
      apply andb_true_intro. split; [now apply String.eqb_eq | now apply Z.eqb_eq].
Qed.

(** ** The hierarchy *)

Lemma sub_row_upsert ip pm sm sub :
  sub_row ip pm sm sub = upsert sub_district_of (sub_entry ip pm) sm sub.
Proof. destruct sub as [[a b] c]. reflexivity. Qed.

Lemma sub_fold (ip : bool) (pm : odict (Z * Z) (odict string (list string)))
    (d : Z) (subs : list (Z * Z * string)) (o : option (list json)) :
  match fold_left (at_key sub_district_of (sub_entry ip pm) d) subs o with
  | Some l => l
  | None => []
  end =
  (match o with Some l => l | None => [] end ++ map (sub_obj ip pm) (subs_of d subs))%list.
Proof.
  revert o. induction subs as [|sub subs IH]; intros o.
  - simpl. now rewrite app_nil_r.
  - cbn [fold_left]. rewrite IH. unfold at_key at 1, subs_of. cbn [filter].
    fold (subs_of d subs).
    destruct (key_eq_dec (sub_district_of sub) d); [|reflexivity].
    unfold sub_entry. cbn [map]. now rewrite <- app_assoc.
Qed.

Lemma sub_map_get (ip : bool) (pm : odict (Z * Z) (odict string (list string)))
    (d : Z) (subs : list (Z * Z * string)) :
  match od_get d (fold_left (sub_row ip pm) subs []) with
  | Some l => l
  | None => []
  end = map (sub_obj ip pm) (subs_of d subs).
Proof.
  rewrite (fold_left_ext (sub_row ip pm) (upsert sub_district_of (sub_entry ip pm)))
    by (intros; apply sub_row_upsert).
  rewrite upsert_get. simpl od_get. now rewrite sub_fold.
Qed.

Lemma map_insert_by {A} (key : A -> string) (x : A) (l : list A) :
  map key (insert_by key x l) = insert_by (fun s => s) (key x) (map key l).
Proof.
  induction l as [|y l IH]; [reflexivity|]. cbn [insert_by map].
  destruct (String.leb (key x) (key y)); [reflexivity|]. cbn [map]. now rewrite IH.
Qed.

Lemma map_order_by {A} (key : A -> string) (l : list A) :
  map key (order_by key l) = order_by (fun s => s) (map key l).
Proof.
  unfold order_by. induction l as [|x l IH]; [reflexivity|].
  cbn [fold_right map]. now rewrite map_insert_by, IH.
Qed.

(** X10.  When the state resolves to the code [c] and the name [d], the
    hierarchy answer lists the districts of [c]: one object per distinct
    (code, name) pair of its district rows, in ascending order of name.  With
    [include_subdistricts] each district lists exactly the sub-districts
    whose district code is its own, in the order in which the store lists the
    sub-districts (the query has no [ORDER BY]), each once, so a
    sub-district whose district code matches no district row appears
    nowhere; each comes with its towns and villages when [include_places].
    Without [include_subdistricts] the district objects hold only their
    name, and [include_places] changes nothing. *)
Theorem hierarchy_links_by_district_code (us ud : Listing (Z * string))
    (ub : Listing (Z * Z * string)) (db : Table) (state_arg : string)
    (include_places : bool) :
  match resolve_state us db (lower (strip state_arg)) with
  | Some (c, d) =>
      get_location_hierarchy us ud ub db state_arg true include_places =
        JSONResponse (JObj
          [("state", JStr d);
           ("districts",
            JList (map (fun dist =>
                     JObj [("name", JStr (snd dist));
                           ("subdistricts",
                            JList (map (sub_obj include_places
                                          (places_for db c include_places))
                                       (subs_of (fst dist)
                                          (fetch_subdistricts ub db c))))])
                   (fetch_districts ud db c)))]) /\
      get_location_hierarchy us ud ub db state_arg false include_places =
        JSONResponse (JObj
          [("state", JStr d);
           ("districts",
            JList (map (fun dist => JObj [("name", JStr (snd dist))])
                       (fetch_districts ud db c)))]) /\
      NoDup (fetch_districts ud db c) /\
      ascending (map snd (fetch_districts ud db c)) = true /\
      (forall dist, In dist (fetch_districts ud db c) <->
         exists r, In r db /\ state r = c /\ sql_norm (level r) = "district" /\
                   dist = (district r, name r)) /\
      NoDup (fetch_subdistricts ub db c) /\
      (forall sub, In sub (fetch_subdistricts ub db c) <->
         exists r, In r db /\ state r = c /\ sql_norm (level r) = "sub-district" /\
                   sub = (subdistt r, district r, name r))
  | None => True
  end.
Proof.
  unfold get_location_hierarchy.
  destruct (resolve_state us db (lower (strip state_arg))) as [[c d]|]; [|exact I].
  cbn [fst snd except_Exception]. repeat split.
  - do 6 f_equal. apply map_ext. intros dist. cbn [app].
    do 5 f_equal. fold (places_for db c include_places). apply sub_map_get.
  - unfold fetch_districts.
    apply (Permutation_NoDup (Permutation_sym (order_by_perm _ _))).
    apply select_distinct_NoDup.
  - unfold fetch_districts. rewrite map_order_by. apply order_by_ascending.
  - unfold fetch_districts. intros Hin.
    apply (Permutation_in _ (order_by_perm _ _)) in Hin.
    apply (proj1 (select_distinct_In _ _ _)) in Hin. apply in_map_iff in Hin.
    destruct Hin as [r [Hr Hin]]. apply filter_In in Hin. destruct Hin as [Hin Hp].
    apply andb_prop in Hp. destruct Hp as [Hs Hl].
    exists r. repeat split; try assumption; [now apply Z.eqb_eq | now apply String.eqb_eq
                                             | now symmetry].
  - unfold fetch_districts. intros [r [Hin [Hs [Hl ->]]]].
    apply (Permutation_in _ (Permutation_sym (order_by_perm _ _))).
    apply select_distinct_In, in_map_iff. exists r. split; [reflexivity|].
    apply filter_In. split; [exact Hin|].
    apply andb_true_intro. split; [now apply Z.eqb_eq | now apply String.eqb_eq].
  - apply select_distinct_NoDup.
  - unfold fetch_subdistricts. intros Hin.
    apply (proj1 (select_distinct_In _ _ _)) in Hin. apply in_map_iff in Hin.
    destruct Hin as [r [Hr Hin]]. apply filter_In in Hin. destruct Hin as [Hin Hp].
    apply andb_prop in Hp. destruct Hp as [Hs Hl].
    exists r. repeat split; try assumption; [now apply Z.eqb_eq | now apply String.eqb_eq
                                             | now symmetry].
  - unfold fetch_subdistricts. intros [r [Hin [Hs [Hl ->]]]].
    apply select_distinct_In, in_map_iff. exists r. split; [reflexivity|].
    apply filter_In. split; [exact Hin|].
    apply andb_true_intro. split; [now apply Z.eqb_eq | now apply String.eqb_eq].
Qed.

(** ** The bulk loader *)

Lemma bind_fields_length (parse_int : string -> option Z) (row : odict string cell)
    (fs : list field) (vs : list sqlval) :
  bind_fields parse_int row fs = Loaded vs -> List.length vs = List.length fs.
Proof.
  revert vs. induction fs as [|f fs IH]; intros vs Hb; simpl in Hb.
  - now injection Hb as <-.
  - destruct (bind_field parse_int row f); [|discriminate].
    destruct (bind_fields parse_int row fs) as [vs'|e]; [|discriminate].
    injection Hb as <-. simpl. now rewrite (IH vs' eq_refl).
Qed.

(** X15.  Each of the seven insert statements names as many columns as it has
    placeholders, numbered 1, 2, ... in order, and binds one argument per
    placeholder, the identifier first; in the six statements of the count
    tables every column after the identifier is bound, as an integer, from
    the field of the external row named like the column in upper case, with
    one exception: the column [no_hh] is bound from the field "No_HH".  So
    an insert that reaches the store sends exactly one value per column,
    starting with the identifier. *)
Theorem loader_statements_line_up :
  Forall lines_up all_statements /\
  Forall (fun s => st_fields s = map (fun c => IntField (field_of_column c))
                                     (tl (st_columns s)))
         count_statements /\
  field_of_column "no_hh" = "No_HH" /\
  (forall s c, In s count_statements -> In c (tl (st_columns s)) -> c <> "no_hh" ->
               field_of_column c = upper c) /\
  (forall parse_int s row id args,
     In s all_statements ->
     execute_insert parse_int s row id = Loaded args ->
     List.length args = List.length (st_columns s) /\ hd_error args = Some (SInt id)).
Proof.
  assert (Hall : Forall lines_up all_statements).
  { unfold all_statements, lines_up. repeat constructor. }
  split; [exact Hall|]. split; [|split; [reflexivity|split]].
  - unfold count_statements. repeat constructor.
  - intros s c _ _ Hc. unfold field_of_column.
    destruct (c =? "no_hh")%string eqn:He; [|reflexivity].
    apply String.eqb_eq in He. contradiction.
  - intros parse_int s row id args Hs Hex. unfold execute_insert in Hex.
    destruct (bind_fields parse_int row (st_fields s)) as [vs|e] eqn:Hb; [|discriminate].
    injection Hex as <-. split; [|reflexivity].
    apply bind_fields_length in Hb.
    destruct (proj1 (Forall_forall _ _) Hall s Hs) as [_ Hlen].
    simpl. now rewrite Hb, Hlen.
Qed.

(** X16.  An insert function whose external row lacks a field raises the
    [KeyError] of the first missing field in argument order, provided the
    arguments before it can be bound; nothing is sent to the store. *)
Theorem loader_first_missing_field (parse_int : string -> option Z) (stmt : Statement)
    (row : odict string cell) (id : Z) (before after : list field) (f : field) :
  st_fields stmt = (before ++ f :: after)%list ->
  (forall g, In g before -> exists v, bind_field parse_int row g = Loaded v) ->
  od_get (field_key f) row = None ->
  execute_insert parse_int stmt row id = LoadFailed (LoadKeyError (field_key f)).
Proof.
  intros Hfields Hbefore Hmissing. unfold execute_insert. rewrite Hfields. clear Hfields.
  assert (Hb : bind_fields parse_int row (before ++ f :: after)
               = LoadFailed (LoadKeyError (field_key f))).
  { induction before as [|g before IH]; simpl.
    - unfold bind_field. now rewrite Hmissing.
    - destruct (Hbefore g (or_introl eq_refl)) as [v Hv]. rewrite Hv.
      rewrite IH; [reflexivity|]. intros g' Hg'. apply Hbefore. now right. }
  now rewrite Hb.
Qed.

Lemma loader_first_missing_field_witness :
  execute_insert sample_parse_int insert_location_row_stmt row_without_district 7 =
  LoadFailed (LoadKeyError (field_key (IntField "District"))).
Proof.
  apply (loader_first_missing_field sample_parse_int insert_location_row_stmt
           row_without_district 7 [IntField "State"] 
           [IntField "Subdistt"; IntField "Town/Village"; IntField "Ward"; IntField "EB";
            StrField "Level"; StrField "Name"; StrField "TRU"] (IntField "District")).
  - reflexivity.
  - intros g [<-|[]]. eexists. reflexivity.
  - reflexivity.
Defined.

(** X17.  When every argument of an insert can be bound (the field is in the
    external row, and a count is a number or a text that parses as one), the
    insert sends the identifier followed by the values of the fields in
    argument order, each read from its own field. *)
Theorem loader_sends_fields_in_order (parse_int : string -> option Z) (stmt : Statement)
    (row : odict string cell) (id : Z) :
  (forall f, In f (st_fields stmt) -> exists v, bind_field parse_int row f = Loaded v) ->
  exists vs,
    execute_insert parse_int stmt row id = Loaded (SInt id :: vs) /\
    Forall2 (fun f v => bind_field parse_int row f = Loaded v) (st_fields stmt) vs.
Proof.
  intros Hall. unfold execute_insert.
  assert (Hb : exists vs,
             bind_fields parse_int row (st_fields stmt) = Loaded vs /\
             Forall2 (fun f v => bind_field parse_int row f = Loaded v) (st_fields stmt) vs).
  { induction (st_fields stmt) as [|f fs IH]; [exists []; split; [reflexivity|constructor]|].
    destruct (Hall f (or_introl eq_refl)) as [v Hv].
    destruct IH as [vs [Hvs Hf2]]; [intros g Hg; apply Hall; now right|].
    exists (v :: vs). split; [simpl; now rewrite Hv, Hvs | now constructor]. }
  destruct Hb as [vs [Hvs Hf2]]. exists vs. now rewrite Hvs.
Qed.

Lemma loader_sends_fields_in_order_witness :
  exists vs,
    execute_insert sample_parse_int insert_literacy_row_stmt literacy_cells 7
      = Loaded (SInt 7 :: vs) /\
    Forall2 (fun f v => bind_field sample_parse_int literacy_cells f = Loaded v)
            (st_fields insert_literacy_row_stmt) vs.
Proof.
  apply (loader_sends_fields_in_order sample_parse_int insert_literacy_row_stmt
           literacy_cells 7).
  intros f Hf. simpl in Hf.
  repeat (destruct Hf as [<-|Hf]; [eexists; vm_compute; reflexivity|]). contradiction.
Defined.

(** ** The district breakdown *)

Lemma district_row_upsert g row : district_row g row = upsert dr_state district_entry g row.
Proof. reflexivity. Qed.

Lemma district_entry_fold (G : list DistrictRow) (d : odict string (odict string json)) :
  fold_left (fun o r => Some (district_entry r o)) G (Some d) =
  Some (fold_left (upsert dr_district district_tru_entry) G d).
Proof. revert d. induction G as [|r G IH]; intros d; [reflexivity|]. cbn [fold_left]. apply IH. Qed.

Lemma district_tru_fold (G : list DistrictRow) (d : odict string json) :
  fold_left (fun o r => Some (district_tru_entry r o)) G (Some d) =
  Some (fold_left (fun d r => od_set (lower (dr_tru r)) (district_block r) d) G d).
Proof. revert d. induction G as [|r G IH]; intros d; [reflexivity|]. cbn [fold_left]. apply IH. Qed.

Lemma district_tru_dict_last_from (G : list DistrictRow) (d : odict string json) (l : string) :
  od_get l (fold_left (fun d r => od_set (lower (dr_tru r)) (district_block r) d) G d) =
  match last_district_row l G with
  | Some r => Some (district_block r)
  | None => od_get l d
  end.
Proof.
  unfold last_district_row. revert d. induction G as [|r G IH]; intros d; [reflexivity|].
  cbn [fold_left rev]. rewrite IH, find_app.
  destruct (find (fun r0 => (lower (dr_tru r0) =? l)%string) (rev G)); [reflexivity|].
  cbn [find]. rewrite od_get_set.
  destruct (key_eq_dec l (lower (dr_tru r))) as [->|Hn].
  - now rewrite String.eqb_refl.
  - destruct (lower (dr_tru r) =? l)%string eqn:He; [|reflexivity].
    apply String.eqb_eq in He. congruence.
Qed.

(** The districts of a state inside the grouped answer. *)
Lemma district_state_entry (rows : list DistrictRow) (s : string)
    (ds : odict string (odict string json)) :
  In (s, ds) (fold_left district_row rows []) ->
  ds = fold_left (upsert dr_district district_tru_entry) (rows_of_state s rows) [].
Proof.
  intros Hs.
  change (fold_left district_row rows []) with
    (fold_left (upsert dr_state district_entry) rows []) in Hs.
  apply od_In_get in Hs; [|apply upsert_NoDup; constructor].
  rewrite upsert_get, at_key_filter in Hs. simpl od_get in Hs.
  fold (rows_of_state s rows) in Hs.
  destruct (rows_of_state s rows) as [|r0 G]; [discriminate|].
  cbn [fold_left] in Hs.
  change (district_entry r0 None) with (upsert dr_district district_tru_entry [] r0) in Hs.
  rewrite district_entry_fold in Hs. now injection Hs as <-.
Qed.

(** The dictionary of a district inside the grouped answer. *)
Lemma district_population (rows : list DistrictRow) (s d : string) (td : odict string json) :
  In (d, td) (fold_left (upsert dr_district district_tru_entry) (rows_of_state s rows) []) ->
  td = district_tru_dict (rows_of_district s d rows).
Proof.
  intros Hd.
  apply od_In_get in Hd; [|apply upsert_NoDup; constructor].
  rewrite upsert_get, at_key_filter in Hd. simpl od_get in Hd.
  fold (rows_of_district s d rows) in Hd.
  destruct (rows_of_district s d rows) as [|r1 G1]; [discriminate|].
  cbn [fold_left] in Hd. rewrite district_tru_fold in Hd. now injection Hd as <-.
Qed.

(** X18.  The district breakdown answers with one state object per distinct
    state name of the fetched rows, in fetch order, and inside each state
    with one district object per distinct district name of that state's rows,
    in fetch order.  The rows of one district are merged into its object:
    its "population" has one entry per lowercase TRU label of the district's
    rows, in fetch order, and under a label it holds the block of the last
    fetched row of the district with that label. *)
Theorem district_rows_merge_by_label (rows : list DistrictRow) :
  district_result rows =
    JList (map (fun s =>
             JObj [("state", JStr s);
                   ("districts",
                    JList (map (fun d =>
                             JObj [("name", JStr d);
                                   ("population",
                                    JObj (district_tru_dict (rows_of_district s d rows)))])
                           (distinct (map dr_district (rows_of_state s rows)))))])
           (distinct (map dr_state rows))) /\
  (forall s d,
     od_keys (district_tru_dict (rows_of_district s d rows)) =
       distinct (map (fun r => lower (dr_tru r)) (rows_of_district s d rows)) /\
     (forall l,
        od_get l (district_tru_dict (rows_of_district s d rows)) =
          option_map district_block (last_district_row l (rows_of_district s d rows)))).
Proof.
  split.
  - unfold district_result. f_equal.
    rewrite <- (upsert_keys dr_state district_entry rows).
    change (fold_left district_row rows []) with
      (fold_left (upsert dr_state district_entry) rows []).
    unfold od_keys at 1. rewrite map_map. apply map_ext_in. intros [s ds] Hs.
    cbn [fst snd]. do 5 f_equal.
    pose proof (district_state_entry rows s ds Hs) as Hds. subst ds.
    rewrite <- (upsert_keys dr_district district_tru_entry (rows_of_state s rows)).
    unfold od_keys. rewrite map_map. apply map_ext_in. intros [d td] Hd.
    cbn [fst snd]. do 5 f_equal.
    now apply (district_population rows s d td Hd).
  - intros s d. split.
    + unfold district_tru_dict.
      rewrite (fold_set_keys (fun r => lower (dr_tru r)) district_block).
      rewrite (distinct_fold _ (map (fun r => lower (dr_tru r)) (rows_of_district s d rows)) [])
        by reflexivity.
      simpl. generalize (distinct (map (fun r => lower (dr_tru r)) (rows_of_district s d rows))).
      intros L. induction L as [|x t IH]; simpl; congruence.
    + intros l. unfold district_tru_dict. rewrite district_tru_dict_last_from.
      now destruct (last_district_row l (rows_of_district s d rows)).
Qed.
